(** * Controle de poço com autocalibração e filtro: modelo e verificação

    Shallow embedding of [Controle_Poco_Com_Autocalibracao_e_Filter.ino]:
    the sketch's global variables become the fields of one record
    [Estado], every sketch function becomes an action of a state monad
    over that record, and the board (output latches, ADC, serial port) is
    part of the same record.

    Modelling conventions.
    - [bool]: [HIGH] is [true], [LOW] is [false].
    - [unsigned long] (the [millis()] clock, 32 bits on the supported
      boards): [Z] with the wrap-around of the subtraction written out
      ([sub_ul]).
    - [long] (32 bits): [Z] with the signed wrap-around written out
      ([wrap_long]).
    - [float]: in the model of the control flow, exact rational
      arithmetic ([Q]), which idealises the rounding of the binary
      representation; [sqrt] of [math.h] is a parameter of which only
      non-negativity is assumed.  The arithmetic of the filter update and
      of [mapFloat] is also embedded bit for bit, in binary32
      ([filtrar32], [mapFloat]), where a property depends on the
      rounding.
    - [digitalRead] and [millis()] results are arguments of the function
      that performs the call; [analogRead] is an oracle [adc] indexed by
      the pin and by the number of conversions made so far.
    - [Serial.print]/[println] append one [Mensagem] to the field
      [serial]. *)

From Stdlib Require Import ZArith QArith Qround Qabs Qpower Bool List Lia Lqa.
From Stdlib Require Import Arith SpecFloat.
From ExtLib Require Import Structures.Monad Structures.MonadState.
From ExtLib Require Import Data.Monads.StateMonad.
Import ListNotations.
Import MonadNotation.
Local Open Scope monad_scope.
Local Open Scope Z_scope.

(** ** Pins, levels and machine integers *)

Inductive Pino : Type :=
| botao | botaoCalib | bombaPin | ledModo | Bomba | sensorMin | sensorMax.

Definition HIGH : bool := true.
Definition LOW : bool := false.

(** [a - b] on [unsigned long]. *)
Definition sub_ul (a b : Z) : Z := (a - b) mod 2 ^ 32.

(** Value of a mathematical integer stored in a [long]. *)
Definition wrap_long (z : Z) : Z := (z + 2 ^ 31) mod 2 ^ 32 - 2 ^ 31.

(** Conversion [(long) x] of a float: truncation toward zero. *)
Definition trunc_long (x : Q) : Z :=
  wrap_long (if Qle_bool 0 x then Qfloor x else Qceiling x).

(** [a > b] on floats. *)
Definition Qgt_bool (a b : Q) : bool := negb (Qle_bool a b).

(** ** Well states *)

Inductive EstadoPoco : Type :=
| POCO_CHEIO | POCO_DESCENDO | POCO_VAZIO | POCO_ENCHENDO
| SENSOR_FALHA | FALHA_ELETRICA.

Definition EstadoPoco_eqb (a b : EstadoPoco) : bool :=
  match a, b with
  | POCO_CHEIO, POCO_CHEIO | POCO_DESCENDO, POCO_DESCENDO
  | POCO_VAZIO, POCO_VAZIO | POCO_ENCHENDO, POCO_ENCHENDO
  | SENSOR_FALHA, SENSOR_FALHA | FALHA_ELETRICA, FALHA_ELETRICA => true
  | _, _ => false
  end.

(** ** Lines written to the serial port *)

Inductive Mensagem : Type :=
| MsgBanner
| MsgIniciandoCalib
| MsgAutocalibrado (gmin gmax : Q)
| MsgBombaLigada
| MsgBombaDesligada
| MsgTensoes (vmin vmax : Q)
| MsgFalhaDetectada
| MsgPocoCheio
| MsgComecandoEncher
| MsgVazioAguardando
| MsgAindaVazio
| MsgEnchendo
| MsgNivelDescendo
| MsgPocoSecou
| MsgMantendoCheio
| MsgNivelCritico
| MsgReabastecido
| MsgAindaComAgua
| MsgFalhaResolvida
| MsgAguardandoCorrecao
| MsgTransicao (de para : EstadoPoco)
| MsgSistemaLigado
| MsgSistemaPronto
| MsgPlotter (vmin vmax : Q).

(** ** Global state of the sketch and of the board *)

Record Estado : Type := mkEstado {
  estadoBotaoEstavel : bool;
  ultimoEstadoLido : bool;
  ultimoTempoTroca : Z;
  estadoBotaoCalibEstavel : bool;
  ultimoEstadoCalibLido : bool;
  ultimoTempoCalib : Z;
  modoAutomatico : bool;
  bombaLigada : bool;
  estadoAtual : EstadoPoco;
  estadoAnterior : EstadoPoco;
  ganhoMin : Q;
  ganhoMax : Q;
  filtroVmin : Q;
  filtroVmax : Q;
  ultimaLeitura : Z;
  saida_bombaPin : bool;
  saida_Bomba : bool;
  saida_ledModo : bool;
  leiturasADC : Z;
  serial : list Mensagem
}.

Definition set_estadoBotaoEstavel (v : bool) (s : Estado) : Estado :=
  mkEstado v (ultimoEstadoLido s) (ultimoTempoTroca s)
    (estadoBotaoCalibEstavel s) (ultimoEstadoCalibLido s) (ultimoTempoCalib s)
    (modoAutomatico s) (bombaLigada s) (estadoAtual s) (estadoAnterior s)
    (ganhoMin s) (ganhoMax s) (filtroVmin s) (filtroVmax s) (ultimaLeitura s)
    (saida_bombaPin s) (saida_Bomba s) (saida_ledModo s) (leiturasADC s)
    (serial s).

Definition set_ultimoEstadoLido (v : bool) (s : Estado) : Estado :=
  mkEstado (estadoBotaoEstavel s) v (ultimoTempoTroca s)
    (estadoBotaoCalibEstavel s) (ultimoEstadoCalibLido s) (ultimoTempoCalib s)
    (modoAutomatico s) (bombaLigada s) (estadoAtual s) (estadoAnterior s)
    (ganhoMin s) (ganhoMax s) (filtroVmin s) (filtroVmax s) (ultimaLeitura s)
    (saida_bombaPin s) (saida_Bomba s) (saida_ledModo s) (leiturasADC s)
    (serial s).

Definition set_ultimoTempoTroca (v : Z) (s : Estado) : Estado :=
  mkEstado (estadoBotaoEstavel s) (ultimoEstadoLido s) v
    (estadoBotaoCalibEstavel s) (ultimoEstadoCalibLido s) (ultimoTempoCalib s)
    (modoAutomatico s) (bombaLigada s) (estadoAtual s) (estadoAnterior s)
    (ganhoMin s) (ganhoMax s) (filtroVmin s) (filtroVmax s) (ultimaLeitura s)
    (saida_bombaPin s) (saida_Bomba s) (saida_ledModo s) (leiturasADC s)
    (serial s).

Definition set_estadoBotaoCalibEstavel (v : bool) (s : Estado) : Estado :=
  mkEstado (estadoBotaoEstavel s) (ultimoEstadoLido s) (ultimoTempoTroca s) v
    (ultimoEstadoCalibLido s) (ultimoTempoCalib s) (modoAutomatico s)
    (bombaLigada s) (estadoAtual s) (estadoAnterior s) (ganhoMin s)
    (ganhoMax s) (filtroVmin s) (filtroVmax s) (ultimaLeitura s)
    (saida_bombaPin s) (saida_Bomba s) (saida_ledModo s) (leiturasADC s)
    (serial s).

Definition set_ultimoEstadoCalibLido (v : bool) (s : Estado) : Estado :=
  mkEstado (estadoBotaoEstavel s) (ultimoEstadoLido s) (ultimoTempoTroca s)
    (estadoBotaoCalibEstavel s) v (ultimoTempoCalib s) (modoAutomatico s)
    (bombaLigada s) (estadoAtual s) (estadoAnterior s) (ganhoMin s)
    (ganhoMax s) (filtroVmin s) (filtroVmax s) (ultimaLeitura s)
    (saida_bombaPin s) (saida_Bomba s) (saida_ledModo s) (leiturasADC s)
    (serial s).

Definition set_ultimoTempoCalib (v : Z) (s : Estado) : Estado :=
  mkEstado (estadoBotaoEstavel s) (ultimoEstadoLido s) (ultimoTempoTroca s)
    (estadoBotaoCalibEstavel s) (ultimoEstadoCalibLido s) v (modoAutomatico s)
    (bombaLigada s) (estadoAtual s) (estadoAnterior s) (ganhoMin s)
    (ganhoMax s) (filtroVmin s) (filtroVmax s) (ultimaLeitura s)
    (saida_bombaPin s) (saida_Bomba s) (saida_ledModo s) (leiturasADC s)
    (serial s).

Definition set_modoAutomatico (v : bool) (s : Estado) : Estado :=
  mkEstado (estadoBotaoEstavel s) (ultimoEstadoLido s) (ultimoTempoTroca s)
    (estadoBotaoCalibEstavel s) (ultimoEstadoCalibLido s) (ultimoTempoCalib s)
    v (bombaLigada s) (estadoAtual s) (estadoAnterior s) (ganhoMin s)
    (ganhoMax s) (filtroVmin s) (filtroVmax s) (ultimaLeitura s)
    (saida_bombaPin s) (saida_Bomba s) (saida_ledModo s) (leiturasADC s)
    (serial s).

Definition set_bombaLigada (v : bool) (s : Estado) : Estado :=
  mkEstado (estadoBotaoEstavel s) (ultimoEstadoLido s) (ultimoTempoTroca s)
    (estadoBotaoCalibEstavel s) (ultimoEstadoCalibLido s) (ultimoTempoCalib s)
    (modoAutomatico s) v (estadoAtual s) (estadoAnterior s) (ganhoMin s)
    (ganhoMax s) (filtroVmin s) (filtroVmax s) (ultimaLeitura s)
    (saida_bombaPin s) (saida_Bomba s) (saida_ledModo s) (leiturasADC s)
    (serial s).

Definition set_estadoAtual (v : EstadoPoco) (s : Estado) : Estado :=
  mkEstado (estadoBotaoEstavel s) (ultimoEstadoLido s) (ultimoTempoTroca s)
    (estadoBotaoCalibEstavel s) (ultimoEstadoCalibLido s) (ultimoTempoCalib s)
    (modoAutomatico s) (bombaLigada s) v (estadoAnterior s) (ganhoMin s)
    (ganhoMax s) (filtroVmin s) (filtroVmax s) (ultimaLeitura s)
    (saida_bombaPin s) (saida_Bomba s) (saida_ledModo s) (leiturasADC s)
    (serial s).

Definition set_estadoAnterior (v : EstadoPoco) (s : Estado) : Estado :=
  mkEstado (estadoBotaoEstavel s) (ultimoEstadoLido s) (ultimoTempoTroca s)
    (estadoBotaoCalibEstavel s) (ultimoEstadoCalibLido s) (ultimoTempoCalib s)
    (modoAutomatico s) (bombaLigada s) (estadoAtual s) v (ganhoMin s)
    (ganhoMax s) (filtroVmin s) (filtroVmax s) (ultimaLeitura s)
    (saida_bombaPin s) (saida_Bomba s) (saida_ledModo s) (leiturasADC s)
    (serial s).

Definition set_ganhoMin (v : Q) (s : Estado) : Estado :=
  mkEstado (estadoBotaoEstavel s) (ultimoEstadoLido s) (ultimoTempoTroca s)
    (estadoBotaoCalibEstavel s) (ultimoEstadoCalibLido s) (ultimoTempoCalib s)
    (modoAutomatico s) (bombaLigada s) (estadoAtual s) (estadoAnterior s) v
    (ganhoMax s) (filtroVmin s) (filtroVmax s) (ultimaLeitura s)
    (saida_bombaPin s) (saida_Bomba s) (saida_ledModo s) (leiturasADC s)
    (serial s).

Definition set_ganhoMax (v : Q) (s : Estado) : Estado :=
  mkEstado (estadoBotaoEstavel s) (ultimoEstadoLido s) (ultimoTempoTroca s)
    (estadoBotaoCalibEstavel s) (ultimoEstadoCalibLido s) (ultimoTempoCalib s)
    (modoAutomatico s) (bombaLigada s) (estadoAtual s) (estadoAnterior s)
    (ganhoMin s) v (filtroVmin s) (filtroVmax s) (ultimaLeitura s)
    (saida_bombaPin s) (saida_Bomba s) (saida_ledModo s) (leiturasADC s)
    (serial s).

Definition set_filtroVmin (v : Q) (s : Estado) : Estado :=
  mkEstado (estadoBotaoEstavel s) (ultimoEstadoLido s) (ultimoTempoTroca s)
    (estadoBotaoCalibEstavel s) (ultimoEstadoCalibLido s) (ultimoTempoCalib s)
    (modoAutomatico s) (bombaLigada s) (estadoAtual s) (estadoAnterior s)
    (ganhoMin s) (ganhoMax s) v (filtroVmax s) (ultimaLeitura s)
    (saida_bombaPin s) (saida_Bomba s) (saida_ledModo s) (leiturasADC s)
    (serial s).

Definition set_filtroVmax (v : Q) (s : Estado) : Estado :=
  mkEstado (estadoBotaoEstavel s) (ultimoEstadoLido s) (ultimoTempoTroca s)
    (estadoBotaoCalibEstavel s) (ultimoEstadoCalibLido s) (ultimoTempoCalib s)
    (modoAutomatico s) (bombaLigada s) (estadoAtual s) (estadoAnterior s)
    (ganhoMin s) (ganhoMax s) (filtroVmin s) v (ultimaLeitura s)
    (saida_bombaPin s) (saida_Bomba s) (saida_ledModo s) (leiturasADC s)
    (serial s).

Definition set_ultimaLeitura (v : Z) (s : Estado) : Estado :=
  mkEstado (estadoBotaoEstavel s) (ultimoEstadoLido s) (ultimoTempoTroca s)
    (estadoBotaoCalibEstavel s) (ultimoEstadoCalibLido s) (ultimoTempoCalib s)
    (modoAutomatico s) (bombaLigada s) (estadoAtual s) (estadoAnterior s)
    (ganhoMin s) (ganhoMax s) (filtroVmin s) (filtroVmax s) v
    (saida_bombaPin s) (saida_Bomba s) (saida_ledModo s) (leiturasADC s)
    (serial s).

Definition set_saida_bombaPin (v : bool) (s : Estado) : Estado :=
  mkEstado (estadoBotaoEstavel s) (ultimoEstadoLido s) (ultimoTempoTroca s)
    (estadoBotaoCalibEstavel s) (ultimoEstadoCalibLido s) (ultimoTempoCalib s)
    (modoAutomatico s) (bombaLigada s) (estadoAtual s) (estadoAnterior s)
    (ganhoMin s) (ganhoMax s) (filtroVmin s) (filtroVmax s) (ultimaLeitura s)
    v (saida_Bomba s) (saida_ledModo s) (leiturasADC s) (serial s).

Definition set_saida_Bomba (v : bool) (s : Estado) : Estado :=
  mkEstado (estadoBotaoEstavel s) (ultimoEstadoLido s) (ultimoTempoTroca s)
    (estadoBotaoCalibEstavel s) (ultimoEstadoCalibLido s) (ultimoTempoCalib s)
    (modoAutomatico s) (bombaLigada s) (estadoAtual s) (estadoAnterior s)
    (ganhoMin s) (ganhoMax s) (filtroVmin s) (filtroVmax s) (ultimaLeitura s)
    (saida_bombaPin s) v (saida_ledModo s) (leiturasADC s) (serial s).

Definition set_saida_ledModo (v : bool) (s : Estado) : Estado :=
  mkEstado (estadoBotaoEstavel s) (ultimoEstadoLido s) (ultimoTempoTroca s)
    (estadoBotaoCalibEstavel s) (ultimoEstadoCalibLido s) (ultimoTempoCalib s)
    (modoAutomatico s) (bombaLigada s) (estadoAtual s) (estadoAnterior s)
    (ganhoMin s) (ganhoMax s) (filtroVmin s) (filtroVmax s) (ultimaLeitura s)
    (saida_bombaPin s) (saida_Bomba s) v (leiturasADC s) (serial s).

Definition set_leiturasADC (v : Z) (s : Estado) : Estado :=
  mkEstado (estadoBotaoEstavel s) (ultimoEstadoLido s) (ultimoTempoTroca s)
    (estadoBotaoCalibEstavel s) (ultimoEstadoCalibLido s) (ultimoTempoCalib s)
    (modoAutomatico s) (bombaLigada s) (estadoAtual s) (estadoAnterior s)
    (ganhoMin s) (ganhoMax s) (filtroVmin s) (filtroVmax s) (ultimaLeitura s)
    (saida_bombaPin s) (saida_Bomba s) (saida_ledModo s) v (serial s).

Definition set_serial (v : list Mensagem) (s : Estado) : Estado :=
  mkEstado (estadoBotaoEstavel s) (ultimoEstadoLido s) (ultimoTempoTroca s)
    (estadoBotaoCalibEstavel s) (ultimoEstadoCalibLido s) (ultimoTempoCalib s)
    (modoAutomatico s) (bombaLigada s) (estadoAtual s) (estadoAnterior s)
    (ganhoMin s) (ganhoMax s) (filtroVmin s) (filtroVmax s) (ultimaLeitura s)
    (saida_bombaPin s) (saida_Bomba s) (saida_ledModo s) (leiturasADC s) v.

(** Values of the globals at power-on; the board fields start at rest. *)
Definition estadoInicial : Estado :=
  {| estadoBotaoEstavel := HIGH; ultimoEstadoLido := HIGH;
     ultimoTempoTroca := 0;
     estadoBotaoCalibEstavel := HIGH; ultimoEstadoCalibLido := HIGH;
     ultimoTempoCalib := 0;
     modoAutomatico := false; bombaLigada := false;
     estadoAtual := POCO_VAZIO; estadoAnterior := POCO_VAZIO;
     ganhoMin := 1; ganhoMax := 1;
     filtroVmin := 0; filtroVmax := 0;
     ultimaLeitura := 0;
     saida_bombaPin := LOW; saida_Bomba := LOW; saida_ledModo := LOW;
     leiturasADC := 0; serial := [] |}.

(** ** The state monad of the sketch *)

Definition M : Type -> Type := state Estado.

Definition exec {A} (c : M A) (s : Estado) : Estado := snd (runState c s).
Definition eval {A} (c : M A) (s : Estado) : A := fst (runState c s).

(** An assignment to a global. *)
Definition upd (f : Estado -> Estado) : M unit :=
  s <- get ;; put (f s).

Definition println (m : Mensagem) : M unit :=
  upd (fun s => set_serial (serial s ++ [m]) s).

Definition digitalWrite (p : Pino) (v : bool) : M unit :=
  match p with
  | bombaPin => upd (set_saida_bombaPin v)
  | Bomba => upd (set_saida_Bomba v)
  | ledModo => upd (set_saida_ledModo v)
  | _ => ret tt
  end.

(** ** Configuration constants *)

Definition tempoDebounce : Z := 50.
Definition calibrationFactor : Q := 242.
Definition alpha : Q := 2 # 10.
Definition LIMITE_MOLHADO : Q := 45 # 10.
Definition LIMITE_SECO : Q := 8.

(** ** Pump control and well states *)

Definition ligarBomba : M unit :=
  ligada <- gets bombaLigada ;;
  if negb ligada then
    upd (set_bombaLigada true) ;;
    digitalWrite bombaPin HIGH ;;
    digitalWrite Bomba HIGH ;;
    println MsgBombaLigada
  else ret tt.

Definition desligarBomba : M unit :=
  ligada <- gets bombaLigada ;;
  if ligada then
    upd (set_bombaLigada false) ;;
    digitalWrite bombaPin LOW ;;
    digitalWrite Bomba LOW ;;
    println MsgBombaDesligada
  else ret tt.

Definition atualizarEstado (tensaoMin tensaoMax : Q) : M unit :=
  let eminMolhado := Qle_bool tensaoMin LIMITE_MOLHADO in
  let emaxMolhado := Qle_bool tensaoMax LIMITE_MOLHADO in
  println (MsgTensoes tensaoMin tensaoMax) ;;
  atual <- gets estadoAtual ;;
  upd (set_estadoAnterior atual) ;;
  if negb eminMolhado && emaxMolhado then
    upd (set_estadoAtual SENSOR_FALHA) ;;
    println MsgFalhaDetectada
  else
    match atual with
    | POCO_VAZIO =>
        if eminMolhado && emaxMolhado then
          upd (set_estadoAtual POCO_CHEIO) ;; println MsgPocoCheio
        else if eminMolhado && negb emaxMolhado then
          upd (set_estadoAtual POCO_ENCHENDO) ;; println MsgComecandoEncher
        else println MsgVazioAguardando
    | POCO_ENCHENDO =>
        if eminMolhado && emaxMolhado then
          upd (set_estadoAtual POCO_CHEIO) ;; println MsgPocoCheio
        else if negb eminMolhado && negb emaxMolhado then
          upd (set_estadoAtual POCO_VAZIO) ;; println MsgAindaVazio
        else println MsgEnchendo
    | POCO_CHEIO =>
        if eminMolhado && negb emaxMolhado then
          upd (set_estadoAtual POCO_DESCENDO) ;; println MsgNivelDescendo
        else if negb eminMolhado && negb emaxMolhado then
          upd (set_estadoAtual POCO_VAZIO) ;; println MsgPocoSecou
        else println MsgMantendoCheio
    | POCO_DESCENDO =>
        if negb eminMolhado && negb emaxMolhado then
          upd (set_estadoAtual POCO_VAZIO) ;; println MsgNivelCritico
        else if eminMolhado && emaxMolhado then
          upd (set_estadoAtual POCO_CHEIO) ;; println MsgReabastecido
        else println MsgAindaComAgua
    | SENSOR_FALHA =>
        if eminMolhado || negb emaxMolhado then
          println MsgFalhaResolvida ;; upd (set_estadoAtual POCO_VAZIO)
        else println MsgAguardandoCorrecao
    | FALHA_ELETRICA => ret tt
    end ;;
    novo <- gets estadoAtual ;;
    anterior <- gets estadoAnterior ;;
    if negb (EstadoPoco_eqb novo anterior) then
      println (MsgTransicao anterior novo)
    else ret tt.

Definition controlarBomba : M unit :=
  atual <- gets estadoAtual ;;
  if EstadoPoco_eqb atual FALHA_ELETRICA || EstadoPoco_eqb atual SENSOR_FALHA
  then desligarBomba
  else
    match atual with
    | POCO_CHEIO | POCO_DESCENDO => ligarBomba
    | POCO_VAZIO | POCO_ENCHENDO => desligarBomba
    | _ => ret tt
    end.

(** ** Debounced buttons and the sampling timer *)

Definition tempoDecorrido (intervalo : Z) (agora : Z) : M bool :=
  ultima <- gets ultimaLeitura ;;
  if sub_ul agora ultima >=? intervalo then
    upd (set_ultimaLeitura agora) ;; ret true
  else ret false.

(** [leituraAtual] is the level [digitalRead(botao)] returned and [agora]
    the value [millis()] returned inside the call. *)
Definition verificarBotao (leituraAtual : bool) (agora : Z) : M bool :=
  ultimo <- gets ultimoEstadoLido ;;
  (if negb (eqb leituraAtual ultimo) then
     upd (set_ultimoTempoTroca agora) ;;
     upd (set_ultimoEstadoLido leituraAtual)
   else ret tt) ;;
  troca <- gets ultimoTempoTroca ;;
  if sub_ul agora troca >? tempoDebounce then
    estavel <- gets estadoBotaoEstavel ;;
    if negb (eqb leituraAtual estavel) then
      upd (set_estadoBotaoEstavel leituraAtual) ;; ret true
    else ret false
  else ret false.

Definition verificarBotaoCalib (leituraAtual : bool) (agora : Z) : M bool :=
  ultimo <- gets ultimoEstadoCalibLido ;;
  (if negb (eqb leituraAtual ultimo) then
     upd (set_ultimoTempoCalib agora) ;;
     upd (set_ultimoEstadoCalibLido leituraAtual)
   else ret tt) ;;
  troca <- gets ultimoTempoCalib ;;
  if sub_ul agora troca >? tempoDebounce then
    estavel <- gets estadoBotaoCalibEstavel ;;
    if negb (eqb leituraAtual estavel) then
      upd (set_estadoBotaoCalibEstavel leituraAtual) ;; ret true
    else ret false
  else ret false.

(** A run of polls of the mode button, one [(level, time)] pair per call,
    returning what each call returned. *)
Fixpoint verificarBotaoSeq (ps : list (bool * Z)) : M (list bool) :=
  match ps with
  | [] => ret []
  | (leitura, agora) :: ps' =>
      mudou <- verificarBotao leitura agora ;;
      resto <- verificarBotaoSeq ps' ;;
      ret (mudou :: resto)
  end.

Fixpoint verificarBotaoCalibSeq (ps : list (bool * Z)) : M (list bool) :=
  match ps with
  | [] => ret []
  | (leitura, agora) :: ps' =>
      mudou <- verificarBotaoCalib leitura agora ;;
      resto <- verificarBotaoCalibSeq ps' ;;
      ret (mudou :: resto)
  end.

(** ** The exponential filter *)

(** [filtro = alpha * v + (1 - alpha) * filtro] over exact numbers: the
    update [0.2 * v + 0.8 * smoothed].  [filtrar32] is the same line with
    the rounding of binary32. *)
Definition filtrar (v filtro : Q) : Q :=
  (alpha * v + (1 - alpha) * filtro)%Q.

(** The [float &filtro] argument of [lerFiltradoComGanho]: the global it
    refers to. *)
Inductive RefFiltro : Type := ref_filtroVmin | ref_filtroVmax.

Definition deref (r : RefFiltro) : Estado -> Q :=
  match r with ref_filtroVmin => filtroVmin | ref_filtroVmax => filtroVmax end.

Definition assign (r : RefFiltro) : Q -> Estado -> Estado :=
  match r with
  | ref_filtroVmin => set_filtroVmin
  | ref_filtroVmax => set_filtroVmax
  end.

(** What one iteration of [loop] reads from the buttons and the clock. *)
Record Entrada : Type := mkEntrada {
  leituraBotao : bool;
  agoraBotao : Z;
  leituraBotaoCalib : bool;
  agoraBotaoCalib : Z;
  agoraLeitura : Z
}.

Section Placa.

(** [sqrt] of [math.h]. *)
Variable sqrtf : Q -> Q.
(** [adc pino k]: the result of the conversion on [pino] when [k]
    conversions were made before it. *)
Variable adc : Pino -> Z -> Z.

Definition analogRead (pino : Pino) : M Z :=
  k <- gets leiturasADC ;;
  upd (set_leiturasADC (k + 1)) ;;
  ret (adc pino k).

(** ** Reading the sensors *)

Definition amostras : nat := 250.

(** First loop of [lerTensaoAC_RMS_comOffset], [n] iterations left. *)
Fixpoint somaLeituras (n : nat) (pino : Pino) (somaLeit : Z) : M Z :=
  match n with
  | O => ret somaLeit
  | S n' =>
      r <- analogRead pino ;;
      somaLeituras n' pino (wrap_long (somaLeit + r))
  end.

(** Second loop of [lerTensaoAC_RMS_comOffset], [n] iterations left. *)
Fixpoint somaQuadrados (n : nat) (pino : Pino) (offset : Q) (somaQ : Z)
  : M Z :=
  match n with
  | O => ret somaQ
  | S n' =>
      r <- analogRead pino ;;
      let c := (inject_Z r - offset)%Q in
      somaQuadrados n' pino offset (wrap_long (somaQ + trunc_long (c * c)%Q))
  end.

Definition lerTensaoAC_RMS_comOffset (pino : Pino) : M Q :=
  somaLeit <- somaLeituras amostras pino 0 ;;
  let offset := (inject_Z somaLeit / inject_Z (Z.of_nat amostras))%Q in
  somaQ <- somaQuadrados amostras pino offset 0 ;;
  let rms_counts :=
    sqrtf (inject_Z somaQ / inject_Z (Z.of_nat amostras))%Q in
  let tensaoSensor := ((rms_counts * (25 # 10)) / 512)%Q in
  ret (tensaoSensor * calibrationFactor)%Q.

Definition lerFiltradoComGanho (pino : Pino) (filtro : RefFiltro)
    (ganhoCanal : Q) : M Q :=
  lido <- lerTensaoAC_RMS_comOffset pino ;;
  let v := (lido * ganhoCanal)%Q in
  f <- gets (deref filtro) ;;
  upd (assign filtro (filtrar v f)) ;;
  gets (deref filtro).

(** ** Automatic calibration *)

(** The accumulation loop of [autoCalibrar], [n] iterations left. *)
Fixpoint acumularCalib (n : nat) (vmin vmax : Q) : M (Q * Q) :=
  match n with
  | O => ret (vmin, vmax)
  | S n' =>
      a <- lerTensaoAC_RMS_comOffset sensorMin ;;
      b <- lerTensaoAC_RMS_comOffset sensorMax ;;
      acumularCalib n' (vmin + a)%Q (vmax + b)%Q
  end.

(** The gain update of [autoCalibrar] from the two averages. *)
Definition ajustarGanhos (vmin vmax : Q) : M unit :=
  let alvo := ((vmin + vmax) / 2)%Q in
  (if Qgt_bool vmin (1 # 10) then upd (set_ganhoMin (alvo / vmin)%Q)
   else ret tt) ;;
  (if Qgt_bool vmax (1 # 10) then upd (set_ganhoMax (alvo / vmax)%Q)
   else ret tt).

(** The two averages [vmin], [vmax] that [autoCalibrar] measures. *)
Definition mediasCalib : M (Q * Q) :=
  somas <- acumularCalib 8 0 0 ;;
  ret ((fst somas / 8)%Q, (snd somas / 8)%Q).

(** The 2 s busy wait on [millis()] changes no variable and is left out. *)
Definition autoCalibrar : M unit :=
  println MsgIniciandoCalib ;;
  medias <- mediasCalib ;;
  ajustarGanhos (fst medias) (snd medias) ;;
  gmin <- gets ganhoMin ;;
  gmax <- gets ganhoMax ;;
  println (MsgAutocalibrado gmin gmax).

(** [leitura] is the level [digitalRead(botao)] returned. *)
Definition autoCalibrarSeBotaoPressionado (leitura : bool) : M unit :=
  if eqb leitura LOW then autoCalibrar else ret tt.

(** ** The same computations as functions of the ADC position

    [k] is the number of conversions made before the computation starts;
    one call of [lerTensaoAC_RMS_comOffset] makes 500 conversions. *)

Fixpoint somaLeiturasDe (n : nat) (pino : Pino) (k : Z) (somaLeit : Z) : Z :=
  match n with
  | O => somaLeit
  | S n' => somaLeiturasDe n' pino (k + 1) (wrap_long (somaLeit + adc pino k))
  end.

Fixpoint somaQuadradosDe (n : nat) (pino : Pino) (offset : Q) (k : Z)
    (somaQ : Z) : Z :=
  match n with
  | O => somaQ
  | S n' =>
      let c := (inject_Z (adc pino k) - offset)%Q in
      somaQuadradosDe n' pino offset (k + 1)
        (wrap_long (somaQ + trunc_long (c * c)%Q))
  end.

Definition offsetDe (pino : Pino) (k : Z) : Q :=
  (inject_Z (somaLeiturasDe amostras pino k 0)
   / inject_Z (Z.of_nat amostras))%Q.

Definition tensaoRMS (pino : Pino) (k : Z) : Q :=
  let somaQ :=
    somaQuadradosDe amostras pino (offsetDe pino k) (k + 250) 0 in
  let rms_counts :=
    sqrtf (inject_Z somaQ / inject_Z (Z.of_nat amostras))%Q in
  (((rms_counts * (25 # 10)) / 512) * calibrationFactor)%Q.

Fixpoint acumularCalibDe (n : nat) (k : Z) (vmin vmax : Q) : Q * Q :=
  match n with
  | O => (vmin, vmax)
  | S n' =>
      acumularCalibDe n' (k + 1000)
        (vmin + tensaoRMS sensorMin k)%Q
        (vmax + tensaoRMS sensorMax (k + 500))%Q
  end.

Definition mediasCalibDe (k : Z) : Q * Q :=
  ((fst (acumularCalibDe 8 k 0 0) / 8)%Q,
   (snd (acumularCalibDe 8 k 0 0) / 8)%Q).

(** ** Setup and main loop *)

Definition setup (leitura : bool) : M unit :=
  println MsgBanner ;;
  digitalWrite bombaPin LOW ;;
  digitalWrite ledModo LOW ;;
  digitalWrite Bomba LOW ;;
  autoCalibrarSeBotaoPressionado leitura.

(** First stanza of [loop]: toggle the automatic mode. *)
Definition alternarModo (e : Entrada) : M unit :=
  mudou <- verificarBotao (leituraBotao e) (agoraBotao e) ;;
  estavel <- gets estadoBotaoEstavel ;;
  if mudou && eqb estavel LOW then
    modo <- gets modoAutomatico ;;
    upd (set_modoAutomatico (negb modo)) ;;
    modo <- gets modoAutomatico ;;
    digitalWrite ledModo (if modo then HIGH else LOW) ;;
    if modo then println MsgSistemaLigado
    else (println MsgSistemaPronto ;; desligarBomba)
  else ret tt.

(** Second stanza of [loop]: the manual calibration button. *)
Definition calibracaoManual (e : Entrada) : M unit :=
  mudou <- verificarBotaoCalib (leituraBotaoCalib e) (agoraBotaoCalib e) ;;
  estavel <- gets estadoBotaoCalibEstavel ;;
  if mudou && eqb estavel LOW then autoCalibrar else ret tt.

(** Third stanza of [loop]: sampling, state machine and pump, every
    300 ms while the automatic mode is on.  [tempoDecorrido] is called
    only when [modoAutomatico] holds, as [&&] evaluates it. *)
Definition cicloAutomatico (e : Entrada) : M unit :=
  modo <- gets modoAutomatico ;;
  decorrido <- (if modo then tempoDecorrido 300 (agoraLeitura e)
                else ret false) ;;
  if modo && decorrido then
    gmin <- gets ganhoMin ;;
    tensaoMin <- lerFiltradoComGanho sensorMin ref_filtroVmin gmin ;;
    gmax <- gets ganhoMax ;;
    tensaoMax <- lerFiltradoComGanho sensorMax ref_filtroVmax gmax ;;
    atualizarEstado tensaoMin tensaoMax ;;
    controlarBomba ;;
    fmin <- gets filtroVmin ;;
    fmax <- gets filtroVmax ;;
    println (MsgPlotter fmin fmax)
  else ret tt.

Definition loop (e : Entrada) : M unit :=
  alternarModo e ;;
  calibracaoManual e ;;
  cicloAutomatico e.

(** The sketch from power-on: [setup], then one [loop] per entry. *)
Definition executar (leituraSetup : bool) (es : list Entrada) : Estado :=
  fold_left (fun s e => exec (loop e) s) es
    (exec (setup leituraSetup) estadoInicial).

End Placa.

(** The sampling loops run thousands of conversions: keep them folded
    when terms are compared. *)
Strategy 1000 [somaLeituras somaQuadrados lerTensaoAC_RMS_comOffset
               acumularCalib mediasCalib somaLeiturasDe somaQuadradosDe
               offsetDe tensaoRMS acumularCalibDe mediasCalibDe].

(** ** Definitions used to state the specification *)

(** Classification of a filtered voltage against the single threshold. *)
Definition molhado (tensao : Q) : bool := Qle_bool tensao LIMITE_MOLHADO.

(** The pump decision of the policy: on for a full or draining well. *)
Definition bombaDeveLigar (e : EstadoPoco) : bool :=
  match e with
  | POCO_CHEIO | POCO_DESCENDO => true
  | POCO_VAZIO | POCO_ENCHENDO | SENSOR_FALHA | FALHA_ELETRICA => false
  end.

(** The two pump outputs mirror the flag [bombaLigada]. *)
Definition coerente (s : Estado) : Prop :=
  saida_bombaPin s = bombaLigada s /\ saida_Bomba s = bombaLigada s.

(** The transition table as the specification lists it; a pair that is
    not listed keeps the current state. *)
Definition tabela (e : EstadoPoco) (minWet maxWet : bool) : EstadoPoco :=
  match e, minWet, maxWet with
  | POCO_VAZIO, true, true => POCO_CHEIO
  | POCO_VAZIO, true, false => POCO_ENCHENDO
  | POCO_ENCHENDO, true, true => POCO_CHEIO
  | POCO_ENCHENDO, false, false => POCO_VAZIO
  | POCO_CHEIO, true, false => POCO_DESCENDO
  | POCO_CHEIO, false, false => POCO_VAZIO
  | POCO_DESCENDO, false, false => POCO_VAZIO
  | POCO_DESCENDO, true, true => POCO_CHEIO
  | SENSOR_FALHA, minWet, maxWet =>
      if minWet || negb maxWet then POCO_VAZIO else SENSOR_FALHA
  | e, _, _ => e
  end.

(** A run of state-machine steps, one pair of filtered voltages each. *)
Definition passos (vs : list (Q * Q)) (s : Estado) : Estado :=
  fold_left (fun s v => exec (atualizarEstado (fst v) (snd v)) s) vs s.

(** A state in which the pump runs on a full well. *)
Definition estadoBombeando : Estado :=
  set_saida_Bomba HIGH
    (set_saida_bombaPin HIGH
       (set_bombaLigada true (set_estadoAtual POCO_CHEIO estadoInicial))).

(** *** The debouncer of the specification *)

Record Debouncer : Type := mkDebouncer {
  stableLevel : bool;
  lastRawLevel : bool;
  lastChangeTimestamp : Z
}.

(** [poll] as the specification words it, with [now - lastChangeTimestamp]
    taken on the 32-bit clock. *)
Definition poll (d : Debouncer) (rawLevel : bool) (now : Z)
  : Debouncer * bool :=
  let d1 :=
    if negb (eqb rawLevel (lastRawLevel d))
    then mkDebouncer (stableLevel d) rawLevel now
    else d in
  if (sub_ul now (lastChangeTimestamp d1) >? tempoDebounce)
     && negb (eqb rawLevel (stableLevel d1))
  then (mkDebouncer rawLevel (lastRawLevel d1) (lastChangeTimestamp d1), true)
  else (d1, false).

Fixpoint pollSeq (d : Debouncer) (ps : list (bool * Z))
  : Debouncer * list bool :=
  match ps with
  | [] => (d, [])
  | (raw, now) :: ps' =>
      let r := poll d raw now in
      let rs := pollSeq (fst r) ps' in
      (fst rs, snd r :: snd rs)
  end.

(** The debouncer state held in the globals of each button. *)
Definition botaoModo (s : Estado) : Debouncer :=
  mkDebouncer (estadoBotaoEstavel s) (ultimoEstadoLido s) (ultimoTempoTroca s).

Definition botaoCalibracao (s : Estado) : Debouncer :=
  mkDebouncer (estadoBotaoCalibEstavel s) (ultimoEstadoCalibLido s)
    (ultimoTempoCalib s).

(** A polled input bounces: at every poll made after the first change of
    the raw level, at most [tempoDebounce] time units have passed since the
    latest change.  [ultimo] is the level of the previous poll and [troca]
    the time of the latest change, if there was one. *)
Fixpoint rapido (ultimo : bool) (troca : option Z) (ps : list (bool * Z))
  : bool :=
  match ps with
  | [] => true
  | (raw, now) :: ps' =>
      let troca' := if eqb raw ultimo then troca else Some now in
      match troca' with
      | None => true
      | Some c => sub_ul now c <=? tempoDebounce
      end && rapido raw troca' ps'
  end.

(** The polls of a level held from time [t0] on, seen at times [ts]. *)
Definition mantido (l : bool) (t0 : Z) (ts : list Z) : list (bool * Z) :=
  (l, t0) :: map (pair l) ts.

Definition guardarBotaoModo (d : Debouncer) (s : Estado) : Estado :=
  set_estadoBotaoEstavel (stableLevel d)
    (set_ultimoEstadoLido (lastRawLevel d)
       (set_ultimoTempoTroca (lastChangeTimestamp d) s)).

Definition guardarBotaoCalibracao (d : Debouncer) (s : Estado) : Estado :=
  set_estadoBotaoCalibEstavel (stableLevel d)
    (set_ultimoEstadoCalibLido (lastRawLevel d)
       (set_ultimoTempoCalib (lastChangeTimestamp d) s)).

(** The ghost [troca] of [rapido] agrees with the debouncer. *)
Definition acompanha (d : Debouncer) (troca : option Z) : Prop :=
  match troca with
  | None => lastRawLevel d = stableLevel d
  | Some c => lastChangeTimestamp d = c
  end.


(** The gain of a channel after a calibration that measured the averages
    [vmin], [vmax]: [medido] is the channel's own average and [anterior]
    its gain before. *)
Definition ganhoCalibrado (vmin vmax medido anterior : Q) : Q :=
  if Qgt_bool medido (1 # 10) then ((vmin + vmax) / 2 / medido)%Q
  else anterior.

(** The filter state after [n] updates with the same input [v], started
    at [s]. *)
Fixpoint filtrarN (n : nat) (v s : Q) : Q :=
  match n with
  | O => s
  | S n' => filtrar v (filtrarN n' v s)
  end.

(** *** Invariants of actions *)

(** The action [c] keeps the property [P] of the state. *)
Definition mantem (P : Estado -> Prop) {A} (c : M A) : Prop :=
  forall s, P s -> P (exec c s).

Definition ganhosPositivos (s : Estado) : Prop :=
  (0 < ganhoMin s)%Q /\ (0 < ganhoMax s)%Q.

(** The calibration button commits a press in this iteration. *)
Definition calibracaoPedida (s : Estado) (e : Entrada) : bool :=
  let p := poll (botaoCalibracao s) (leituraBotaoCalib e) (agoraBotaoCalib e) in
  snd p && eqb (stableLevel (fst p)) LOW.

(** The mode button commits a press in this iteration. *)
Definition modoAlternado (s : Estado) (e : Entrada) : bool :=
  let p := poll (botaoModo s) (leituraBotao e) (agoraBotao e) in
  snd p && eqb (stableLevel (fst p)) LOW.

(** One step of the state machine as a function: the fault check, then
    the table. *)
Definition proximoEstado (e : EstadoPoco) (minWet maxWet : bool)
  : EstadoPoco :=
  if negb minWet && maxWet then SENSOR_FALHA else tabela e minWet maxWet.

(** The pump flag and both pump outputs set to the same level. *)
Definition acionarBomba (v : bool) (s : Estado) : Estado :=
  set_saida_Bomba v (set_saida_bombaPin v (set_bombaLigada v s)).

Definition naoEletrica (s : Estado) : Prop :=
  estadoAtual s <> FALHA_ELETRICA.

(** A square root that computes, for running the sketch on examples. *)
Definition sqrtInteira (x : Q) : Q := inject_Z (Z.sqrt (Qfloor x)).

(** Two sensors that read a small ripple around mid-scale. *)
Definition adcExemplo (p : Pino) (k : Z) : Z :=
  match p with
  | sensorMin => 500 + k mod 20
  | _ => 505 + k mod 9
  end.

(** *** Startup *)

(** The calibration procedure ran during [setup]: its opening line is in
    the serial log. *)
Definition calibrouNoSetup (s : Estado) : bool :=
  existsb (fun m => match m with MsgIniciandoCalib => true | _ => false end)
    (serial s).

(** The mode input is held active from time [ini] up to, not including,
    time [fim]. *)
Definition mantidoAtivo (sinal : Z -> bool) (ini fim : Z) : Prop :=
  forall t, ini <= t < fim -> sinal t = LOW.

(** A short press: active from 90 ms to 110 ms after power-on only. *)
Definition toqueBreve (t : Z) : bool := negb ((90 <=? t) && (t <=? 110)).

(** Length of the grace window, in ms. *)
Definition JANELA : Z := 2000.

(** *** Example runs *)

(** The calibration button goes down at 100 ms and is still down at
    151 ms; the mode button is never touched. *)
Definition entradasCalibracao : list Entrada :=
  [mkEntrada HIGH 100 LOW 100 100; mkEntrada HIGH 151 LOW 151 151].

(** A press of the mode button that turns the automatic mode on, then a
    sampling cycle. *)
Definition entradasAutomatico : list Entrada :=
  [mkEntrada LOW 100 HIGH 100 100; mkEntrada LOW 151 HIGH 151 151;
   mkEntrada LOW 500 HIGH 500 500].

(** Closes [P s -> P (set_... s)] when [P] does not read the fields
    assigned. *)
Ltac campo_alheio :=
  intros;
  repeat match goal with r : RefFiltro |- _ => destruct r end;
  assumption.

(** ** Further definitions: sums, log filters and invariants *)

(** Sum of the [n] conversions on [pino] from position [k] on, as a
    mathematical integer. *)
Fixpoint somaADC (adc : Pino -> Z -> Z) (pino : Pino) (k : Z) (n : nat) : Z :=
  match n with
  | O => 0
  | S n' => adc pino k + somaADC adc pino (k + 1) n'
  end.

Definition ehTransicao (m : Mensagem) : bool :=
  match m with MsgTransicao _ _ => true | _ => false end.

Definition ehPlotter (m : Mensagem) : bool :=
  match m with MsgPlotter _ _ => true | _ => false end.

(** A state that is neither of the two fault states. *)
Definition ehNivel (e : EstadoPoco) : bool :=
  match e with
  | SENSOR_FALHA | FALHA_ELETRICA => false
  | _ => true
  end.

(** The sampling stanza of [loop] runs in this iteration. *)
Definition cicloRoda (s : Estado) (e : Entrada) : bool :=
  modoAutomatico s && (300 <=? sub_ul (agoraLeitura e) (ultimaLeitura s)).

(** The state on which the sampling stanza runs the state machine: the
    timer stamped and both filters updated with reading times gain. *)
Definition aposLeituras (sqrtf : Q -> Q) (adc : Pino -> Z -> Z)
    (e : Entrada) (s : Estado) : Estado :=
  let k := leiturasADC s in
  set_filtroVmax
    (filtrar (tensaoRMS sqrtf adc sensorMax (k + 500) * ganhoMax s)
       (filtroVmax s))
    (set_filtroVmin
       (filtrar (tensaoRMS sqrtf adc sensorMin k * ganhoMin s)
          (filtroVmin s))
       (set_leiturasADC (k + 1000)
          (set_ultimaLeitura (agoraLeitura e) s))).

(** The automatic-mode indicator mirrors [modoAutomatico]. *)
Definition ledEspelhaModo (s : Estado) : Prop :=
  saida_ledModo s = modoAutomatico s.

(** With the automatic mode off the pump is off. *)
Definition paradaSegura (s : Estado) : Prop :=
  modoAutomatico s = false -> bombaLigada s = false.

(** A running pump has a full or draining well. *)
Definition bombaSoComAgua (s : Estado) : Prop :=
  bombaLigada s = true -> bombaDeveLigar (estadoAtual s) = true.

Definition filtrosNaoNegativos (s : Estado) : Prop :=
  (0 <= filtroVmin s)%Q /\ (0 <= filtroVmax s)%Q.

(** A clock reading just before the 32-bit roll-over. *)
Definition estadoAntesDoRollover : Estado :=
  set_ultimaLeitura (2 ^ 32 - 100) estadoInicial.

(** An ADC stuck at one level on every pin. *)
Definition adcConstante (p : Pino) (k : Z) : Z := 512.

(** [n] stores of a value into a [long]. *)
Fixpoint wrap_long_n (n : nat) (z : Z) : Z :=
  match n with
  | O => z
  | S n' => wrap_long_n n' (wrap_long z)
  end.

(** A press of the mode button is confirmed in this iteration: the input
    reads active, it already read active at the previous poll, the stable
    level is still inactive, and more than [tempoDebounce] has passed
    since the raw level last changed. *)
Definition pressaoConfirmada (s : Estado) (e : Entrada) : bool :=
  negb (leituraBotao e) && negb (ultimoEstadoLido s)
  && estadoBotaoEstavel s
  && (tempoDebounce <? sub_ul (agoraBotao e) (ultimoTempoTroca s)).

(** The serial log grew, by lines that include no plotter line. *)
Definition semPlotter (s s' : Estado) : Prop :=
  exists msgs, serial s' = serial s ++ msgs /\ filter ehPlotter msgs = [].

(** ** Binary32: the float arithmetic of the sketch, bit for bit

    [float] is IEEE 754 binary32: 24 bits of precision, exponents up to
    128, every operation rounded to nearest, ties to even.  The
    operations are those of the Standard Library's [SpecFloat] at that
    format. *)

Definition prec32 : Z := 24.
Definition emax32 : Z := 128.

(** Exponent of the last place of a number of binade [e]. *)
Definition fexp32 (e : Z) : Z := Z.max (e - 24) (-149).

(** What [binary_round_aux] builds from a rounded mantissa. *)
Definition montar (sx : bool) (m e : Z) : spec_float :=
  match m with
  | Z0 => S754_zero sx
  | Zpos p => if e <=? 104 then S754_finite sx p e else S754_infinity sx
  | Zneg _ => S754_nan
  end.

Definition pow2 (e : Z) : Q := (2 ^ e)%Q.

Definition sinalQ (s : bool) : Q := if s then (-1)%Q else 1%Q.

(** The number a binary32 datum stands for; 0 for infinities and NaN. *)
Definition B2Q (x : spec_float) : Q :=
  match x with
  | S754_finite s m e => (sinalQ s * (inject_Z (Zpos m) * pow2 e))%Q
  | _ => 0%Q
  end.

(** A zero, or a mantissa with an exponent of the format (at most
    [emax32 - prec32]): every finite binary32 number is one. *)
Definition finito (x : spec_float) : bool :=
  match x with
  | S754_zero _ => true
  | S754_finite _ _ e => e <=? 104
  | _ => false
  end.

Definition expoente (x : spec_float) : Z :=
  match x with
  | S754_finite _ _ e => e
  | _ => -149
  end.

(** Neither an infinity nor a NaN. *)
Definition numero (x : spec_float) : bool :=
  match x with
  | S754_zero _ | S754_finite _ _ _ => true
  | _ => false
  end.

(** Neither a zero nor a NaN. *)
Definition naoNulo (x : spec_float) : bool :=
  match x with
  | S754_finite _ _ _ | S754_infinity _ => true
  | _ => false
  end.

(** [(float) z] for an integer [z]. *)
Definition f32_of_Z (z : Z) : spec_float :=
  binary_normalize prec32 emax32 z 0 false.

(** [const float alpha = 0.2]: the binary32 number nearest to 1/5. *)
Definition alpha32 : spec_float :=
  SFdiv prec32 emax32 (f32_of_Z 2) (f32_of_Z 10).

(** [filtro = alpha * v + (1 - alpha) * filtro] of [lerFiltradoComGanho],
    every operation rounded to binary32. *)
Definition filtrar32 (v filtro : spec_float) : spec_float :=
  SFadd prec32 emax32
    (SFmul prec32 emax32 alpha32 v)
    (SFmul prec32 emax32 (SFsub prec32 emax32 (f32_of_Z 1) alpha32) filtro).

(** The binary32 filter state after [n] updates with the same input
    [v], started at [s]. *)
Fixpoint filtrarN32 (n : nat) (v s : spec_float) : spec_float :=
  match n with
  | O => s
  | S n' => filtrar32 v (filtrarN32 n' v s)
  end.

(** The distance allowed between the binary32 filter and the exact one,
    for inputs of magnitude at most [M]. *)
Definition margem (M : Q) : Q := (pow2 (-20) * M + pow2 (-145))%Q.

(** The binary32 number 15913918 * 2^-15, printed 485.654236. *)
Definition leituraExemplo32 : spec_float := S754_finite false 15913918 (-15).

(** [mapFloat] of the sketch (declared, never called):
    [(x - in_min) * (out_max - out_min) / (in_max - in_min) + out_min]. *)
Definition mapFloat (x in_min in_max out_min out_max : spec_float)
    : spec_float :=
  SFadd prec32 emax32
    (SFdiv prec32 emax32
       (SFmul prec32 emax32 (SFsub prec32 emax32 x in_min)
          (SFsub prec32 emax32 out_max out_min))
       (SFsub prec32 emax32 in_max in_min))
    out_min.

(** * Verification *)

(** ** State machine and pump policy *)

Lemma molhado_true : molhado 0 = true.
Proof. reflexivity. Qed.

Lemma molhado_false : molhado 5 = false.
Proof. reflexivity. Qed.

(** Every wet pair is the classification of some pair of voltages. *)
Lemma molhado_sobre (emin emax : bool) :
  exists tmin tmax, molhado tmin = emin /\ molhado tmax = emax.
Proof.
  exists (if emin then 0%Q else 5%Q), (if emax then 0%Q else 5%Q).
  destruct emin, emax; split; reflexivity.
Qed.

Lemma controlarBomba_flag (s : Estado) :
  bombaLigada (exec controlarBomba s) = bombaDeveLigar (estadoAtual s)
  /\ estadoAtual (exec controlarBomba s) = estadoAtual s.
Proof.
  destruct s as [? ? ? ? ? ? ? lig atual ? ? ? ? ? ? ? ? ? ? ?].
  destruct atual, lig; split; reflexivity.
Qed.

Lemma controlarBomba_coerente (s : Estado) :
  coerente s -> coerente (exec controlarBomba s).
Proof.
  destruct s as [? ? ? ? ? ? ? lig atual ? ? ? ? ? ? ? ? ? ? ?].
  unfold coerente; cbn; intros [-> ->].
  destruct atual, lig; split; reflexivity.
Qed.

Lemma atualizarEstado_bomba (s : Estado) (tmin tmax : Q) :
  let s' := exec (atualizarEstado tmin tmax) s in
  bombaLigada s' = bombaLigada s /\ saida_bombaPin s' = saida_bombaPin s
  /\ saida_Bomba s' = saida_Bomba s.
Proof.
  destruct s as [? ? ? ? ? ? ? lig atual ? ? ? ? ? ? ? ? ? ? ?].
  unfold exec, atualizarEstado; cbn.
  destruct atual, (Qle_bool tmin LIMITE_MOLHADO),
    (Qle_bool tmax LIMITE_MOLHADO); repeat split; reflexivity.
Qed.

Lemma run_bind {A B} (a : M A) (f : A -> M B) (s : Estado) :
  runState (bind a f) s
  = runState (f (fst (runState a s))) (snd (runState a s)).
Proof. cbn. destruct (runState a s); reflexivity. Qed.

Lemma exec_seq {A B} (a : M A) (b : M B) (s : Estado) :
  exec (a ;; b) s = exec b (exec a s).
Proof.
  unfold exec; cbn. destruct (runState a s); reflexivity.
Qed.

(** C2. With the lower sensor dry and the upper one wet the next state is
    SENSOR_FALHA from every current state; the function returns right
    after reporting the fault: nothing of the transition table runs, no
    transition line is written, and only [estadoAnterior], [estadoAtual]
    and the serial log change. *)
Theorem falha_sensor_domina (s : Estado) (tmin tmax : Q) :
  molhado tmin = false -> molhado tmax = true ->
  let s' := exec (atualizarEstado tmin tmax) s in
  estadoAtual s' = SENSOR_FALHA
  /\ s' = set_serial (serial s ++ [MsgTensoes tmin tmax; MsgFalhaDetectada])
            (set_estadoAtual SENSOR_FALHA
               (set_estadoAnterior (estadoAtual s) s)).
Proof.
  unfold molhado; intros Hmin Hmax.
  destruct s as [? ? ? ? ? ? ? lig atual ? ? ? ? ? ? ? ? ? ? log].
  unfold exec, atualizarEstado; cbn.
  rewrite Hmin, Hmax; cbn.
  rewrite <- app_assoc. split; reflexivity.
Qed.

Lemma falha_sensor_domina_witness :
  estadoAtual (exec (atualizarEstado 5 1)
                 (set_estadoAtual POCO_DESCENDO estadoInicial))
  = SENSOR_FALHA.
Proof.
  apply (falha_sensor_domina (set_estadoAtual POCO_DESCENDO estadoInicial) 5 1);
    reflexivity.
Defined.

(** C3. Outside the fault input (dry, wet) one step returns the next state
    of the specification's table, and keeps the current state for every
    pair the table does not list. *)
Theorem atualizarEstado_tabela (s : Estado) (tmin tmax : Q) :
  negb (molhado tmin) && molhado tmax = false ->
  estadoAtual (exec (atualizarEstado tmin tmax) s)
  = tabela (estadoAtual s) (molhado tmin) (molhado tmax).
Proof.
  unfold molhado.
  destruct s as [? ? ? ? ? ? ? lig atual ? ? ? ? ? ? ? ? ? ? log].
  unfold exec, atualizarEstado; cbn.
  destruct atual, (Qle_bool tmin LIMITE_MOLHADO),
    (Qle_bool tmax LIMITE_MOLHADO); cbn; intros H;
    try discriminate H; reflexivity.
Qed.

(** Scenario D of the specification: recovery from the fault goes to
    POCO_VAZIO even when both sensors are wet. *)
Lemma atualizarEstado_tabela_witness :
  estadoAtual (exec (atualizarEstado 1 1)
                 (set_estadoAtual SENSOR_FALHA estadoInicial))
  = POCO_VAZIO.
Proof.
  apply (atualizarEstado_tabela (set_estadoAtual SENSOR_FALHA estadoInicial)
           1 1).
  reflexivity.
Defined.

(** The nine rows of the table, read off [tabela]. *)
Lemma tabela_linhas :
  tabela POCO_VAZIO true true = POCO_CHEIO
  /\ tabela POCO_VAZIO true false = POCO_ENCHENDO
  /\ tabela POCO_ENCHENDO true true = POCO_CHEIO
  /\ tabela POCO_ENCHENDO false false = POCO_VAZIO
  /\ tabela POCO_CHEIO true false = POCO_DESCENDO
  /\ tabela POCO_CHEIO false false = POCO_VAZIO
  /\ tabela POCO_DESCENDO false false = POCO_VAZIO
  /\ tabela POCO_DESCENDO true true = POCO_CHEIO
  /\ (forall a b, a || negb b = true -> tabela SENSOR_FALHA a b = POCO_VAZIO)
  /\ tabela POCO_VAZIO false false = POCO_VAZIO
  /\ tabela POCO_ENCHENDO true false = POCO_ENCHENDO
  /\ tabela POCO_CHEIO true true = POCO_CHEIO
  /\ tabela POCO_DESCENDO true false = POCO_DESCENDO
  /\ (forall a b, tabela FALHA_ELETRICA a b = FALHA_ELETRICA).
Proof.
  repeat match goal with |- _ /\ _ => split end; try reflexivity.
  intros a b H. unfold tabela. rewrite H. reflexivity.
Qed.

Lemma atualizarEstado_nao_produz_eletrica (s : Estado) (tmin tmax : Q) :
  estadoAtual (exec (atualizarEstado tmin tmax) s) = FALHA_ELETRICA ->
  estadoAtual s = FALHA_ELETRICA.
Proof.
  destruct s as [? ? ? ? ? ? ? lig atual ? ? ? ? ? ? ? ? ? ? log].
  unfold exec, atualizarEstado; cbn.
  destruct atual, (Qle_bool tmin LIMITE_MOLHADO),
    (Qle_bool tmax LIMITE_MOLHADO); cbn; intros H;
    try discriminate H; reflexivity.
Qed.

Lemma passos_nao_eletrica (vs : list (Q * Q)) :
  forall s, estadoAtual s <> FALHA_ELETRICA ->
            estadoAtual (passos vs s) <> FALHA_ELETRICA.
Proof.
  induction vs as [|v vs IH]; intros s Hs; cbn.
  - exact Hs.
  - apply IH. intros H.
    apply Hs, (atualizarEstado_nao_produz_eletrica s (fst v) (snd v)), H.
Qed.

(** ** Debounce *)

Section Debounce.

Lemma gtb_false (a b : Z) : a <= b -> (a >? b) = false.
Proof. intros H. rewrite Z.gtb_ltb. apply Z.ltb_ge. exact H. Qed.

Lemma gtb_true (a b : Z) : b < a -> (a >? b) = true.
Proof. intros H. rewrite Z.gtb_ltb. apply Z.ltb_lt. exact H. Qed.

Lemma sub_ul_diag (a : Z) : sub_ul a a = 0.
Proof. unfold sub_ul. rewrite Z.sub_diag. reflexivity. Qed.

Lemma poll_estavel_igual (d : Debouncer) (now : Z) :
  lastRawLevel d = stableLevel d ->
  poll d (stableLevel d) now = (d, false).
Proof.
  intros H. unfold poll. rewrite H, eqb_reflx. cbn.
  rewrite eqb_reflx, andb_false_r. reflexivity.
Qed.

Lemma pollSeq_rapido (ps : list (bool * Z)) :
  forall d troca,
    acompanha d troca ->
    rapido (lastRawLevel d) troca ps = true ->
    stableLevel (fst (pollSeq d ps)) = stableLevel d
    /\ snd (pollSeq d ps) = repeat false (length ps).
Proof.
  induction ps as [|[raw now] ps IH]; intros d troca Hd Hr.
  - split; reflexivity.
  - cbn [rapido] in Hr. apply andb_true_iff in Hr. destruct Hr as [H1 H2].
    cbn [pollSeq length repeat fst snd].
    assert (Hp : exists d1,
               poll d raw now = (d1, false)
               /\ stableLevel d1 = stableLevel d
               /\ lastRawLevel d1 = raw
               /\ acompanha d1 (if eqb raw (lastRawLevel d)
                                then troca else Some now)).
    { unfold poll.
      destruct (eqb raw (lastRawLevel d)) eqn:E; cbn [negb].
      - apply eqb_prop in E.
        destruct troca as [c|]; cbn [acompanha] in *.
        + rewrite Hd.
          apply Z.leb_le in H1.
          rewrite (gtb_false _ _ H1).
          cbn. exists d. repeat split; congruence.
        + assert (E2 : eqb raw (stableLevel d) = true)
            by (rewrite <- Hd, E; apply eqb_reflx).
          rewrite E2, andb_false_r. exists d. repeat split; congruence.
      - cbn [lastChangeTimestamp stableLevel].
        rewrite sub_ul_diag. cbn. eexists; repeat split. }
    destruct Hp as (d1 & Hp & Hs & Hl & Ha).
    rewrite Hp; cbn [fst snd].
    subst raw.
    destruct (IH d1 _ Ha H2) as [IH1 IH2].
    rewrite IH1, IH2, Hs. split; reflexivity.
Qed.

(** Polls of the stable level itself report nothing. *)
Lemma pollSeq_estavel (l : bool) (ts : list Z) :
  forall d, stableLevel d = l -> lastRawLevel d = l ->
    fst (pollSeq d (map (pair l) ts)) = d
    /\ snd (pollSeq d (map (pair l) ts)) = repeat false (length ts).
Proof.
  induction ts as [|t ts IH]; intros d Hs Hl.
  - split; reflexivity.
  - cbn [map pollSeq length repeat fst snd].
    assert (Hp : poll d l t = (d, false))
      by (rewrite <- Hs; apply poll_estavel_igual; congruence).
    rewrite Hp. cbn [fst snd].
    destruct (IH d Hs Hl) as [-> ->]. split; reflexivity.
Qed.

(** A pending level, polled while the window has not elapsed. *)
Lemma pollSeq_pendente (l : bool) (pre : list Z) :
  forall d resto,
    lastRawLevel d = l ->
    Forall (fun x => sub_ul x (lastChangeTimestamp d) <= tempoDebounce) pre ->
    pollSeq d (map (pair l) pre ++ resto)
    = (fst (pollSeq d resto),
       repeat false (length pre) ++ snd (pollSeq d resto)).
Proof.
  induction pre as [|x pre IH]; intros d resto Hl Hpre.
  - cbn. destruct (pollSeq d resto); reflexivity.
  - inversion Hpre as [|? ? Hx Hpre']; subst.
    cbn [map app pollSeq length repeat].
    assert (Hp : poll d (lastRawLevel d) x = (d, false)).
    { unfold poll. rewrite eqb_reflx. cbn [negb].
      rewrite (gtb_false _ _ Hx). reflexivity. }
    rewrite Hp; cbn [fst snd].
    rewrite (IH d resto eq_refl Hpre'). reflexivity.
Qed.

Lemma count_occ_repeat_false (n : nat) :
  count_occ bool_dec (repeat false n) true = 0%nat.
Proof. induction n; cbn; auto. Qed.

Lemma pollSeq_mantido (d : Debouncer) (l : bool) (t0 t : Z)
      (pre post : list Z) :
  lastRawLevel d = stableLevel d ->
  l <> stableLevel d ->
  Forall (fun x => sub_ul x t0 <= tempoDebounce) pre ->
  tempoDebounce < sub_ul t t0 ->
  snd (pollSeq d (mantido l t0 (pre ++ t :: post)))
  = repeat false (S (length pre)) ++ true :: repeat false (length post)
  /\ stableLevel (fst (pollSeq d (mantido l t0 (pre ++ t :: post)))) = l.
Proof.
  intros Hq Hl Hpre Ht.
  unfold mantido. cbn [pollSeq].
  assert (Hp : poll d l t0 = (mkDebouncer (stableLevel d) l t0, false)).
  { unfold poll.
    assert (E : eqb l (lastRawLevel d) = false)
      by (apply eqb_false_iff; congruence).
    rewrite E. cbn [negb lastChangeTimestamp stableLevel].
    rewrite sub_ul_diag. reflexivity. }
  rewrite Hp; cbn [fst snd].
  set (d1 := mkDebouncer (stableLevel d) l t0).
  rewrite map_app. cbn [map].
  rewrite (pollSeq_pendente l pre d1 _ eq_refl Hpre).
  cbn [fst snd pollSeq].
  assert (Hc : poll d1 l t = (mkDebouncer l l t0, true)).
  { unfold poll, d1. cbn [lastRawLevel]. rewrite eqb_reflx.
    cbn [negb lastChangeTimestamp stableLevel lastRawLevel].
    rewrite (gtb_true _ _ Ht).
    assert (E : eqb l (stableLevel d) = false)
      by (apply eqb_false_iff; congruence).
    rewrite E. reflexivity. }
  rewrite Hc; cbn [fst snd].
  destruct (pollSeq_estavel l post (mkDebouncer l l t0) eq_refl eq_refl)
    as [E1 E2].
  rewrite E1, E2. split; reflexivity.
Qed.

End Debounce.

(** *** The two button functions refine [poll] *)

Lemma verificarBotao_poll (s : Estado) (leitura : bool) (agora : Z) :
  runState (verificarBotao leitura agora) s
  = (snd (poll (botaoModo s) leitura agora),
     guardarBotaoModo (fst (poll (botaoModo s) leitura agora)) s).
Proof.
  destruct s as [estavel ultimo troca ? ? ? ? ? ? ? ? ? ? ? ? ? ? ? ? ?].
  unfold verificarBotao, poll, botaoModo, guardarBotaoModo, upd.
  cbn -[sub_ul Z.gtb].
  destruct (eqb leitura ultimo); cbn -[sub_ul Z.gtb];
    (destruct (sub_ul agora _ >? tempoDebounce); cbn -[sub_ul Z.gtb];
     [destruct (eqb leitura estavel); reflexivity | reflexivity]).
Qed.

Lemma verificarBotaoCalib_poll (s : Estado) (leitura : bool) (agora : Z) :
  runState (verificarBotaoCalib leitura agora) s
  = (snd (poll (botaoCalibracao s) leitura agora),
     guardarBotaoCalibracao (fst (poll (botaoCalibracao s) leitura agora)) s).
Proof.
  destruct s as [? ? ? estavel ultimo troca ? ? ? ? ? ? ? ? ? ? ? ? ? ?].
  unfold verificarBotaoCalib, poll, botaoCalibracao, guardarBotaoCalibracao,
    upd.
  cbn -[sub_ul Z.gtb].
  destruct (eqb leitura ultimo); cbn -[sub_ul Z.gtb];
    (destruct (sub_ul agora _ >? tempoDebounce); cbn -[sub_ul Z.gtb];
     [destruct (eqb leitura estavel); reflexivity | reflexivity]).
Qed.

Lemma botaoModo_guardar (d : Debouncer) (s : Estado) :
  botaoModo (guardarBotaoModo d s) = d.
Proof. destruct d; reflexivity. Qed.

Lemma botaoCalibracao_guardar (d : Debouncer) (s : Estado) :
  botaoCalibracao (guardarBotaoCalibracao d s) = d.
Proof. destruct d; reflexivity. Qed.

Lemma verificarBotaoSeq_pollSeq (ps : list (bool * Z)) :
  forall s,
    runState (verificarBotaoSeq ps) s
    = (snd (pollSeq (botaoModo s) ps),
       guardarBotaoModo (fst (pollSeq (botaoModo s) ps)) s).
Proof.
  induction ps as [|[l t] ps IH]; intros s.
  - destruct s; reflexivity.
  - cbn [verificarBotaoSeq pollSeq fst snd].
    rewrite run_bind, verificarBotao_poll. cbn [fst snd].
    rewrite run_bind, IH. cbn [fst snd].
    rewrite botaoModo_guardar. destruct s; reflexivity.
Qed.

Lemma verificarBotaoCalibSeq_pollSeq (ps : list (bool * Z)) :
  forall s,
    runState (verificarBotaoCalibSeq ps) s
    = (snd (pollSeq (botaoCalibracao s) ps),
       guardarBotaoCalibracao (fst (pollSeq (botaoCalibracao s) ps)) s).
Proof.
  induction ps as [|[l t] ps IH]; intros s.
  - destruct s; reflexivity.
  - cbn [verificarBotaoCalibSeq pollSeq fst snd].
    rewrite run_bind, verificarBotaoCalib_poll. cbn [fst snd].
    rewrite run_bind, IH. cbn [fst snd].
    rewrite botaoCalibracao_guardar. destruct s; reflexivity.
Qed.

(** C9. Polls of the mode button, from a state with no change pending.
    (1) While the polled level never stays the same for more than the
    50-unit window, no call reports a change and the stable level stays
    as it was.  (2) A level different from the stable one, seen first at
    [t0] and then polled unchanged at the times [pre], [t], [post], where
    [t] is the first time later than [t0 + 50], is committed exactly
    once: the call at [t] returns true, every other call returns false,
    and the stable level ends as that level. *)
Theorem debounce_verificarBotao :
  (forall s ps,
      ultimoEstadoLido s = estadoBotaoEstavel s ->
      rapido (ultimoEstadoLido s) None ps = true ->
      eval (verificarBotaoSeq ps) s = repeat false (length ps)
      /\ estadoBotaoEstavel (exec (verificarBotaoSeq ps) s)
         = estadoBotaoEstavel s)
  /\ (forall s l t0 t pre post,
         ultimoEstadoLido s = estadoBotaoEstavel s ->
         l <> estadoBotaoEstavel s ->
         Forall (fun x => sub_ul x t0 <= tempoDebounce) pre ->
         tempoDebounce < sub_ul t t0 ->
         eval (verificarBotaoSeq (mantido l t0 (pre ++ t :: post))) s
         = repeat false (S (length pre)) ++ true :: repeat false (length post)
         /\ count_occ bool_dec
              (eval (verificarBotaoSeq (mantido l t0 (pre ++ t :: post))) s)
              true = 1%nat
         /\ estadoBotaoEstavel
              (exec (verificarBotaoSeq (mantido l t0 (pre ++ t :: post))) s)
            = l).
Proof.
  split.
  - intros s ps Hq Hr. unfold eval, exec.
    rewrite verificarBotaoSeq_pollSeq. cbn [fst snd].
    destruct (pollSeq_rapido ps (botaoModo s) None Hq Hr) as [H1 H2].
    split; [exact H2|]. exact H1.
  - intros s l t0 t pre post Hq Hl Hpre Ht. unfold eval, exec.
    rewrite verificarBotaoSeq_pollSeq. cbn [fst snd].
    destruct (pollSeq_mantido (botaoModo s) l t0 t pre post Hq Hl Hpre Ht)
      as [H1 H2].
    split; [exact H1|]. split; [|exact H2].
    rewrite H1. rewrite count_occ_app, count_occ_repeat_false.
    cbn [count_occ]. destruct (bool_dec true true) as [_|N]; [|congruence].
    rewrite count_occ_repeat_false. reflexivity.
Qed.

(** The calibration button behaves the same way. *)
Lemma debounce_verificarBotaoCalib :
  (forall s ps,
      ultimoEstadoCalibLido s = estadoBotaoCalibEstavel s ->
      rapido (ultimoEstadoCalibLido s) None ps = true ->
      eval (verificarBotaoCalibSeq ps) s = repeat false (length ps)
      /\ estadoBotaoCalibEstavel (exec (verificarBotaoCalibSeq ps) s)
         = estadoBotaoCalibEstavel s)
  /\ (forall s l t0 t pre post,
         ultimoEstadoCalibLido s = estadoBotaoCalibEstavel s ->
         l <> estadoBotaoCalibEstavel s ->
         Forall (fun x => sub_ul x t0 <= tempoDebounce) pre ->
         tempoDebounce < sub_ul t t0 ->
         eval (verificarBotaoCalibSeq (mantido l t0 (pre ++ t :: post))) s
         = repeat false (S (length pre)) ++ true :: repeat false (length post)
         /\ estadoBotaoCalibEstavel
              (exec (verificarBotaoCalibSeq (mantido l t0 (pre ++ t :: post)))
                 s)
            = l).
Proof.
  split.
  - intros s ps Hq Hr. unfold eval, exec.
    rewrite verificarBotaoCalibSeq_pollSeq. cbn [fst snd].
    destruct (pollSeq_rapido ps (botaoCalibracao s) None Hq Hr) as [H1 H2].
    split; [exact H2|]. exact H1.
  - intros s l t0 t pre post Hq Hl Hpre Ht. unfold eval, exec.
    rewrite verificarBotaoCalibSeq_pollSeq. cbn [fst snd].
    destruct (pollSeq_mantido (botaoCalibracao s) l t0 t pre post
                Hq Hl Hpre Ht) as [H1 H2].
    split; [exact H1|exact H2].
Qed.

(** Bounces at 10, 30, 60, 95 and 100 ms commit nothing; a press held
    from 200 ms and polled at 230, 251 and 300 ms commits once, at 251. *)
Lemma debounce_verificarBotao_witness :
  estadoBotaoEstavel
    (exec (verificarBotaoSeq
             [(LOW, 10); (HIGH, 30); (LOW, 60); (LOW, 95); (HIGH, 100)])
       estadoInicial) = HIGH
  /\ eval (verificarBotaoSeq (mantido LOW 200 ([230] ++ 251 :: [300])))
       estadoInicial
     = [false; false; true; false].
Proof.
  split.
  - apply (proj1 debounce_verificarBotao estadoInicial
             [(LOW, 10); (HIGH, 30); (LOW, 60); (LOW, 95); (HIGH, 100)]);
      reflexivity.
  - apply (proj2 debounce_verificarBotao estadoInicial LOW 200 251 [230] [300]).
    + reflexivity.
    + discriminate.
    + repeat constructor; vm_compute; discriminate.
    + reflexivity.
Defined.

(** ** Sampling and calibration *)

Lemma run_gets {A} (f : Estado -> A) (s : Estado) :
  runState (gets f) s = (f s, s).
Proof. reflexivity. Qed.

Lemma run_upd (f : Estado -> Estado) (s : Estado) :
  runState (upd f) s = (tt, f s).
Proof. reflexivity. Qed.

Lemma run_ret {A} (x : A) (s : Estado) : runState (ret x) s = (x, s).
Proof. reflexivity. Qed.

Lemma run_println (m : Mensagem) (s : Estado) :
  runState (println m) s = (tt, set_serial (serial s ++ [m]) s).
Proof. reflexivity. Qed.

Lemma wrap_long_id (z : Z) : - 2 ^ 31 <= z < 2 ^ 31 -> wrap_long z = z.
Proof.
  intros H. unfold wrap_long. rewrite Z.mod_small; lia.
Qed.

Section Amostragem.

Variable sqrtf : Q -> Q.
Variable adc : Pino -> Z -> Z.

Lemma run_analogRead (pino : Pino) (s : Estado) :
  runState (analogRead adc pino) s
  = (adc pino (leiturasADC s), set_leiturasADC (leiturasADC s + 1) s).
Proof. reflexivity. Qed.

Lemma run_somaLeituras (n : nat) (pino : Pino) :
  forall somaLeit s,
    runState (somaLeituras adc n pino somaLeit) s
    = (somaLeiturasDe adc n pino (leiturasADC s) somaLeit,
       set_leiturasADC (leiturasADC s + Z.of_nat n) s).
Proof.
  induction n as [|n IH]; intros somaLeit s.
  - cbn [somaLeituras somaLeiturasDe Z.of_nat]. rewrite Z.add_0_r.
    destruct s; reflexivity.
  - cbn [somaLeituras somaLeiturasDe].
    rewrite run_bind, run_analogRead. cbn [fst snd].
    rewrite IH. cbn [leiturasADC set_leiturasADC].
    f_equal. apply (f_equal (fun k => set_leiturasADC k s)). lia.
Qed.

Lemma run_somaQuadrados (n : nat) (pino : Pino) (offset : Q) :
  forall somaQ s,
    runState (somaQuadrados adc n pino offset somaQ) s
    = (somaQuadradosDe adc n pino offset (leiturasADC s) somaQ,
       set_leiturasADC (leiturasADC s + Z.of_nat n) s).
Proof.
  induction n as [|n IH]; intros somaQ s.
  - cbn [somaQuadrados somaQuadradosDe Z.of_nat]. rewrite Z.add_0_r.
    destruct s; reflexivity.
  - cbn [somaQuadrados somaQuadradosDe].
    rewrite run_bind, run_analogRead. cbn [fst snd].
    rewrite IH. cbn [leiturasADC set_leiturasADC].
    f_equal. apply (f_equal (fun k => set_leiturasADC k s)). lia.
Qed.

Lemma run_lerTensaoAC_RMS_comOffset (pino : Pino) (s : Estado) :
  runState (lerTensaoAC_RMS_comOffset sqrtf adc pino) s
  = (tensaoRMS sqrtf adc pino (leiturasADC s),
     set_leiturasADC (leiturasADC s + 500) s).
Proof.
  unfold lerTensaoAC_RMS_comOffset.
  rewrite run_bind, run_somaLeituras. cbn [fst snd].
  rewrite run_bind, run_somaQuadrados. cbn [fst snd].
  rewrite run_ret. unfold tensaoRMS, offsetDe.
  cbn [leiturasADC set_leiturasADC].
  change (Z.of_nat amostras) with 250.
  f_equal. apply (f_equal (fun k => set_leiturasADC k s)). lia.
Qed.

Hypothesis sqrtf_nonneg : forall x : Q, (0 <= x)%Q -> (0 <= sqrtf x)%Q.
Hypothesis adc_range : forall p k, 0 <= adc p k <= 1023.

Lemma somaLeiturasDe_limites (pino : Pino) (n : nat) :
  forall k somaLeit,
    0 <= somaLeit ->
    somaLeit + 1023 * Z.of_nat n < 2 ^ 31 ->
    0 <= somaLeiturasDe adc n pino k somaLeit <= somaLeit + 1023 * Z.of_nat n.
Proof.
  induction n as [|n IH]; intros k somaLeit H0 H1; cbn [somaLeiturasDe].
  - lia.
  - pose proof (adc_range pino k) as Hr.
    rewrite wrap_long_id by lia.
    specialize (IH (k + 1) (somaLeit + adc pino k)). lia.
Qed.

Lemma offsetDe_limites (pino : Pino) (k : Z) :
  (0 <= offsetDe adc pino k <= 1023)%Q.
Proof.
  unfold offsetDe.
  pose proof (somaLeiturasDe_limites pino amostras k 0) as H.
  change (Z.of_nat amostras) with 250 in *.
  assert (H' : 0 <= somaLeiturasDe adc amostras pino k 0 <= 255750)
    by (apply H; lia).
  destruct H' as [Ha Hb].
  rewrite Zle_Qle in Ha, Hb.
  change (inject_Z 0) with 0%Q in Ha.
  change (inject_Z 255750) with 255750%Q in Hb.
  change (inject_Z 250) with 250%Q.
  set (x := inject_Z (somaLeiturasDe adc amostras pino k 0)) in *.
  split.
  - apply Qle_shift_div_l; lra.
  - apply Qle_shift_div_r; lra.
Qed.

Lemma quadrado_limites (r : Z) (offset : Q) :
  0 <= r <= 1023 -> (0 <= offset <= 1023)%Q ->
  0 <= trunc_long ((inject_Z r - offset) * (inject_Z r - offset))%Q <= 1046529.
Proof.
  intros [Hr0 Hr1] [Ho0 Ho1].
  rewrite Zle_Qle in Hr0, Hr1.
  change (inject_Z 0) with 0%Q in Hr0.
  change (inject_Z 1023) with 1023%Q in Hr1.
  set (c := (inject_Z r - offset)%Q).
  assert (Hc : (-1023 <= c <= 1023)%Q) by (unfold c; split; lra).
  assert (H0 : (0 <= c * c)%Q) by nra.
  assert (H1 : (c * c <= 1046529)%Q) by nra.
  unfold trunc_long.
  rewrite (proj2 (Qle_bool_iff 0 (c * c)) H0).
  apply Qfloor_resp_le in H0, H1.
  change 0%Q with (inject_Z 0) in H0.
  change 1046529%Q with (inject_Z 1046529) in H1.
  rewrite Qfloor_Z in H0, H1.
  rewrite wrap_long_id; lia.
Qed.

Lemma somaQuadradosDe_limites (pino : Pino) (offset : Q) (n : nat) :
  (0 <= offset <= 1023)%Q ->
  forall k somaQ,
    0 <= somaQ ->
    somaQ + 1046529 * Z.of_nat n < 2 ^ 31 ->
    0 <= somaQuadradosDe adc n pino offset k somaQ
      <= somaQ + 1046529 * Z.of_nat n.
Proof.
  intros Ho.
  induction n as [|n IH]; intros k somaQ H0 H1; cbn [somaQuadradosDe].
  - lia.
  - pose proof (quadrado_limites (adc pino k) offset (adc_range pino k) Ho)
      as Hq.
    cbv zeta. rewrite wrap_long_id by lia.
    match goal with
    | |- context [somaQuadradosDe adc n pino offset (k + 1) ?a] =>
        specialize (IH (k + 1) a)
    end.
    lia.
Qed.

(** The RMS voltage of a channel is never negative. *)
Lemma tensaoRMS_nonneg (pino : Pino) (k : Z) :
  (0 <= tensaoRMS sqrtf adc pino k)%Q.
Proof.
  unfold tensaoRMS. cbv zeta.
  pose proof (somaQuadradosDe_limites pino (offsetDe adc pino k) amostras
                (offsetDe_limites pino k) (k + 250) 0) as H.
  change (Z.of_nat amostras) with 250 in *.
  assert (H' : 0 <= somaQuadradosDe adc amostras pino (offsetDe adc pino k)
                      (k + 250) 0) by (apply H; lia).
  rewrite Zle_Qle in H'. change (inject_Z 0) with 0%Q in H'.
  change (inject_Z 250) with 250%Q.
  set (x := inject_Z _) in *.
  assert (Hx : (0 <= x / 250)%Q) by (apply Qle_shift_div_l; lra).
  pose proof (sqrtf_nonneg _ Hx) as Hs.
  set (r := sqrtf _) in *.
  unfold calibrationFactor.
  assert (Hd : (0 <= r * 2.5 / 512)%Q) by (apply Qle_shift_div_l; lra).
  nra.
Qed.

Lemma acumularCalibDe_nonneg (n : nat) :
  forall k vmin vmax,
    (0 <= vmin)%Q -> (0 <= vmax)%Q ->
    (0 <= fst (acumularCalibDe sqrtf adc n k vmin vmax))%Q
    /\ (0 <= snd (acumularCalibDe sqrtf adc n k vmin vmax))%Q.
Proof.
  induction n as [|n IH]; intros k vmin vmax Hmin Hmax.
  - split; assumption.
  - cbn [acumularCalibDe]. apply IH.
    + pose proof (tensaoRMS_nonneg sensorMin k). lra.
    + pose proof (tensaoRMS_nonneg sensorMax (k + 500)). lra.
Qed.

Lemma mediasCalibDe_nonneg (k : Z) :
  (0 <= fst (mediasCalibDe sqrtf adc k))%Q
  /\ (0 <= snd (mediasCalibDe sqrtf adc k))%Q.
Proof.
  unfold mediasCalibDe. cbn [fst snd].
  destruct (acumularCalibDe_nonneg 8 k 0 0) as [H1 H2]; try lra.
  split; apply Qle_shift_div_l; lra.
Qed.

End Amostragem.

Section Calibracao.

Variable sqrtf : Q -> Q.
Variable adc : Pino -> Z -> Z.

Lemma run_acumularCalib (n : nat) :
  forall vmin vmax s,
    runState (acumularCalib sqrtf adc n vmin vmax) s
    = (acumularCalibDe sqrtf adc n (leiturasADC s) vmin vmax,
       set_leiturasADC (leiturasADC s + 1000 * Z.of_nat n) s).
Proof.
  induction n as [|n IH]; intros vmin vmax s.
  - cbn [acumularCalib acumularCalibDe Z.of_nat]. rewrite Z.add_0_r.
    destruct s; reflexivity.
  - cbn [acumularCalib acumularCalibDe].
    rewrite run_bind, run_lerTensaoAC_RMS_comOffset. cbn [fst snd].
    rewrite run_bind, run_lerTensaoAC_RMS_comOffset. cbn [fst snd].
    rewrite IH. cbn [leiturasADC set_leiturasADC].
    f_equal; [f_equal; lia|].
    apply (f_equal (fun k => set_leiturasADC k s)). lia.
Qed.

Lemma run_mediasCalib (s : Estado) :
  runState (mediasCalib sqrtf adc) s
  = (mediasCalibDe sqrtf adc (leiturasADC s),
     set_leiturasADC (leiturasADC s + 8000) s).
Proof.
  unfold mediasCalib.
  rewrite run_bind, run_acumularCalib. cbn [fst snd].
  rewrite run_ret. reflexivity.
Qed.

Lemma exec_ajustarGanhos (vmin vmax : Q) (s : Estado) :
  exec (ajustarGanhos vmin vmax) s
  = set_ganhoMax (ganhoCalibrado vmin vmax vmax (ganhoMax s))
      (set_ganhoMin (ganhoCalibrado vmin vmax vmin (ganhoMin s)) s).
Proof.
  destruct s.
  unfold exec, ajustarGanhos, ganhoCalibrado. cbv zeta.
  destruct (Qgt_bool vmin (1 # 10)), (Qgt_bool vmax (1 # 10)); reflexivity.
Qed.

Lemma exec_autoCalibrar (s : Estado) :
  exec (autoCalibrar sqrtf adc) s
  = let m := mediasCalibDe sqrtf adc (leiturasADC s) in
    let gmin := ganhoCalibrado (fst m) (snd m) (fst m) (ganhoMin s) in
    let gmax := ganhoCalibrado (fst m) (snd m) (snd m) (ganhoMax s) in
    set_serial (serial s ++ [MsgIniciandoCalib; MsgAutocalibrado gmin gmax])
      (set_ganhoMax gmax
         (set_ganhoMin gmin (set_leiturasADC (leiturasADC s + 8000) s))).
Proof.
  unfold exec, autoCalibrar.
  rewrite run_bind, run_println. cbn [fst snd].
  rewrite run_bind, run_mediasCalib. cbn [fst snd].
  change (leiturasADC (set_serial (serial s ++ [MsgIniciandoCalib]) s))
    with (leiturasADC s).
  cbv zeta.
  set (m := mediasCalibDe sqrtf adc (leiturasADC s)). clearbody m.
  rewrite run_bind.
  match goal with
  | |- context [runState (ajustarGanhos ?a ?b) ?st] =>
      pose proof (exec_ajustarGanhos a b st) as H;
      unfold exec in H;
      destruct (runState (ajustarGanhos a b) st) as [u st'];
      cbn [snd] in H; subst st'
  end.
  cbn [fst snd].
  set (gmin := ganhoCalibrado (fst m) (snd m) (fst m)). clearbody gmin.
  set (gmax := ganhoCalibrado (fst m) (snd m) (snd m)). clearbody gmax.
  destruct s. cbn. rewrite <- app_assoc. reflexivity.
Qed.

End Calibracao.







(** ** The exponential filter *)

Lemma filtrar_distancia (v x : Q) :
  (filtrar v x - v == (8 # 10) * (x - v))%Q.
Proof. unfold filtrar, alpha. ring. Qed.

Lemma filtrar_abaixo (v x : Q) :
  (x <= v)%Q -> (x <= filtrar v x)%Q /\ (filtrar v x <= v)%Q.
Proof. intros H. unfold filtrar, alpha. split; lra. Qed.

Lemma filtrar_acima (v x : Q) :
  (v <= x)%Q -> (v <= filtrar v x)%Q /\ (filtrar v x <= x)%Q.
Proof. intros H. unfold filtrar, alpha. split; lra. Qed.

Lemma filtrarN_abaixo (v s : Q) (n : nat) :
  (s <= v)%Q -> (filtrarN n v s <= v)%Q.
Proof.
  intros H. induction n as [|n IH]; cbn [filtrarN].
  - exact H.
  - apply filtrar_abaixo, IH.
Qed.

Lemma filtrarN_acima (v s : Q) (n : nat) :
  (v <= s)%Q -> (v <= filtrarN n v s)%Q.
Proof.
  intros H. induction n as [|n IH]; cbn [filtrarN].
  - exact H.
  - apply filtrar_acima, IH.
Qed.

Lemma filtrarN_distancia (v s : Q) (n : nat) :
  (Qabs (filtrarN (S n) v s - v)
   == (8 # 10) * Qabs (filtrarN n v s - v))%Q.
Proof.
  cbn [filtrarN]. rewrite filtrar_distancia, Qabs_Qmult. reflexivity.
Qed.

(** The distance to the input shrinks at least like [4 / (4 + n)]. *)
Lemma filtrarN_taxa (v s : Q) (n : nat) :
  (Qabs (filtrarN n v s - v) * (4 + inject_Z (Z.of_nat n))
   <= 4 * Qabs (s - v))%Q.
Proof.
  induction n as [|n IH].
  - cbn [filtrarN Z.of_nat]. change (inject_Z 0) with 0%Q. lra.
  - rewrite filtrarN_distancia.
    rewrite Nat2Z.inj_succ. unfold Z.succ. rewrite inject_Z_plus.
    change (inject_Z 1) with 1%Q.
    set (d := Qabs (filtrarN n v s - v)) in *.
    set (k := inject_Z (Z.of_nat n)) in *.
    assert (Hd : (0 <= d)%Q) by apply Qabs_nonneg.
    assert (Hk : (0 <= k)%Q).
    { unfold k. change 0%Q with (inject_Z 0). rewrite <- Zle_Qle. lia. }
    assert (Hdk : (0 <= d * k)%Q) by (apply Qmult_le_0_compat; assumption).
    nra.
Qed.

Lemma filtrarN_converge (v s eps : Q) :
  (0 < eps)%Q ->
  exists N : nat,
    forall n, (N <= n)%nat -> (Qabs (filtrarN n v s - v) < eps)%Q.
Proof.
  intros Heps.
  set (D := Qabs (s - v)).
  assert (HD : (0 <= D)%Q) by apply Qabs_nonneg.
  exists (Z.to_nat (Qceiling (4 * D / eps))).
  intros n Hn.
  pose proof (filtrarN_taxa v s n) as Ht. fold D in Ht.
  set (d := Qabs (filtrarN n v s - v)) in *.
  set (k := inject_Z (Z.of_nat n)) in *.
  assert (Hq : (4 * D / eps <= k)%Q).
  { apply Qle_trans with (inject_Z (Qceiling (4 * D / eps))).
    - apply Qle_ceiling.
    - unfold k. rewrite <- Zle_Qle. lia. }
  assert (Hm : (4 * D <= k * eps)%Q).
  { assert (He : (4 * D == 4 * D / eps * eps)%Q) by (field; lra).
    rewrite He. apply Qmult_le_compat_r; [exact Hq|lra]. }
  destruct (Qlt_le_dec d eps) as [Hlt|Hge]; [exact Hlt|exfalso].
  assert (Hk : (0 <= k)%Q) by (apply Qle_trans with (4 * D / eps)%Q;
    [apply Qle_shift_div_l; lra | exact Hq]).
  assert (Hp : (eps * (4 + k) <= d * (4 + k))%Q)
    by (apply Qmult_le_compat_r; lra).
  lra.
Qed.

Lemma run_lerFiltradoComGanho (sqrtf : Q -> Q) (adc : Pino -> Z -> Z)
      (pino : Pino) (r : RefFiltro) (g : Q) (s : Estado) :
  runState (lerFiltradoComGanho sqrtf adc pino r g) s
  = (filtrar (tensaoRMS sqrtf adc pino (leiturasADC s) * g) (deref r s),
     assign r (filtrar (tensaoRMS sqrtf adc pino (leiturasADC s) * g)
                 (deref r s))
       (set_leiturasADC (leiturasADC s + 500) s)).
Proof.
  unfold lerFiltradoComGanho.
  rewrite run_bind, run_lerTensaoAC_RMS_comOffset. cbn [fst snd].
  set (t := tensaoRMS sqrtf adc pino (leiturasADC s)). clearbody t.
  destruct r, s; reflexivity.
Qed.

(** ** Invariants of the main loop *)

Lemma mantem_ret (P : Estado -> Prop) {A} (x : A) : mantem P (ret x).
Proof. intros s H. exact H. Qed.

Lemma mantem_gets (P : Estado -> Prop) {A} (f : Estado -> A) :
  mantem P (gets f).
Proof. intros s H. exact H. Qed.

Lemma mantem_bind (P : Estado -> Prop) {A B} (a : M A) (f : A -> M B) :
  mantem P a -> (forall x, mantem P (f x)) -> mantem P (bind a f).
Proof.
  intros Ha Hf s Hs. unfold exec. rewrite run_bind.
  apply (Hf _ _ (Ha _ Hs)).
Qed.

Lemma mantem_upd (P : Estado -> Prop) (f : Estado -> Estado) :
  (forall s, P s -> P (f s)) -> mantem P (upd f).
Proof. intros H s Hs. apply H, Hs. Qed.

Lemma exec_desligarBomba (s : Estado) :
  exec desligarBomba s
  = if bombaLigada s
    then set_serial (serial s ++ [MsgBombaDesligada]) (acionarBomba LOW s)
    else s.
Proof. destruct s as [? ? ? ? ? ? ? []]; reflexivity. Qed.

Lemma exec_ligarBomba (s : Estado) :
  exec ligarBomba s
  = if bombaLigada s
    then s
    else set_serial (serial s ++ [MsgBombaLigada]) (acionarBomba HIGH s).
Proof. destruct s as [? ? ? ? ? ? ? []]; reflexivity. Qed.

Lemma exec_controlarBomba (s : Estado) :
  exec controlarBomba s
  = if bombaDeveLigar (estadoAtual s)
    then exec ligarBomba s else exec desligarBomba s.
Proof.
  destruct s as [? ? ? ? ? ? ? lig atual ? ? ? ? ? ? ? ? ? ? ?].
  destruct atual, lig; reflexivity.
Qed.

Lemma exec_atualizarEstado (tmin tmax : Q) (s : Estado) :
  exists log,
    exec (atualizarEstado tmin tmax) s
    = set_serial log
        (set_estadoAtual
           (proximoEstado (estadoAtual s) (molhado tmin) (molhado tmax))
           (set_estadoAnterior (estadoAtual s) s)).
Proof.
  destruct s as [? ? ? ? ? ? ? lig atual ? ? ? ? ? ? ? ? ? ? log].
  unfold exec, atualizarEstado, proximoEstado, molhado; cbn.
  destruct atual, (Qle_bool tmin LIMITE_MOLHADO),
    (Qle_bool tmax LIMITE_MOLHADO); cbn; eexists; reflexivity.
Qed.

Section Invariantes.

Variable P : Estado -> Prop.

(** Fields that the button stanzas and the pump functions assign. *)
Hypothesis P_botao :
  forall a b c s, P s ->
    P (set_estadoBotaoEstavel a (set_ultimoEstadoLido b
         (set_ultimoTempoTroca c s))).
Hypothesis P_botaoCalib :
  forall a b c s, P s ->
    P (set_estadoBotaoCalibEstavel a (set_ultimoEstadoCalibLido b
         (set_ultimoTempoCalib c s))).
Hypothesis P_serial : forall l s, P s -> P (set_serial l s).
Hypothesis P_led : forall v s, P s -> P (set_saida_ledModo v s).
Hypothesis P_adc : forall k s, P s -> P (set_leiturasADC k s).
Hypothesis P_ultimaLeitura : forall t s, P s -> P (set_ultimaLeitura t s).

Lemma mantem_println (m : Mensagem) : mantem P (println m).
Proof. intros s H. apply P_serial, H. Qed.

Lemma mantem_verificarBotao (l : bool) (t : Z) :
  mantem P (verificarBotao l t).
Proof.
  intros s H. unfold exec. rewrite verificarBotao_poll. cbn [snd].
  apply P_botao, H.
Qed.

Lemma mantem_verificarBotaoCalib (l : bool) (t : Z) :
  mantem P (verificarBotaoCalib l t).
Proof.
  intros s H. unfold exec. rewrite verificarBotaoCalib_poll. cbn [snd].
  apply P_botaoCalib, H.
Qed.

Lemma mantem_tempoDecorrido (i t : Z) : mantem P (tempoDecorrido i t).
Proof.
  unfold tempoDecorrido.
  apply mantem_bind; [apply mantem_gets|intros u].
  destruct (sub_ul t u >=? i).
  - apply mantem_bind; [|intros; apply mantem_ret].
    apply mantem_upd. intros s H. apply P_ultimaLeitura, H.
  - apply mantem_ret.
Qed.


Hypothesis P_modo : forall v s, P s -> P (set_modoAutomatico v s).
Hypothesis P_bomba : forall v s, P s -> P (acionarBomba v s).
Hypothesis P_filtro : forall r x s, P s -> P (assign r x s).
Hypothesis P_estado :
  forall a b s, P s ->
    P (set_estadoAtual (proximoEstado (estadoAtual s) a b)
         (set_estadoAnterior (estadoAtual s) s)).
Hypothesis P_ganhos :
  forall a b s, P s -> P (set_ganhoMax b (set_ganhoMin a s)).

Lemma mantem_desligarBomba : mantem P desligarBomba.
Proof.
  intros s H. rewrite exec_desligarBomba.
  destruct (bombaLigada s); [|exact H]. apply P_serial, P_bomba, H.
Qed.

Lemma mantem_ligarBomba : mantem P ligarBomba.
Proof.
  intros s H. rewrite exec_ligarBomba.
  destruct (bombaLigada s); [exact H|]. apply P_serial, P_bomba, H.
Qed.

Lemma mantem_controlarBomba : mantem P controlarBomba.
Proof.
  intros s H. rewrite exec_controlarBomba.
  destruct (bombaDeveLigar (estadoAtual s));
    [apply mantem_ligarBomba | apply mantem_desligarBomba]; exact H.
Qed.

Lemma mantem_atualizarEstado (tmin tmax : Q) :
  mantem P (atualizarEstado tmin tmax).
Proof.
  intros s H. destruct (exec_atualizarEstado tmin tmax s) as [log ->].
  apply P_serial, P_estado, H.
Qed.

Lemma mantem_alternarModo (e : Entrada) : mantem P (alternarModo e).
Proof.
  unfold alternarModo.
  apply mantem_bind; [apply mantem_verificarBotao; assumption|intros mudou].
  apply mantem_bind; [apply mantem_gets|intros estavel].
  destruct (mudou && eqb estavel LOW); [|apply mantem_ret].
  apply mantem_bind; [apply mantem_gets|intros modo].
  apply mantem_bind; [apply mantem_upd; intros; apply P_modo; assumption|].
  intros _.
  apply mantem_bind; [apply mantem_gets|intros modo'].
  apply mantem_bind.
  { unfold digitalWrite. apply mantem_upd. intros; apply P_led; assumption. }
  intros _.
  destruct modo'.
  - apply mantem_println; assumption.
  - apply mantem_bind; [apply mantem_println; assumption|intros _].
    apply mantem_desligarBomba.
Qed.

Lemma mantem_autoCalibrar (sqrtf : Q -> Q) (adc : Pino -> Z -> Z) :
  mantem P (autoCalibrar sqrtf adc).
Proof.
  intros s H. rewrite exec_autoCalibrar. cbv zeta.
  apply P_serial, P_ganhos, P_adc, H.
Qed.

Lemma mantem_calibracaoManual_de (sqrtf : Q -> Q) (adc : Pino -> Z -> Z)
      (e : Entrada) :
  mantem P (autoCalibrar sqrtf adc) ->
  mantem P (calibracaoManual sqrtf adc e).
Proof.
  intros Hcal. unfold calibracaoManual.
  apply mantem_bind;
    [apply mantem_verificarBotaoCalib; assumption|intros mudou].
  apply mantem_bind; [apply mantem_gets|intros estavel].
  destruct (mudou && eqb estavel LOW); [exact Hcal|apply mantem_ret].
Qed.

Lemma mantem_lerFiltradoComGanho (sqrtf : Q -> Q) (adc : Pino -> Z -> Z)
      (pino : Pino) (r : RefFiltro) (g : Q) :
  mantem P (lerFiltradoComGanho sqrtf adc pino r g).
Proof.
  intros s H. unfold exec. rewrite run_lerFiltradoComGanho. cbn [snd].
  apply P_filtro, P_adc, H.
Qed.

Lemma mantem_cicloAutomatico (sqrtf : Q -> Q) (adc : Pino -> Z -> Z)
      (e : Entrada) :
  mantem P (cicloAutomatico sqrtf adc e).
Proof.
  unfold cicloAutomatico.
  apply mantem_bind; [apply mantem_gets|intros modo].
  apply mantem_bind.
  { destruct modo; [apply mantem_tempoDecorrido; assumption|apply mantem_ret]. }
  intros decorrido.
  destruct (modo && decorrido); [|apply mantem_ret].
  apply mantem_bind; [apply mantem_gets|intros gmin].
  apply mantem_bind; [apply mantem_lerFiltradoComGanho|intros tensaoMin].
  apply mantem_bind; [apply mantem_gets|intros gmax].
  apply mantem_bind; [apply mantem_lerFiltradoComGanho|intros tensaoMax].
  apply mantem_bind; [apply mantem_atualizarEstado|intros _].
  apply mantem_bind; [apply mantem_controlarBomba|intros _].
  apply mantem_bind; [apply mantem_gets|intros fmin].
  apply mantem_bind; [apply mantem_gets|intros fmax].
  apply mantem_println; assumption.
Qed.

Lemma mantem_loop_de (sqrtf : Q -> Q) (adc : Pino -> Z -> Z) (e : Entrada) :
  mantem P (autoCalibrar sqrtf adc) ->
  mantem P (loop sqrtf adc e).
Proof.
  intros Hcal. unfold loop.
  apply mantem_bind; [apply mantem_alternarModo|intros _].
  apply mantem_bind; [apply mantem_calibracaoManual_de, Hcal|intros _].
  apply mantem_cicloAutomatico.
Qed.

End Invariantes.

Lemma exec_setup (sqrtf : Q -> Q) (adc : Pino -> Z -> Z) (leitura : bool)
      (s : Estado) :
  exec (setup sqrtf adc leitura) s
  = let s0 :=
      set_saida_Bomba LOW
        (set_saida_ledModo LOW
           (set_saida_bombaPin LOW (set_serial (serial s ++ [MsgBanner]) s)))
    in if leitura then s0 else exec (autoCalibrar sqrtf adc) s0.
Proof.
  unfold setup. rewrite !exec_seq. unfold autoCalibrarSeBotaoPressionado.
  destruct leitura; cbn [eqb LOW]; reflexivity.
Qed.

Lemma executar_invariante (P : Estado -> Prop) (sqrtf : Q -> Q)
      (adc : Pino -> Z -> Z) (leitura : bool) (es : list Entrada) :
  P (exec (setup sqrtf adc leitura) estadoInicial) ->
  (forall e, mantem P (loop sqrtf adc e)) ->
  P (executar sqrtf adc leitura es).
Proof.
  unfold executar. intros H0 Hl.
  generalize dependent (exec (setup sqrtf adc leitura) estadoInicial).
  induction es as [|e es IH]; intros s Hs; cbn [fold_left].
  - exact Hs.
  - apply IH, Hl, Hs.
Qed.

(** *** The pump outputs mirror the pump flag *)

Lemma coerente_loop (sqrtf : Q -> Q) (adc : Pino -> Z -> Z) (e : Entrada) :
  mantem coerente (loop sqrtf adc e).
Proof.
  apply mantem_loop_de; try campo_alheio.
  - intros v s _. split; reflexivity.
  - apply mantem_autoCalibrar; campo_alheio.
Qed.

Lemma coerente_executar (sqrtf : Q -> Q) (adc : Pino -> Z -> Z)
      (leitura : bool) (es : list Entrada) :
  coerente (executar sqrtf adc leitura es).
Proof.
  apply executar_invariante; [|apply coerente_loop].
  rewrite exec_setup. cbv zeta.
  destruct leitura; [split; reflexivity|].
  rewrite exec_autoCalibrar. split; reflexivity.
Qed.

(** *** FALHA_ELETRICA is never current in a run of the sketch *)

Lemma proximoEstado_naoEletrica (e : EstadoPoco) (a b : bool) :
  e <> FALHA_ELETRICA -> proximoEstado e a b <> FALHA_ELETRICA.
Proof. destruct e, a, b; cbn; congruence. Qed.

Lemma naoEletrica_loop (sqrtf : Q -> Q) (adc : Pino -> Z -> Z) (e : Entrada) :
  mantem naoEletrica (loop sqrtf adc e).
Proof.
  apply mantem_loop_de; try campo_alheio.
  - intros a b s H. apply proximoEstado_naoEletrica, H.
  - apply mantem_autoCalibrar; campo_alheio.
Qed.

Lemma naoEletrica_executar (sqrtf : Q -> Q) (adc : Pino -> Z -> Z)
      (leitura : bool) (es : list Entrada) :
  naoEletrica (executar sqrtf adc leitura es).
Proof.
  apply executar_invariante; [|apply naoEletrica_loop].
  rewrite exec_setup. cbv zeta.
  destruct leitura; [discriminate|].
  rewrite exec_autoCalibrar. discriminate.
Qed.

(** *** The gains stay positive *)

Lemma ganhoCalibrado_min_pos (vmin vmax anterior : Q) :
  (0 <= vmin)%Q -> (0 <= vmax)%Q -> (0 < anterior)%Q ->
  (0 < ganhoCalibrado vmin vmax vmin anterior)%Q.
Proof.
  intros Hmin Hmax Ha. unfold ganhoCalibrado, Qgt_bool.
  destruct (Qle_bool vmin (1 # 10)) eqn:E; cbn [negb]; [exact Ha|].
  assert (Hg : (1 # 10 < vmin)%Q).
  { destruct (Qlt_le_dec (1 # 10) vmin) as [H|H]; [exact H|].
    apply Qle_bool_iff in H. congruence. }
  apply Qlt_shift_div_l; [lra|].
  assert (Hh : (0 < (vmin + vmax) / 2)%Q) by (apply Qlt_shift_div_l; lra).
  lra.
Qed.

Lemma ganhoCalibrado_max_pos (vmin vmax anterior : Q) :
  (0 <= vmin)%Q -> (0 <= vmax)%Q -> (0 < anterior)%Q ->
  (0 < ganhoCalibrado vmin vmax vmax anterior)%Q.
Proof.
  intros Hmin Hmax Ha. unfold ganhoCalibrado, Qgt_bool.
  destruct (Qle_bool vmax (1 # 10)) eqn:E; cbn [negb]; [exact Ha|].
  assert (Hg : (1 # 10 < vmax)%Q).
  { destruct (Qlt_le_dec (1 # 10) vmax) as [H|H]; [exact H|].
    apply Qle_bool_iff in H. congruence. }
  apply Qlt_shift_div_l; [lra|].
  assert (Hh : (0 < (vmin + vmax) / 2)%Q) by (apply Qlt_shift_div_l; lra).
  lra.
Qed.

Section GanhosPositivos.

Variable sqrtf : Q -> Q.
Variable adc : Pino -> Z -> Z.
Hypothesis sqrtf_nonneg : forall x : Q, (0 <= x)%Q -> (0 <= sqrtf x)%Q.
Hypothesis adc_range : forall p k, 0 <= adc p k <= 1023.

Lemma ganhosPositivos_autoCalibrar :
  mantem ganhosPositivos (autoCalibrar sqrtf adc).
Proof.
  intros s [Hmin Hmax]. rewrite exec_autoCalibrar. cbv zeta.
  destruct (mediasCalibDe_nonneg sqrtf adc sqrtf_nonneg adc_range
              (leiturasADC s)) as [H1 H2].
  split; cbn [ganhoMin ganhoMax set_serial set_ganhoMax set_ganhoMin].
  - apply ganhoCalibrado_min_pos; assumption.
  - apply ganhoCalibrado_max_pos; assumption.
Qed.

Lemma ganhosPositivos_loop (e : Entrada) :
  mantem ganhosPositivos (loop sqrtf adc e).
Proof.
  apply mantem_loop_de; try campo_alheio.
  apply ganhosPositivos_autoCalibrar.
Qed.

Lemma ganhosPositivos_executar (leitura : bool) (es : list Entrada) :
  ganhosPositivos (executar sqrtf adc leitura es).
Proof.
  apply executar_invariante; [|apply ganhosPositivos_loop].
  rewrite exec_setup. cbv zeta.
  destruct leitura.
  - split; reflexivity.
  - apply ganhosPositivos_autoCalibrar. split; reflexivity.
Qed.

End GanhosPositivos.

(** ** The three stanzas of the main loop *)

Section Laco.

Variable sqrtf : Q -> Q.
Variable adc : Pino -> Z -> Z.

Lemma exec_alternarModo (e : Entrada) (s : Estado) :
  exec (alternarModo e) s
  = let s1 :=
      guardarBotaoModo
        (fst (poll (botaoModo s) (leituraBotao e) (agoraBotao e))) s in
    if modoAlternado s e then
      let s2 :=
        set_saida_ledModo (negb (modoAutomatico s))
          (set_modoAutomatico (negb (modoAutomatico s)) s1) in
      if negb (modoAutomatico s)
      then set_serial (serial s ++ [MsgSistemaLigado]) s2
      else exec desligarBomba
             (set_serial (serial s ++ [MsgSistemaPronto]) s2)
    else s1.
Proof.
  unfold alternarModo, modoAlternado, exec.
  rewrite run_bind, verificarBotao_poll. cbn [fst snd].
  destruct (poll (botaoModo s) (leituraBotao e) (agoraBotao e))
    as [[st lr ts] b].
  destruct s as [? ? ? ? ? ? modo lig ? ? ? ? ? ? ? ? ? ? ? ?].
  destruct b, st, modo, lig; cbv; reflexivity.
Qed.

Lemma exec_calibracaoManual (e : Entrada) (s : Estado) :
  exec (calibracaoManual sqrtf adc e) s
  = let s1 :=
      guardarBotaoCalibracao
        (fst (poll (botaoCalibracao s) (leituraBotaoCalib e)
                (agoraBotaoCalib e))) s in
    if calibracaoPedida s e then exec (autoCalibrar sqrtf adc) s1 else s1.
Proof.
  unfold calibracaoManual, calibracaoPedida, exec.
  rewrite run_bind, verificarBotaoCalib_poll. cbn [fst snd].
  destruct (poll (botaoCalibracao s) (leituraBotaoCalib e)
              (agoraBotaoCalib e)) as [[st lr ts] b].
  rewrite run_bind, run_gets. cbn [fst snd].
  destruct s. cbn [stableLevel guardarBotaoCalibracao
                     estadoBotaoCalibEstavel set_estadoBotaoCalibEstavel].
  destruct (b && eqb st LOW); reflexivity.
Qed.

Lemma exec_cicloAutomatico_inativo (e : Entrada) (s : Estado) :
  modoAutomatico s = false -> exec (cicloAutomatico sqrtf adc e) s = s.
Proof.
  intros H. unfold cicloAutomatico, exec.
  rewrite run_bind, run_gets. cbn [fst snd]. rewrite H.
  rewrite run_bind, run_ret. cbn [fst snd andb]. rewrite run_ret.
  reflexivity.
Qed.

(** The second and third stanzas never assign [modoAutomatico]. *)
Lemma modo_calibracaoManual (e : Entrada) (s : Estado) :
  modoAutomatico (exec (calibracaoManual sqrtf adc e) s) = modoAutomatico s.
Proof.
  apply (mantem_calibracaoManual_de
           (fun s' => modoAutomatico s' = modoAutomatico s));
    try campo_alheio; [|reflexivity].
  apply mantem_autoCalibrar; campo_alheio.
Qed.

Lemma modo_cicloAutomatico (e : Entrada) (s : Estado) :
  modoAutomatico (exec (cicloAutomatico sqrtf adc e) s) = modoAutomatico s.
Proof.
  apply (mantem_cicloAutomatico
           (fun s' => modoAutomatico s' = modoAutomatico s));
    try campo_alheio. reflexivity.
Qed.

(** What the first stanza leaves alone, and what it does to the mode and
    to the pump. *)
Lemma alternarModo_quadro (e : Entrada) (s : Estado) :
  estadoAtual (exec (alternarModo e) s) = estadoAtual s
  /\ estadoAnterior (exec (alternarModo e) s) = estadoAnterior s
  /\ filtroVmin (exec (alternarModo e) s) = filtroVmin s
  /\ filtroVmax (exec (alternarModo e) s) = filtroVmax s
  /\ ultimaLeitura (exec (alternarModo e) s) = ultimaLeitura s
  /\ leiturasADC (exec (alternarModo e) s) = leiturasADC s
  /\ botaoCalibracao (exec (alternarModo e) s) = botaoCalibracao s
  /\ modoAutomatico (exec (alternarModo e) s)
     = (if modoAlternado s e then negb (modoAutomatico s)
        else modoAutomatico s)
  /\ bombaLigada (exec (alternarModo e) s)
     = (if modoAlternado s e && modoAutomatico s then false
        else bombaLigada s)
  /\ saida_bombaPin (exec (alternarModo e) s)
     = (if modoAlternado s e && modoAutomatico s && bombaLigada s then LOW
        else saida_bombaPin s)
  /\ saida_Bomba (exec (alternarModo e) s)
     = (if modoAlternado s e && modoAutomatico s && bombaLigada s then LOW
        else saida_Bomba s).
Proof.
  rewrite exec_alternarModo.
  generalize (modoAlternado s e) as alternou.
  generalize (fst (poll (botaoModo s) (leituraBotao e) (agoraBotao e))) as d.
  intros [st lr ts] alternou.
  destruct s as [? ? ? ? ? ? modo lig ? ? ? ? ? ? ? ? ? ? ? ?].
  destruct alternou, modo, lig; cbv; repeat split; reflexivity.
Qed.

(** What the second stanza leaves alone, and the conversions it makes. *)
Lemma calibracaoManual_quadro (e : Entrada) (s : Estado) :
  estadoAtual (exec (calibracaoManual sqrtf adc e) s) = estadoAtual s
  /\ estadoAnterior (exec (calibracaoManual sqrtf adc e) s)
     = estadoAnterior s
  /\ filtroVmin (exec (calibracaoManual sqrtf adc e) s) = filtroVmin s
  /\ filtroVmax (exec (calibracaoManual sqrtf adc e) s) = filtroVmax s
  /\ ultimaLeitura (exec (calibracaoManual sqrtf adc e) s) = ultimaLeitura s
  /\ bombaLigada (exec (calibracaoManual sqrtf adc e) s) = bombaLigada s
  /\ saida_bombaPin (exec (calibracaoManual sqrtf adc e) s)
     = saida_bombaPin s
  /\ saida_Bomba (exec (calibracaoManual sqrtf adc e) s) = saida_Bomba s
  /\ leiturasADC (exec (calibracaoManual sqrtf adc e) s)
     = (if calibracaoPedida s e then leiturasADC s + 8000
        else leiturasADC s).
Proof.
  rewrite exec_calibracaoManual. cbv zeta.
  generalize (calibracaoPedida s e) as pedida.
  generalize (fst (poll (botaoCalibracao s) (leituraBotaoCalib e)
                     (agoraBotaoCalib e))) as d.
  intros d [|]; [rewrite exec_autoCalibrar|];
    destruct s, d; repeat split; reflexivity.
Qed.

Lemma run_tempoDecorrido_sim (intervalo agora : Z) (s : Estado) :
  intervalo <= sub_ul agora (ultimaLeitura s) ->
  runState (tempoDecorrido intervalo agora) s
  = (true, set_ultimaLeitura agora s).
Proof.
  intros H. unfold tempoDecorrido.
  rewrite run_bind, run_gets. cbn [fst snd].
  rewrite (proj2 (Z.geb_le _ _) H).
  rewrite run_bind, run_upd. cbn [fst snd]. apply run_ret.
Qed.

(** The third stanza, when it runs: two filtered readings, then the state
    update and the pump decision on a state whose well state and pump
    are still those before the stanza, then the plotter line. *)
Lemma exec_cicloAutomatico_ativo (e : Entrada) (s : Estado) :
  modoAutomatico s = true ->
  300 <= sub_ul (agoraLeitura e) (ultimaLeitura s) ->
  exists tmin tmax s0 log,
    exec (cicloAutomatico sqrtf adc e) s
    = set_serial log (exec (atualizarEstado tmin tmax ;; controlarBomba) s0)
    /\ estadoAtual s0 = estadoAtual s
    /\ bombaLigada s0 = bombaLigada s
    /\ saida_bombaPin s0 = saida_bombaPin s
    /\ saida_Bomba s0 = saida_Bomba s.
Proof.
  intros Hm Ht. unfold cicloAutomatico, exec.
  rewrite run_bind, run_gets. cbn [fst snd]. rewrite Hm.
  rewrite run_bind, (run_tempoDecorrido_sim _ _ _ Ht). cbn [fst snd andb].
  rewrite run_bind, run_gets. cbn [fst snd].
  rewrite run_bind, run_lerFiltradoComGanho. cbn [fst snd].
  rewrite run_bind, run_gets. cbn [fst snd].
  rewrite run_bind, run_lerFiltradoComGanho. cbn [fst snd].
  match goal with
  | |- context [atualizarEstado ?a ?b] => exists a, b
  end.
  match goal with
  | |- context [runState (bind (atualizarEstado _ _) _) ?st] => exists st
  end.
  rewrite run_bind, run_bind, run_bind, run_gets. cbn [fst snd].
  rewrite run_bind, run_gets. cbn [fst snd].
  rewrite run_println. cbn [snd].
  eexists. split.
  - rewrite run_bind. reflexivity.
  - destruct s; repeat split; reflexivity.
Qed.

End Laco.

(** ** The pump follows the policy *)

Lemma ciclo_bomba (s : Estado) (tmin tmax : Q) :
  bombaLigada (exec (atualizarEstado tmin tmax ;; controlarBomba) s)
  = bombaDeveLigar
      (estadoAtual (exec (atualizarEstado tmin tmax ;; controlarBomba) s))
  /\ (coerente s ->
      coerente (exec (atualizarEstado tmin tmax ;; controlarBomba) s)).
Proof.
  rewrite exec_seq.
  set (s1 := exec (atualizarEstado tmin tmax) s).
  destruct (controlarBomba_flag s1) as [Hf He].
  split; [rewrite He; exact Hf|].
  intros Hs.
  destruct (atualizarEstado_bomba s tmin tmax) as (Hl & Hp & Hb).
  fold s1 in Hl, Hp, Hb.
  apply controlarBomba_coerente.
  unfold coerente in *. intuition congruence.
Qed.

(** C1. After a cycle (state update, then pump decision) the pump flag is
    the policy's decision for the current state, whatever the pump was
    before: off in both fault states, on exactly for a full or draining
    well, off for an empty or filling one.  When the outputs mirrored the
    flag before the cycle, both pump outputs carry that decision too.
    The same holds after the sampling stanza of [loop] whenever it runs. *)
Theorem bomba_segue_politica :
  (forall s tmin tmax,
      let s' := exec (atualizarEstado tmin tmax ;; controlarBomba) s in
      bombaLigada s' = bombaDeveLigar (estadoAtual s')
      /\ (estadoAtual s' = SENSOR_FALHA \/ estadoAtual s' = FALHA_ELETRICA ->
          bombaLigada s' = false)
      /\ (estadoAtual s' = POCO_CHEIO \/ estadoAtual s' = POCO_DESCENDO ->
          bombaLigada s' = true)
      /\ (estadoAtual s' = POCO_VAZIO \/ estadoAtual s' = POCO_ENCHENDO ->
          bombaLigada s' = false)
      /\ (coerente s ->
          saida_bombaPin s' = bombaDeveLigar (estadoAtual s')
          /\ saida_Bomba s' = bombaDeveLigar (estadoAtual s')))
  /\ (forall sqrtf adc e s,
         modoAutomatico s = true ->
         300 <= sub_ul (agoraLeitura e) (ultimaLeitura s) ->
         let s' := exec (cicloAutomatico sqrtf adc e) s in
         bombaLigada s' = bombaDeveLigar (estadoAtual s')
         /\ (coerente s ->
             saida_bombaPin s' = bombaDeveLigar (estadoAtual s')
             /\ saida_Bomba s' = bombaDeveLigar (estadoAtual s'))).
Proof.
  split.
  - intros s tmin tmax. cbv zeta.
    destruct (ciclo_bomba s tmin tmax) as [Hd Hc].
    split; [exact Hd|].
    split; [|split; [|split]].
    + intros [H|H]; rewrite Hd, H; reflexivity.
    + intros [H|H]; rewrite Hd, H; reflexivity.
    + intros [H|H]; rewrite Hd, H; reflexivity.
    + intros Hs. destruct (Hc Hs) as [H1 H2].
      rewrite H1, H2. split; exact Hd.
  - intros sqrtf adc e s Hm Ht. cbv zeta.
    destruct (exec_cicloAutomatico_ativo sqrtf adc e s Hm Ht)
      as (tmin & tmax & s0 & log & -> & E1 & E2 & E3 & E4).
    destruct (ciclo_bomba s0 tmin tmax) as [Hd Hc].
    cbn [bombaLigada estadoAtual saida_bombaPin saida_Bomba set_serial].
    split; [exact Hd|].
    intros Hs.
    assert (Hs0 : coerente s0) by (unfold coerente in *; intuition congruence).
    destruct (Hc Hs0) as [H1 H2].
    rewrite H1, H2. split; exact Hd.
Qed.

(** Scenario C of the specification: a running pump is forced off when the
    sensors become inconsistent. *)
Lemma bomba_segue_politica_witness :
  estadoAtual (exec (atualizarEstado 5 1 ;; controlarBomba) estadoBombeando)
  = SENSOR_FALHA
  /\ bombaLigada (exec (atualizarEstado 5 1 ;; controlarBomba) estadoBombeando)
     = false
  /\ saida_bombaPin
       (exec (atualizarEstado 5 1 ;; controlarBomba) estadoBombeando)
     = false.
Proof.
  split; [reflexivity|]. split.
  - exact (proj1 (proj2 (proj1 bomba_segue_politica estadoBombeando 5%Q 1%Q))
             (or_introl eq_refl)).
  - exact (proj1 (proj2 (proj2 (proj2 (proj2
             (proj1 bomba_segue_politica estadoBombeando 5%Q 1%Q))))
             (conj eq_refl eq_refl))).
Defined.

(** Scenarios A, B and D of the specification. *)
Example cenarios_da_especificacao :
  (estadoAtual (exec (atualizarEstado 1 1 ;; controlarBomba) estadoInicial)
   = POCO_CHEIO
   /\ bombaLigada
        (exec (atualizarEstado 1 1 ;; controlarBomba) estadoInicial) = true)
  /\ (estadoAtual (exec (atualizarEstado 1 5 ;; controlarBomba)
                     estadoBombeando) = POCO_DESCENDO
      /\ exec (atualizarEstado 1 5 ;; controlarBomba) estadoBombeando
         = set_serial [MsgTensoes 1 5; MsgNivelDescendo;
                       MsgTransicao POCO_CHEIO POCO_DESCENDO]
             (set_estadoAtual POCO_DESCENDO
                (set_estadoAnterior POCO_CHEIO estadoBombeando)))
  /\ estadoAtual
       (exec (atualizarEstado 1 1 ;; controlarBomba)
          (set_estadoAtual SENSOR_FALHA estadoInicial)) = POCO_VAZIO.
Proof. repeat split; reflexivity. Qed.

(** ** The claims about the whole sketch *)

(** C6. No step of the state machine produces FALHA_ELETRICA: a step that
    ends in it started in it.  So no run of steps from the initial state
    POCO_VAZIO makes it current, and neither does any run of the sketch
    from power-on. *)
Theorem falha_eletrica_inalcancavel :
  estadoAtual estadoInicial = POCO_VAZIO
  /\ (forall s tmin tmax,
        estadoAtual (exec (atualizarEstado tmin tmax) s) = FALHA_ELETRICA ->
        estadoAtual s = FALHA_ELETRICA)
  /\ (forall vs, estadoAtual (passos vs estadoInicial) <> FALHA_ELETRICA)
  /\ (forall s vs, estadoAtual s = POCO_VAZIO ->
                   estadoAtual (passos vs s) <> FALHA_ELETRICA)
  /\ (forall sqrtf adc leitura es,
         estadoAtual (executar sqrtf adc leitura es) <> FALHA_ELETRICA).
Proof.
  split; [reflexivity|].
  split; [exact atualizarEstado_nao_produz_eletrica|].
  split; [|split].
  - intros vs. apply passos_nao_eletrica. discriminate.
  - intros s vs Hs. apply passos_nao_eletrica. rewrite Hs. discriminate.
  - intros sqrtf adc leitura es. apply naoEletrica_executar.
Qed.


Lemma sqrtInteira_nonneg (x : Q) : (0 <= x)%Q -> (0 <= sqrtInteira x)%Q.
Proof.
  intros _. unfold sqrtInteira. change 0%Q with (inject_Z 0).
  rewrite <- Zle_Qle. apply Z.sqrt_nonneg.
Qed.

Lemma adcExemplo_range (p : Pino) (k : Z) : 0 <= adcExemplo p k <= 1023.
Proof.
  unfold adcExemplo.
  pose proof (Z.mod_pos_bound k 20). pose proof (Z.mod_pos_bound k 9).
  destruct p; lia.
Qed.


(** C10 (as the code has it).  An iteration of [loop] that ends with the
    automatic mode off leaves the well state, both filter states and the
    sampling timer as they were; the pump keeps its state, except that
    the iteration that turns the mode off switches the pump off; the
    third stanza (filtered sampling, state machine, pump decision) does
    nothing.  The ADC is still used when, and only when, the calibration
    button commits a press in that iteration: the 8000 conversions of
    [autoCalibrar]. *)
Theorem loop_modo_inativo (sqrtf : Q -> Q) (adc : Pino -> Z -> Z)
        (s : Estado) (e : Entrada) :
  modoAutomatico (exec (loop sqrtf adc e) s) = false ->
  estadoAtual (exec (loop sqrtf adc e) s) = estadoAtual s
  /\ estadoAnterior (exec (loop sqrtf adc e) s) = estadoAnterior s
  /\ filtroVmin (exec (loop sqrtf adc e) s) = filtroVmin s
  /\ filtroVmax (exec (loop sqrtf adc e) s) = filtroVmax s
  /\ ultimaLeitura (exec (loop sqrtf adc e) s) = ultimaLeitura s
  /\ bombaLigada (exec (loop sqrtf adc e) s)
     = (if modoAutomatico s then false else bombaLigada s)
  /\ (modoAutomatico s = false ->
      saida_bombaPin (exec (loop sqrtf adc e) s) = saida_bombaPin s
      /\ saida_Bomba (exec (loop sqrtf adc e) s) = saida_Bomba s)
  /\ (coerente s -> coerente (exec (loop sqrtf adc e) s))
  /\ exec (loop sqrtf adc e) s
     = exec (alternarModo e ;; calibracaoManual sqrtf adc e) s
  /\ leiturasADC (exec (loop sqrtf adc e) s)
     = (if calibracaoPedida s e then leiturasADC s + 8000
        else leiturasADC s).
Proof.
  intros Hoff.
  assert (Hco : coerente s -> coerente (exec (loop sqrtf adc e) s))
    by apply coerente_loop.
  revert Hoff Hco. unfold loop. rewrite !exec_seq.
  set (s1 := exec (alternarModo e) s).
  set (s2 := exec (calibracaoManual sqrtf adc e) s1).
  intros Hoff Hco.
  rewrite modo_cicloAutomatico in Hoff.
  rewrite (exec_cicloAutomatico_inativo sqrtf adc e s2 Hoff) in *.
  assert (Hoff1 : modoAutomatico s1 = false).
  { rewrite <- Hoff. unfold s2. symmetry. apply modo_calibracaoManual. }
  destruct (alternarModo_quadro e s)
    as (A1 & A2 & A3 & A4 & A5 & A6 & A7 & A8 & A9 & A10 & A11).
  destruct (calibracaoManual_quadro sqrtf adc e s1)
    as (B1 & B2 & B3 & B4 & B5 & B6 & B7 & B8 & B9).
  fold s1 in A1, A2, A3, A4, A5, A6, A7, A8, A9, A10, A11.
  fold s2 in B1, B2, B3, B4, B5, B6, B7, B8, B9.
  assert (Hped : calibracaoPedida s1 e = calibracaoPedida s e)
    by (unfold calibracaoPedida; rewrite A7; reflexivity).
  rewrite Hoff1 in A8.
  clearbody s1 s2.
  repeat match goal with |- _ /\ _ => split end; try congruence.
  - rewrite B6, A9.
    destruct (modoAlternado s e), (modoAutomatico s);
      cbn [negb andb] in A8 |- *; congruence.
  - intros Hm. rewrite B7, B8, A10, A11, Hm.
    rewrite !andb_false_r. split; reflexivity.
  - exact Hco.
  - rewrite B9, Hped, A6. reflexivity.
Qed.

(** With the mode off and no button touched, an iteration leaves a full
    well and a running pump as they are. *)
Lemma loop_modo_inativo_witness :
  estadoAtual
    (exec (loop sqrtInteira adcExemplo (mkEntrada HIGH 100 HIGH 100 100))
       estadoBombeando) = POCO_CHEIO
  /\ bombaLigada
       (exec (loop sqrtInteira adcExemplo (mkEntrada HIGH 100 HIGH 100 100))
          estadoBombeando) = true.
Proof.
  split.
  - apply (loop_modo_inativo sqrtInteira adcExemplo estadoBombeando
             (mkEntrada HIGH 100 HIGH 100 100)).
    vm_compute. reflexivity.
  - exact (proj1 (proj2 (proj2 (proj2 (proj2 (proj2
             (loop_modo_inativo sqrtInteira adcExemplo estadoBombeando
                (mkEntrada HIGH 100 HIGH 100 100) eq_refl))))))).
Defined.

(** C10, counterexample to the claim as worded.  The automatic mode is
    off from power-on; the calibration button goes down at 100 ms and is
    committed at 151 ms.  That iteration ends with the mode still off and
    has made 8000 conversions on the sensor pins. *)
Lemma loop_modo_inativo_counterexample :
  modoAutomatico
    (executar sqrtInteira adcExemplo HIGH [mkEntrada HIGH 100 LOW 100 100])
  = false
  /\ leiturasADC
       (executar sqrtInteira adcExemplo HIGH [mkEntrada HIGH 100 LOW 100 100])
     = 0
  /\ modoAutomatico
       (exec (loop sqrtInteira adcExemplo (mkEntrada HIGH 151 LOW 151 151))
          (executar sqrtInteira adcExemplo HIGH
             [mkEntrada HIGH 100 LOW 100 100]))
     = false
  /\ leiturasADC
       (exec (loop sqrtInteira adcExemplo (mkEntrada HIGH 151 LOW 151 151))
          (executar sqrtInteira adcExemplo HIGH
             [mkEntrada HIGH 100 LOW 100 100]))
     = 8000.
Proof. vm_compute. repeat split; reflexivity. Qed.

(** ** Startup calibration *)

Lemma setup_calibrou (sqrtf : Q -> Q) (adc : Pino -> Z -> Z) (leitura : bool) :
  calibrouNoSetup (exec (setup sqrtf adc leitura) estadoInicial)
  = negb leitura
  /\ leiturasADC (exec (setup sqrtf adc leitura) estadoInicial)
     = (if leitura then 0 else 8000).
Proof.
  rewrite exec_setup. cbv zeta.
  destruct leitura; [split; reflexivity|].
  rewrite exec_autoCalibrar. cbv zeta.
  match goal with
  | |- context [mediasCalibDe sqrtf adc ?k] =>
      generalize (mediasCalibDe sqrtf adc k)
  end.
  intros m. split; reflexivity.
Qed.

(** C5 (as the code has it).  [setup] reads the mode input once, at the
    instant [t0] at which it reaches the test, and the calibration runs
    exactly when that one reading is active.  Holding the input active
    over any interval that contains [t0] is therefore enough to start it,
    but is not required: the level before and after [t0] is never looked
    at. *)
Theorem calibracao_no_setup (sqrtf : Q -> Q) (adc : Pino -> Z -> Z)
        (sinal : Z -> bool) (t0 : Z) :
  (calibrouNoSetup (exec (setup sqrtf adc (sinal t0)) estadoInicial) = true
   <-> sinal t0 = LOW)
  /\ (forall ini fim,
         ini <= t0 < fim -> mantidoAtivo sinal ini fim ->
         calibrouNoSetup (exec (setup sqrtf adc (sinal t0)) estadoInicial)
         = true)
  /\ (forall sinal',
         sinal' t0 = sinal t0 ->
         exec (setup sqrtf adc (sinal' t0)) estadoInicial
         = exec (setup sqrtf adc (sinal t0)) estadoInicial)
  /\ leiturasADC (exec (setup sqrtf adc (sinal t0)) estadoInicial)
     = (if sinal t0 then 0 else 8000).
Proof.
  destruct (setup_calibrou sqrtf adc (sinal t0)) as [Hc Hk].
  split; [|split; [|split]].
  - rewrite Hc. unfold LOW. destruct (sinal t0); cbn; split; congruence.
  - intros ini fim Ht Hm. rewrite Hc, (Hm t0 Ht). reflexivity.
  - intros sinal' ->. reflexivity.
  - exact Hk.
Qed.

(** The input held active during the first two seconds starts the
    calibration. *)
Lemma calibracao_no_setup_witness :
  calibrouNoSetup
    (exec (setup sqrtInteira adcExemplo ((fun _ => LOW) 100)) estadoInicial)
  = true.
Proof.
  apply (proj1 (proj2 (calibracao_no_setup sqrtInteira adcExemplo
                         (fun _ => LOW) 100)) 0 JANELA).
  - unfold JANELA. lia.
  - intros t _. reflexivity.
Defined.

(** C5, counterexample to the claim as worded.  The mode input is active
    only from 90 ms to 110 ms after power-on and [setup] reads it at
    100 ms: the calibration runs, although the input was not held through
    the window of 2000 ms. *)
Lemma calibracao_no_setup_counterexample :
  calibrouNoSetup
    (exec (setup sqrtInteira adcExemplo (toqueBreve 100)) estadoInicial)
  = true
  /\ 0 <= 100 < JANELA
  /\ toqueBreve 0 = HIGH
  /\ ~ mantidoAtivo toqueBreve 0 JANELA.
Proof.
  split; [vm_compute; reflexivity|].
  split; [unfold JANELA; lia|].
  split; [reflexivity|].
  intros H. specialize (H 0). unfold JANELA in H.
  assert (E : toqueBreve 0 = LOW) by (apply H; lia).
  discriminate E.
Qed.

(** ** A run of the whole sketch *)

(** Power-on without calibration, a committed press of the mode button,
    then one sampling cycle at 500 ms: both sensors read wet, the well is
    declared full and the pump is switched on. *)
Example execucao_automatica :
  modoAutomatico (executar sqrtInteira adcExemplo HIGH entradasAutomatico)
  = true
  /\ estadoAtual (executar sqrtInteira adcExemplo HIGH entradasAutomatico)
     = POCO_CHEIO
  /\ bombaLigada (executar sqrtInteira adcExemplo HIGH entradasAutomatico)
     = true
  /\ leiturasADC (executar sqrtInteira adcExemplo HIGH entradasAutomatico)
     = 1000
  /\ serial (executar sqrtInteira adcExemplo HIGH entradasAutomatico)
     = [MsgBanner; MsgSistemaLigado;
        MsgTensoes (605000 # 512000) (242000 # 512000); MsgPocoCheio;
        MsgTransicao POCO_VAZIO POCO_CHEIO; MsgBombaLigada;
        MsgPlotter (605000 # 512000) (242000 # 512000)].
Proof. vm_compute. repeat split; reflexivity. Qed.

(** * Further properties of the sketch *)

(** ** The sampling timer across the roll-over of [millis()] *)

Lemma sub_ul_rollover (T1 T2 : Z) :
  0 <= T2 - T1 < 2 ^ 32 ->
  sub_ul (T2 mod 2 ^ 32) (T1 mod 2 ^ 32) = T2 - T1.
Proof.
  intros H. unfold sub_ul.
  rewrite <- Zminus_mod. apply Z.mod_small. exact H.
Qed.

(** X1. [tempoDecorrido] measures true elapsed time even when the 32-bit
    clock rolled over between the stored reading and the current one:
    with [T1], [T2] the unwrapped times (less than 2^32 ms apart), it
    returns true exactly when [T2 - T1] reaches the interval, stores the
    current reading in that case and changes nothing otherwise. *)
Theorem tempoDecorrido_rollover (intervalo T1 T2 : Z) (s : Estado) :
  ultimaLeitura s = T1 mod 2 ^ 32 ->
  0 <= T2 - T1 < 2 ^ 32 ->
  eval (tempoDecorrido intervalo (T2 mod 2 ^ 32)) s = (intervalo <=? T2 - T1)
  /\ exec (tempoDecorrido intervalo (T2 mod 2 ^ 32)) s
     = (if intervalo <=? T2 - T1
        then set_ultimaLeitura (T2 mod 2 ^ 32) s else s).
Proof.
  intros Hu Ht. unfold eval, exec, tempoDecorrido.
  rewrite run_bind, run_gets. cbn [fst snd].
  rewrite Hu, (sub_ul_rollover T1 T2 Ht), Z.geb_leb.
  destruct (intervalo <=? T2 - T1).
  - rewrite run_bind, run_upd. cbn [fst snd]. rewrite run_ret.
    split; reflexivity.
  - rewrite run_ret. split; reflexivity.
Qed.

(** Stored reading 100 ms before the roll-over, current reading 250 ms
    after it: 350 ms have passed and the 300 ms timer fires. *)
Lemma tempoDecorrido_rollover_witness :
  eval (tempoDecorrido 300 ((2 ^ 32 + 250) mod 2 ^ 32)) estadoAntesDoRollover
  = true.
Proof.
  refine (proj1 (tempoDecorrido_rollover 300 (2 ^ 32 - 100) (2 ^ 32 + 250)
                   estadoAntesDoRollover _ _)).
  - reflexivity.
  - lia.
Defined.

(** ** Switching the pump *)

(** X2. Switching the pump is idempotent: [ligarBomba] on a running pump
    and [desligarBomba] on a stopped pump change nothing (no output is
    written, no line is logged), so doing either twice is the same as
    doing it once; from the other state they set the flag and both
    outputs and log one line. *)
Theorem bomba_idempotente :
  (forall s, bombaLigada s = true -> exec ligarBomba s = s)
  /\ (forall s, bombaLigada s = false -> exec desligarBomba s = s)
  /\ (forall s, exec ligarBomba (exec ligarBomba s) = exec ligarBomba s)
  /\ (forall s,
         exec desligarBomba (exec desligarBomba s) = exec desligarBomba s)
  /\ (forall s,
         bombaLigada s = false ->
         exec ligarBomba s
         = set_serial (serial s ++ [MsgBombaLigada]) (acionarBomba HIGH s))
  /\ (forall s,
         bombaLigada s = true ->
         exec desligarBomba s
         = set_serial (serial s ++ [MsgBombaDesligada])
             (acionarBomba LOW s)).
Proof.
  repeat match goal with |- _ /\ _ => split end.
  - intros s H. rewrite exec_ligarBomba, H. reflexivity.
  - intros s H. rewrite exec_desligarBomba, H. reflexivity.
  - intros s. rewrite !exec_ligarBomba.
    destruct (bombaLigada s) eqn:E; [rewrite E; reflexivity|reflexivity].
  - intros s. rewrite !exec_desligarBomba.
    destruct (bombaLigada s) eqn:E; [reflexivity|rewrite E; reflexivity].
  - intros s H. rewrite exec_ligarBomba, H. reflexivity.
  - intros s H. rewrite exec_desligarBomba, H. reflexivity.
Qed.

Lemma bomba_idempotente_witness :
  exec ligarBomba estadoBombeando = estadoBombeando
  /\ exec desligarBomba estadoInicial = estadoInicial.
Proof.
  split.
  - exact (proj1 bomba_idempotente estadoBombeando eq_refl).
  - exact (proj1 (proj2 bomba_idempotente) estadoInicial eq_refl).
Defined.

(** X3. [controlarBomba] does nothing at all when the pump flag already
    agrees with the policy for the current state, so a second call right
    after a first one has no effect: a well whose state holds produces no
    actuator write and no pump line, cycle after cycle. *)
Theorem controlarBomba_sem_efeito :
  (forall s,
      bombaLigada s = bombaDeveLigar (estadoAtual s) ->
      exec controlarBomba s = s)
  /\ (forall s,
         exec controlarBomba (exec controlarBomba s) = exec controlarBomba s).
Proof.
  assert (H1 : forall s, bombaLigada s = bombaDeveLigar (estadoAtual s) ->
                         exec controlarBomba s = s).
  { intros s H. rewrite exec_controlarBomba.
    destruct (bombaDeveLigar (estadoAtual s)).
    - rewrite exec_ligarBomba, H. reflexivity.
    - rewrite exec_desligarBomba, H. reflexivity. }
  split; [exact H1|].
  intros s. apply H1.
  destruct (controlarBomba_flag s) as [Hf He]. rewrite He. exact Hf.
Qed.

Lemma controlarBomba_sem_efeito_witness :
  exec controlarBomba estadoBombeando = estadoBombeando.
Proof.
  exact (proj1 controlarBomba_sem_efeito estadoBombeando eq_refl).
Defined.

(** ** What the state machine reports and decides *)

(** X4. [atualizarEstado] logs the voltages first and records the state
    it started from in [estadoAnterior]; it writes a transition line,
    naming the old and the new state, exactly when the state changed on
    the table path.  On the fault path it returns before that report, so
    entering SENSOR_FALHA never produces a transition line. *)
Theorem atualizarEstado_relato (s : Estado) (tmin tmax : Q) :
  estadoAnterior (exec (atualizarEstado tmin tmax) s) = estadoAtual s
  /\ exists msgs,
      serial (exec (atualizarEstado tmin tmax) s)
      = serial s ++ MsgTensoes tmin tmax :: msgs
      /\ filter ehTransicao msgs
         = if negb (molhado tmin) && molhado tmax then []
           else if EstadoPoco_eqb
                     (estadoAtual (exec (atualizarEstado tmin tmax) s))
                     (estadoAtual s)
                then []
                else [MsgTransicao (estadoAtual s)
                        (estadoAtual (exec (atualizarEstado tmin tmax) s))].
Proof.
  unfold molhado.
  destruct s as [? ? ? ? ? ? ? lig atual ? ? ? ? ? ? ? ? ? ? log].
  unfold exec, atualizarEstado; cbn.
  destruct atual, (Qle_bool tmin LIMITE_MOLHADO),
    (Qle_bool tmax LIMITE_MOLHADO); cbn;
    (split; [reflexivity|]); eexists;
    (split; [rewrite <- ?app_assoc; cbn [app]; reflexivity | reflexivity]).
Qed.

(** X5. The pump after a cycle, as a function of the two sensors and of
    the state before: it runs exactly when the lower sensor is wet and
    either the upper one is wet too (from any state that is not a fault
    state) or the well was already full or draining.  So the pump never
    runs with the lower sensor dry, it starts only with both sensors wet,
    and a cycle that starts in SENSOR_FALHA never starts it. *)
Theorem bomba_apos_ciclo :
  (forall s tmin tmax,
      bombaLigada (exec (atualizarEstado tmin tmax ;; controlarBomba) s)
      = molhado tmin
        && (if molhado tmax then ehNivel (estadoAtual s)
            else bombaDeveLigar (estadoAtual s)))
  /\ (forall s tmin tmax,
         bombaLigada (exec (atualizarEstado tmin tmax ;; controlarBomba) s)
         = true ->
         molhado tmin = true)
  /\ (forall s tmin tmax,
         bombaDeveLigar (estadoAtual s) = false ->
         bombaLigada (exec (atualizarEstado tmin tmax ;; controlarBomba) s)
         = true ->
         molhado tmin = true /\ molhado tmax = true)
  /\ (forall s tmin tmax,
         estadoAtual s = SENSOR_FALHA ->
         bombaLigada (exec (atualizarEstado tmin tmax ;; controlarBomba) s)
         = false).
Proof.
  assert (H : forall s tmin tmax,
             bombaLigada (exec (atualizarEstado tmin tmax ;; controlarBomba) s)
             = molhado tmin
               && (if molhado tmax then ehNivel (estadoAtual s)
                   else bombaDeveLigar (estadoAtual s))).
  { intros s tmin tmax.
    destruct (ciclo_bomba s tmin tmax) as [-> _].
    rewrite exec_seq.
    destruct (controlarBomba_flag (exec (atualizarEstado tmin tmax) s))
      as [_ ->].
    destruct (exec_atualizarEstado tmin tmax s) as [log ->].
    cbn [estadoAtual set_serial set_estadoAtual].
    destruct (estadoAtual s), (molhado tmin), (molhado tmax); reflexivity. }
  split; [exact H|]. split; [|split].
  - intros s tmin tmax. rewrite H. intros E.
    apply andb_true_iff in E. apply E.
  - intros s tmin tmax Hoff. rewrite H, Hoff. intros E.
    apply andb_true_iff in E. destruct E as [E1 E2].
    split; [exact E1|]. destruct (molhado tmax); [reflexivity|discriminate].
  - intros s tmin tmax Hs. rewrite H, Hs.
    destruct (molhado tmin), (molhado tmax); reflexivity.
Qed.

(** A draining well keeps the pump on while the lower sensor is wet. *)
Lemma bomba_apos_ciclo_witness :
  bombaLigada
    (exec (atualizarEstado 1 5 ;; controlarBomba)
       (set_estadoAtual POCO_DESCENDO estadoBombeando)) = true
  /\ molhado 1 = true.
Proof.
  split; [reflexivity|].
  apply (proj1 (proj2 bomba_apos_ciclo)
           (set_estadoAtual POCO_DESCENDO estadoBombeando) 1%Q 5%Q).
  reflexivity.
Defined.

(** X6. The next state is decided by the sensors alone, except for the
    reading (wet, dry): SENSOR_FALHA is current after a step exactly when
    that step read (dry, wet), so the fault is not latched; (dry, dry)
    gives POCO_VAZIO and (wet, wet) gives POCO_CHEIO from every state of
    the level cycle; only (wet, dry) depends on the past, and
    POCO_DESCENDO is entered from POCO_CHEIO alone, POCO_ENCHENDO from
    POCO_VAZIO alone. *)
Theorem estado_pelos_sensores :
  (forall s tmin tmax,
      estadoAtual (exec (atualizarEstado tmin tmax) s) = SENSOR_FALHA
      <-> (molhado tmin = false /\ molhado tmax = true))
  /\ (forall s tmin tmax,
         ehNivel (estadoAtual s) = true ->
         molhado tmin = false -> molhado tmax = false ->
         estadoAtual (exec (atualizarEstado tmin tmax) s) = POCO_VAZIO)
  /\ (forall s tmin tmax,
         ehNivel (estadoAtual s) = true ->
         molhado tmin = true -> molhado tmax = true ->
         estadoAtual (exec (atualizarEstado tmin tmax) s) = POCO_CHEIO)
  /\ (forall s tmin tmax,
         estadoAtual (exec (atualizarEstado tmin tmax) s) = POCO_DESCENDO ->
         (estadoAtual s = POCO_CHEIO \/ estadoAtual s = POCO_DESCENDO)
         /\ molhado tmin = true /\ molhado tmax = false)
  /\ (forall s tmin tmax,
         estadoAtual (exec (atualizarEstado tmin tmax) s) = POCO_ENCHENDO ->
         (estadoAtual s = POCO_VAZIO \/ estadoAtual s = POCO_ENCHENDO)
         /\ molhado tmin = true /\ molhado tmax = false).
Proof.
  assert (H : forall s tmin tmax,
             estadoAtual (exec (atualizarEstado tmin tmax) s)
             = proximoEstado (estadoAtual s) (molhado tmin) (molhado tmax)).
  { intros s tmin tmax.
    destruct (exec_atualizarEstado tmin tmax s) as [log ->]. reflexivity. }
  repeat match goal with |- _ /\ _ => split end;
    intros s tmin tmax; rewrite H;
    destruct (estadoAtual s), (molhado tmin), (molhado tmax); cbn;
    intuition (try discriminate; try reflexivity).
Qed.

(** From a full well, dry readings on both sensors give POCO_VAZIO. *)
Lemma estado_pelos_sensores_witness :
  estadoAtual (exec (atualizarEstado 5 5) estadoBombeando) = POCO_VAZIO.
Proof.
  apply (proj1 (proj2 estado_pelos_sensores) estadoBombeando 5%Q 5%Q);
    reflexivity.
Defined.

(** ** The voltage sampler *)

Section AmostragemExtra.

Variable sqrtf : Q -> Q.
Variable adc : Pino -> Z -> Z.
Hypothesis adc_range : forall p k, 0 <= adc p k <= 1023.

Lemma somaADC_limites (pino : Pino) (n : nat) :
  forall k, 0 <= somaADC adc pino k n <= 1023 * Z.of_nat n.
Proof.
  induction n as [|n IH]; intros k; cbn [somaADC].
  - lia.
  - pose proof (adc_range pino k). specialize (IH (k + 1)). lia.
Qed.

Lemma somaLeiturasDe_somaADC (pino : Pino) (n : nat) :
  forall k somaLeit,
    0 <= somaLeit ->
    somaLeit + 1023 * Z.of_nat n < 2 ^ 31 ->
    somaLeiturasDe adc n pino k somaLeit = somaLeit + somaADC adc pino k n.
Proof.
  induction n as [|n IH]; intros k somaLeit H0 H1;
    cbn [somaLeiturasDe somaADC].
  - lia.
  - pose proof (adc_range pino k) as Hr.
    rewrite wrap_long_id by lia.
    rewrite IH by lia. lia.
Qed.

End AmostragemExtra.

(** X7. One call of [lerTensaoAC_RMS_comOffset] makes exactly 500
    conversions and changes nothing else of the state, whatever value it
    returns.  With conversions in 0..1023 the [long] accumulator of its
    first loop cannot wrap: after the 250 iterations it holds the true
    sum of the 250 samples, a number between 0 and 255750, and the second
    loop starts at the 251st conversion. *)
Theorem lerTensaoAC_RMS_comOffset_amostragem (sqrtf : Q -> Q)
        (adc : Pino -> Z -> Z) :
  (forall p k, 0 <= adc p k <= 1023) ->
  forall pino s,
    exec (lerTensaoAC_RMS_comOffset sqrtf adc pino) s
    = set_leiturasADC (leiturasADC s + 500) s
    /\ runState (somaLeituras adc amostras pino 0) s
       = (somaADC adc pino (leiturasADC s) 250,
          set_leiturasADC (leiturasADC s + 250) s)
    /\ 0 <= somaADC adc pino (leiturasADC s) 250 <= 255750.
Proof.
  intros Hadc pino s. split; [|split].
  - unfold exec. rewrite run_lerTensaoAC_RMS_comOffset. reflexivity.
  - rewrite run_somaLeituras.
    rewrite (somaLeiturasDe_somaADC adc Hadc)
      by (change (Z.of_nat amostras) with 250; lia).
    reflexivity.
  - pose proof (somaADC_limites adc Hadc pino 250 (leiturasADC s)) as H.
    change (Z.of_nat 250) with 250 in H. lia.
Qed.

Lemma lerTensaoAC_RMS_comOffset_amostragem_witness :
  leiturasADC
    (exec (lerTensaoAC_RMS_comOffset sqrtInteira adcExemplo sensorMin)
       estadoInicial) = 500.
Proof.
  rewrite (proj1 (lerTensaoAC_RMS_comOffset_amostragem sqrtInteira adcExemplo
                    adcExemplo_range sensorMin estadoInicial)).
  reflexivity.
Defined.

Lemma trunc_long_zero (x : Q) : (x == 0)%Q -> trunc_long x = 0.
Proof.
  intros H. unfold trunc_long.
  assert (Hle : Qle_bool 0 x = true) by (apply Qle_bool_iff; rewrite H; lra).
  rewrite Hle, H. reflexivity.
Qed.

Section SinalConstante.

Variable sqrtf : Q -> Q.
Variable adc : Pino -> Z -> Z.
Variable pino : Pino.
Variable c : Z.
Hypothesis c_range : 0 <= c <= 1023.

Lemma somaLeiturasDe_constante (n : nat) :
  forall k somaLeit,
    (forall i, k <= i < k + Z.of_nat n -> adc pino i = c) ->
    0 <= somaLeit ->
    somaLeit + 1023 * Z.of_nat n < 2 ^ 31 ->
    somaLeiturasDe adc n pino k somaLeit = somaLeit + c * Z.of_nat n.
Proof.
  induction n as [|n IH]; intros k somaLeit Hc H0 H1; cbn [somaLeiturasDe].
  - lia.
  - rewrite (Hc k) by lia.
    rewrite wrap_long_id by lia.
    rewrite IH; [lia| |lia|lia].
    intros i Hi. apply Hc. lia.
Qed.

Lemma somaQuadradosDe_constante (offset : Q) (n : nat) :
  (offset == inject_Z c)%Q ->
  forall k somaQ,
    (forall i, k <= i < k + Z.of_nat n -> adc pino i = c) ->
    somaQuadradosDe adc n pino offset k somaQ = wrap_long_n n somaQ.
Proof.
  intros Ho.
  induction n as [|n IH]; intros k somaQ Hc;
    cbn [somaQuadradosDe wrap_long_n].
  - reflexivity.
  - cbv zeta. rewrite (Hc k) by lia.
    rewrite trunc_long_zero by (rewrite Ho; ring).
    rewrite Z.add_0_r. apply IH.
    intros i Hi. apply Hc. lia.
Qed.

End SinalConstante.

(** X8. Offset removal: when every conversion of a call reads the same
    level (a signal with no alternating part), the offset is that level,
    every centred sample is zero and the sum of squares is 0; with a
    square root that maps zero to zero the call returns 0 V, whatever the
    level is. *)
Theorem lerTensaoAC_RMS_comOffset_constante (sqrtf : Q -> Q)
        (adc : Pino -> Z -> Z) (pino : Pino) (c : Z) (s : Estado) :
  0 <= c <= 1023 ->
  (forall i, leiturasADC s <= i < leiturasADC s + 500 -> adc pino i = c) ->
  (forall x : Q, (x == 0)%Q -> (sqrtf x == 0)%Q) ->
  (offsetDe adc pino (leiturasADC s) == inject_Z c)%Q
  /\ somaQuadradosDe adc amostras pino (offsetDe adc pino (leiturasADC s))
       (leiturasADC s + 250) 0 = 0
  /\ (eval (lerTensaoAC_RMS_comOffset sqrtf adc pino) s == 0)%Q.
Proof.
  intros Hc Hconst Hsqrt.
  set (k := leiturasADC s) in *.
  assert (Ho : (offsetDe adc pino k == inject_Z c)%Q).
  { unfold offsetDe.
    rewrite (somaLeiturasDe_constante adc pino c Hc amostras k 0);
      [| intros i Hi; apply Hconst;
         change (Z.of_nat amostras) with 250 in Hi; lia
       | lia
       | change (Z.of_nat amostras) with 250; lia].
    change (Z.of_nat amostras) with 250. rewrite Z.add_0_l.
    rewrite inject_Z_mult. change (inject_Z 250) with 250%Q. field. }
  assert (Hq : somaQuadradosDe adc amostras pino (offsetDe adc pino k)
                 (k + 250) 0 = 0).
  { rewrite (somaQuadradosDe_constante adc pino c (offsetDe adc pino k)
               amostras Ho (k + 250) 0).
    - reflexivity.
    - intros i Hi. apply Hconst.
      change (Z.of_nat amostras) with 250 in Hi. lia. }
  split; [exact Ho|]. split; [exact Hq|].
  unfold eval. rewrite run_lerTensaoAC_RMS_comOffset. cbn [fst].
  fold k. unfold tensaoRMS. cbv zeta. rewrite Hq.
  rewrite (Hsqrt (inject_Z 0 / inject_Z (Z.of_nat amostras))%Q)
    by reflexivity.
  reflexivity.
Qed.

Lemma sqrtInteira_zero (x : Q) : (x == 0)%Q -> (sqrtInteira x == 0)%Q.
Proof. intros H. unfold sqrtInteira. rewrite H. reflexivity. Qed.

(** An ADC stuck at mid-scale reads 0 V. *)
Lemma lerTensaoAC_RMS_comOffset_constante_witness :
  (eval (lerTensaoAC_RMS_comOffset sqrtInteira adcConstante sensorMin)
     estadoInicial == 0)%Q.
Proof.
  apply (lerTensaoAC_RMS_comOffset_constante sqrtInteira adcConstante
           sensorMin 512 estadoInicial).
  - lia.
  - intros i _. reflexivity.
  - exact sqrtInteira_zero.
Defined.

(** ** Calibration *)

(** X10. [autoCalibrar] makes exactly 8000 conversions (8 rounds of two
    calls of 500), assigns nothing but the two gains, and logs two lines:
    the opening one and one carrying the gains now in force.  The well
    state, both filters, the pump, the mode, the buttons and the sampling
    timer are as before. *)
Theorem autoCalibrar_quadro (sqrtf : Q -> Q) (adc : Pino -> Z -> Z)
        (s : Estado) :
  exec (autoCalibrar sqrtf adc) s
  = set_serial
      (serial s
       ++ [MsgIniciandoCalib;
           MsgAutocalibrado (ganhoMin (exec (autoCalibrar sqrtf adc) s))
             (ganhoMax (exec (autoCalibrar sqrtf adc) s))])
      (set_ganhoMax (ganhoMax (exec (autoCalibrar sqrtf adc) s))
         (set_ganhoMin (ganhoMin (exec (autoCalibrar sqrtf adc) s))
            (set_leiturasADC (leiturasADC s + 8000) s)))
  /\ leiturasADC (exec (autoCalibrar sqrtf adc) s) = leiturasADC s + 8000
  /\ estadoAtual (exec (autoCalibrar sqrtf adc) s) = estadoAtual s
  /\ filtroVmin (exec (autoCalibrar sqrtf adc) s) = filtroVmin s
  /\ filtroVmax (exec (autoCalibrar sqrtf adc) s) = filtroVmax s
  /\ bombaLigada (exec (autoCalibrar sqrtf adc) s) = bombaLigada s
  /\ modoAutomatico (exec (autoCalibrar sqrtf adc) s) = modoAutomatico s.
Proof.
  rewrite exec_autoCalibrar. cbv zeta.
  generalize (mediasCalibDe sqrtf adc (leiturasADC s)). intros m.
  generalize (ganhoCalibrado (fst m) (snd m) (fst m) (ganhoMin s)).
  generalize (ganhoCalibrado (fst m) (snd m) (snd m) (ganhoMax s)).
  intros gmax gmin.
  destruct s; repeat split; reflexivity.
Qed.

(** ** The sampling stanza, case by case *)

Section CicloExplicito.

Variable sqrtf : Q -> Q.
Variable adc : Pino -> Z -> Z.

Lemma run_tempoDecorrido_nao (intervalo agora : Z) (s : Estado) :
  (intervalo <=? sub_ul agora (ultimaLeitura s)) = false ->
  runState (tempoDecorrido intervalo agora) s = (false, s).
Proof.
  intros H. unfold tempoDecorrido.
  rewrite run_bind, run_gets. cbn [fst snd].
  rewrite Z.geb_leb, H. apply run_ret.
Qed.

Lemma exec_cicloAutomatico_parado (e : Entrada) (s : Estado) :
  cicloRoda s e = false -> exec (cicloAutomatico sqrtf adc e) s = s.
Proof.
  unfold cicloRoda. intros H.
  destruct (modoAutomatico s) eqn:Hm.
  - cbn [andb] in H. unfold cicloAutomatico, exec.
    rewrite run_bind, run_gets. cbn [fst snd]. rewrite Hm.
    rewrite run_bind, (run_tempoDecorrido_nao _ _ _ H).
    cbn [fst snd andb]. rewrite run_ret. reflexivity.
  - apply exec_cicloAutomatico_inativo, Hm.
Qed.

Lemma exec_cicloAutomatico_explicito (e : Entrada) (s : Estado) :
  cicloRoda s e = true ->
  exec (cicloAutomatico sqrtf adc e) s
  = let s0 := aposLeituras sqrtf adc e s in
    let s1 :=
      exec (atualizarEstado (filtroVmin s0) (filtroVmax s0) ;; controlarBomba)
        s0 in
    set_serial (serial s1 ++ [MsgPlotter (filtroVmin s1) (filtroVmax s1)]) s1.
Proof.
  unfold cicloRoda. intros H. apply andb_true_iff in H.
  destruct H as [Hm Ht]. apply Z.leb_le in Ht.
  unfold cicloAutomatico, exec, aposLeituras.
  rewrite run_bind, run_gets. cbn [fst snd]. rewrite Hm.
  rewrite run_bind, (run_tempoDecorrido_sim _ _ _ Ht). cbn [fst snd andb].
  rewrite run_bind, run_gets. cbn [fst snd].
  rewrite run_bind, run_lerFiltradoComGanho. cbn [fst snd].
  rewrite run_bind, run_gets. cbn [fst snd].
  rewrite run_bind, run_lerFiltradoComGanho. cbn [fst snd].
  rewrite run_bind, run_bind, run_bind, run_gets. cbn [fst snd].
  rewrite run_bind, run_gets. cbn [fst snd].
  rewrite run_println. cbn [snd]. cbv zeta.
  rewrite (run_bind (atualizarEstado _ _)).
  cbn [leiturasADC set_ultimaLeitura set_leiturasADC assign deref
         ganhoMin ganhoMax filtroVmin filtroVmax set_filtroVmin
         set_filtroVmax].
  replace (leiturasADC s + 500 + 500) with (leiturasADC s + 1000) by lia.
  set (t1 := tensaoRMS sqrtf adc sensorMin (leiturasADC s)).
  set (t2 := tensaoRMS sqrtf adc sensorMax (leiturasADC s + 500)).
  clearbody t1 t2.
  destruct s. reflexivity.
Qed.

End CicloExplicito.

(** ** Safety invariants of every run *)

Section InvariantesDeSeguranca.

Variable sqrtf : Q -> Q.
Variable adc : Pino -> Z -> Z.

Lemma loop_stanzas (e : Entrada) (s : Estado) :
  exec (loop sqrtf adc e) s
  = exec (cicloAutomatico sqrtf adc e)
      (exec (calibracaoManual sqrtf adc e) (exec (alternarModo e) s)).
Proof. unfold loop. rewrite !exec_seq. reflexivity. Qed.

(** Fields the state update and the pump decision do not assign. *)
Lemma ciclo_preserva (P : Estado -> Prop) (tmin tmax : Q) :
  (forall l s, P s -> P (set_serial l s)) ->
  (forall v s, P s -> P (acionarBomba v s)) ->
  (forall a b s, P s ->
     P (set_estadoAtual (proximoEstado (estadoAtual s) a b)
          (set_estadoAnterior (estadoAtual s) s))) ->
  mantem P (atualizarEstado tmin tmax ;; controlarBomba).
Proof.
  intros H1 H2 H3. apply mantem_bind.
  - apply mantem_atualizarEstado; assumption.
  - intros _. apply mantem_controlarBomba; assumption.
Qed.

(** *** The indicator *)

Lemma ledEspelhaModo_alternarModo (e : Entrada) :
  mantem ledEspelhaModo (alternarModo e).
Proof.
  intros s. rewrite exec_alternarModo.
  generalize (modoAlternado s e) as alternou.
  generalize (fst (poll (botaoModo s) (leituraBotao e) (agoraBotao e))) as d.
  intros [st lr ts] alternou.
  destruct s as [? ? ? ? ? ? modo lig ? ? ? ? ? ? ? ? ? led ? ?].
  unfold ledEspelhaModo. cbn [saida_ledModo modoAutomatico]. intros ->.
  destruct alternou, modo, lig; reflexivity.
Qed.

Lemma ledEspelhaModo_loop (e : Entrada) :
  mantem ledEspelhaModo (loop sqrtf adc e).
Proof.
  unfold loop.
  apply mantem_bind; [apply ledEspelhaModo_alternarModo|intros _].
  apply mantem_bind; [|intros _].
  - apply mantem_calibracaoManual_de; try campo_alheio.
    apply mantem_autoCalibrar; campo_alheio.
  - apply mantem_cicloAutomatico; campo_alheio.
Qed.

(** *** Standby *)

Lemma paradaSegura_loop (e : Entrada) : mantem paradaSegura (loop sqrtf adc e).
Proof.
  intros s Hs. rewrite loop_stanzas.
  set (s1 := exec (alternarModo e) s).
  set (s2 := exec (calibracaoManual sqrtf adc e) s1).
  assert (H1 : paradaSegura s1).
  { destruct (alternarModo_quadro e s)
      as (_ & _ & _ & _ & _ & _ & _ & A8 & A9 & _).
    fold s1 in A8, A9. unfold paradaSegura in *.
    rewrite A8, A9.
    destruct (modoAlternado s e), (modoAutomatico s); cbn [negb andb];
      intros H; try discriminate H; try reflexivity.
    apply Hs, H. }
  assert (H2 : paradaSegura s2).
  { destruct (calibracaoManual_quadro sqrtf adc e s1)
      as (_ & _ & _ & _ & _ & B6 & _).
    fold s2 in B6. unfold paradaSegura in *.
    unfold s2 at 1. rewrite modo_calibracaoManual, B6. exact H1. }
  clearbody s1 s2.
  destruct (cicloRoda s2 e) eqn:Hr.
  - unfold paradaSegura. rewrite modo_cicloAutomatico.
    unfold cicloRoda in Hr. apply andb_true_iff in Hr.
    destruct Hr as [Hm _]. rewrite Hm. discriminate.
  - rewrite exec_cicloAutomatico_parado by exact Hr. exact H2.
Qed.

(** *** No pump without water *)

Lemma bombaSoComAgua_loop (e : Entrada) :
  mantem bombaSoComAgua (loop sqrtf adc e).
Proof.
  intros s Hs. rewrite loop_stanzas.
  set (s1 := exec (alternarModo e) s).
  set (s2 := exec (calibracaoManual sqrtf adc e) s1).
  assert (H1 : bombaSoComAgua s1).
  { destruct (alternarModo_quadro e s)
      as (A1 & _ & _ & _ & _ & _ & _ & _ & A9 & _).
    fold s1 in A1, A9. unfold bombaSoComAgua in *.
    rewrite A1, A9.
    destruct (modoAlternado s e && modoAutomatico s);
      [discriminate|exact Hs]. }
  assert (H2 : bombaSoComAgua s2).
  { destruct (calibracaoManual_quadro sqrtf adc e s1)
      as (B1 & _ & _ & _ & _ & B6 & _).
    fold s2 in B1, B6. unfold bombaSoComAgua in *.
    rewrite B1, B6. exact H1. }
  clearbody s1 s2.
  destruct (cicloRoda s2 e) eqn:Hr.
  - rewrite exec_cicloAutomatico_explicito by exact Hr. cbv zeta.
    unfold bombaSoComAgua.
    cbn [bombaLigada estadoAtual set_serial].
    intros Hb. rewrite <- (proj1 (ciclo_bomba _ _ _)). exact Hb.
  - rewrite exec_cicloAutomatico_parado by exact Hr. exact H2.
Qed.

End InvariantesDeSeguranca.

Lemma setup_repouso (sqrtf : Q -> Q) (adc : Pino -> Z -> Z) (leitura : bool) :
  modoAutomatico (exec (setup sqrtf adc leitura) estadoInicial) = false
  /\ bombaLigada (exec (setup sqrtf adc leitura) estadoInicial) = false
  /\ saida_ledModo (exec (setup sqrtf adc leitura) estadoInicial) = LOW
  /\ estadoAtual (exec (setup sqrtf adc leitura) estadoInicial) = POCO_VAZIO
  /\ filtroVmin (exec (setup sqrtf adc leitura) estadoInicial) = 0%Q
  /\ filtroVmax (exec (setup sqrtf adc leitura) estadoInicial) = 0%Q.
Proof.
  rewrite exec_setup. cbv zeta.
  destruct leitura; [repeat split; reflexivity|].
  rewrite exec_autoCalibrar. cbv zeta.
  match goal with
  | |- context [mediasCalibDe sqrtf adc ?k] =>
      generalize (mediasCalibDe sqrtf adc k)
  end.
  intros m. repeat split; reflexivity.
Qed.

(** X11. In every state of every run of the sketch, from power-on, the
    two pump outputs (pin 8 and the duplicated relay, pin 11) carry the
    same level, and that level is the flag [bombaLigada]. *)
Theorem saidas_espelham_bomba (sqrtf : Q -> Q) (adc : Pino -> Z -> Z)
        (leitura : bool) (es : list Entrada) :
  saida_bombaPin (executar sqrtf adc leitura es)
  = bombaLigada (executar sqrtf adc leitura es)
  /\ saida_Bomba (executar sqrtf adc leitura es)
     = bombaLigada (executar sqrtf adc leitura es)
  /\ saida_bombaPin (executar sqrtf adc leitura es)
     = saida_Bomba (executar sqrtf adc leitura es).
Proof.
  destruct (coerente_executar sqrtf adc leitura es) as [H1 H2].
  split; [exact H1|]. split; [exact H2|]. rewrite H1, H2. reflexivity.
Qed.

(** X12. In every state of every run the mode indicator (pin 12) shows
    exactly whether the automatic mode is on. *)
Theorem led_espelha_modo (sqrtf : Q -> Q) (adc : Pino -> Z -> Z)
        (leitura : bool) (es : list Entrada) :
  saida_ledModo (executar sqrtf adc leitura es)
  = modoAutomatico (executar sqrtf adc leitura es).
Proof.
  apply (executar_invariante ledEspelhaModo);
    [|apply ledEspelhaModo_loop].
  destruct (setup_repouso sqrtf adc leitura) as (H1 & _ & H3 & _).
  unfold ledEspelhaModo. rewrite H1, H3. reflexivity.
Qed.

(** X13. Standby is safe: in every state of every run in which the
    automatic mode is off, the pump flag is off and both pump outputs
    are low. *)
Theorem bomba_parada_fora_do_automatico (sqrtf : Q -> Q)
        (adc : Pino -> Z -> Z) (leitura : bool) (es : list Entrada) :
  modoAutomatico (executar sqrtf adc leitura es) = false ->
  bombaLigada (executar sqrtf adc leitura es) = false
  /\ saida_bombaPin (executar sqrtf adc leitura es) = LOW
  /\ saida_Bomba (executar sqrtf adc leitura es) = LOW.
Proof.
  intros Hm.
  assert (Hp : paradaSegura (executar sqrtf adc leitura es)).
  { apply executar_invariante; [|apply paradaSegura_loop].
    intros _. apply setup_repouso. }
  destruct (coerente_executar sqrtf adc leitura es) as [H1 H2].
  rewrite H1, H2, (Hp Hm). repeat split; reflexivity.
Qed.

(** Power-on followed by a manual calibration: the mode was never turned
    on and the pump is off. *)
Lemma bomba_parada_fora_do_automatico_witness :
  bombaLigada (executar sqrtInteira adcExemplo HIGH entradasCalibracao)
  = false.
Proof.
  refine (proj1 (bomba_parada_fora_do_automatico sqrtInteira adcExemplo
                   HIGH entradasCalibracao _)).
  vm_compute. reflexivity.
Defined.

(** X14. No pump without water: in every state of every run in which the
    pump is on, the well state is POCO_CHEIO or POCO_DESCENDO.  (The
    converse fails by design: turning the automatic mode off stops the
    pump and leaves the well state alone.) *)
Theorem bomba_so_com_agua (sqrtf : Q -> Q) (adc : Pino -> Z -> Z)
        (leitura : bool) (es : list Entrada) :
  bombaLigada (executar sqrtf adc leitura es) = true ->
  estadoAtual (executar sqrtf adc leitura es) = POCO_CHEIO
  \/ estadoAtual (executar sqrtf adc leitura es) = POCO_DESCENDO.
Proof.
  intros Hb.
  assert (Hp : bombaSoComAgua (executar sqrtf adc leitura es)).
  { apply executar_invariante; [|apply bombaSoComAgua_loop].
    intros H. destruct (setup_repouso sqrtf adc leitura) as (_ & H2 & _).
    rewrite H2 in H. discriminate H. }
  specialize (Hp Hb).
  destruct (estadoAtual (executar sqrtf adc leitura es));
    try discriminate Hp; [left|right]; reflexivity.
Qed.

Lemma bomba_so_com_agua_witness :
  estadoAtual (executar sqrtInteira adcExemplo HIGH entradasAutomatico)
  = POCO_CHEIO
  \/ estadoAtual (executar sqrtInteira adcExemplo HIGH entradasAutomatico)
     = POCO_DESCENDO.
Proof.
  apply (bomba_so_com_agua sqrtInteira adcExemplo HIGH entradasAutomatico).
  vm_compute. reflexivity.
Defined.

(** ** What one sampling cycle does to the filters *)

Lemma ciclo_campos (tmin tmax : Q) (s0 : Estado) :
  filtroVmin (exec (atualizarEstado tmin tmax ;; controlarBomba) s0)
  = filtroVmin s0
  /\ filtroVmax (exec (atualizarEstado tmin tmax ;; controlarBomba) s0)
     = filtroVmax s0
  /\ ganhoMin (exec (atualizarEstado tmin tmax ;; controlarBomba) s0)
     = ganhoMin s0
  /\ ganhoMax (exec (atualizarEstado tmin tmax ;; controlarBomba) s0)
     = ganhoMax s0
  /\ leiturasADC (exec (atualizarEstado tmin tmax ;; controlarBomba) s0)
     = leiturasADC s0
  /\ ultimaLeitura (exec (atualizarEstado tmin tmax ;; controlarBomba) s0)
     = ultimaLeitura s0.
Proof.
  repeat match goal with |- _ /\ _ => split end.
  - apply (ciclo_preserva (fun x => filtroVmin x = filtroVmin s0));
      try campo_alheio; reflexivity.
  - apply (ciclo_preserva (fun x => filtroVmax x = filtroVmax s0));
      try campo_alheio; reflexivity.
  - apply (ciclo_preserva (fun x => ganhoMin x = ganhoMin s0));
      try campo_alheio; reflexivity.
  - apply (ciclo_preserva (fun x => ganhoMax x = ganhoMax s0));
      try campo_alheio; reflexivity.
  - apply (ciclo_preserva (fun x => leiturasADC x = leiturasADC s0));
      try campo_alheio; reflexivity.
  - apply (ciclo_preserva (fun x => ultimaLeitura x = ultimaLeitura s0));
      try campo_alheio; reflexivity.
Qed.

Lemma cicloAutomatico_casos (sqrtf : Q -> Q) (adc : Pino -> Z -> Z)
      (e : Entrada) (s : Estado) :
  exec (cicloAutomatico sqrtf adc e) s = s
  \/ (filtroVmin (exec (cicloAutomatico sqrtf adc e) s)
      = filtrar (tensaoRMS sqrtf adc sensorMin (leiturasADC s) * ganhoMin s)
          (filtroVmin s)
      /\ filtroVmax (exec (cicloAutomatico sqrtf adc e) s)
         = filtrar
             (tensaoRMS sqrtf adc sensorMax (leiturasADC s + 500)
              * ganhoMax s)
             (filtroVmax s)
      /\ ganhoMin (exec (cicloAutomatico sqrtf adc e) s) = ganhoMin s
      /\ ganhoMax (exec (cicloAutomatico sqrtf adc e) s) = ganhoMax s).
Proof.
  destruct (cicloRoda s e) eqn:Hr;
    [right|left; apply exec_cicloAutomatico_parado, Hr].
  rewrite exec_cicloAutomatico_explicito by exact Hr. cbv zeta.
  cbn [filtroVmin filtroVmax ganhoMin ganhoMax set_serial].
  set (s0 := aposLeituras sqrtf adc e s).
  destruct (ciclo_campos (filtroVmin s0) (filtroVmax s0) s0)
    as (C1 & C2 & C3 & C4 & _).
  rewrite C1, C2, C3, C4.
  unfold s0, aposLeituras. destruct s; repeat split; reflexivity.
Qed.

(** X15. The sampling stanza of [loop] runs exactly when the automatic
    mode is on and at least 300 ms have passed on the 32-bit clock since
    the stored reading.  When it runs it stamps the timer with the clock
    value just read and makes exactly 1000 conversions; it touches
    neither the gains, nor the mode, nor the two debouncers.  When it
    does not run it changes nothing at all. *)
Theorem cicloAutomatico_efeito (sqrtf : Q -> Q) (adc : Pino -> Z -> Z)
        (e : Entrada) (s : Estado) :
  (cicloRoda s e = false -> exec (cicloAutomatico sqrtf adc e) s = s)
  /\ (cicloRoda s e = true ->
      ultimaLeitura (exec (cicloAutomatico sqrtf adc e) s) = agoraLeitura e
      /\ leiturasADC (exec (cicloAutomatico sqrtf adc e) s)
         = leiturasADC s + 1000
      /\ ganhoMin (exec (cicloAutomatico sqrtf adc e) s) = ganhoMin s
      /\ ganhoMax (exec (cicloAutomatico sqrtf adc e) s) = ganhoMax s
      /\ modoAutomatico (exec (cicloAutomatico sqrtf adc e) s)
         = modoAutomatico s
      /\ botaoModo (exec (cicloAutomatico sqrtf adc e) s) = botaoModo s
      /\ botaoCalibracao (exec (cicloAutomatico sqrtf adc e) s)
         = botaoCalibracao s).
Proof.
  split; [apply exec_cicloAutomatico_parado|].
  intros Hr. rewrite exec_cicloAutomatico_explicito by exact Hr. cbv zeta.
  set (s0 := aposLeituras sqrtf adc e s).
  set (tmin := filtroVmin s0). set (tmax := filtroVmax s0).
  destruct (ciclo_campos tmin tmax s0) as (_ & _ & C3 & C4 & C5 & C6).
  assert (C7 : modoAutomatico
                 (exec (atualizarEstado tmin tmax ;; controlarBomba) s0)
               = modoAutomatico s0)
    by (apply (ciclo_preserva (fun x => modoAutomatico x = modoAutomatico s0));
        try campo_alheio; reflexivity).
  assert (C8 : botaoModo
                 (exec (atualizarEstado tmin tmax ;; controlarBomba) s0)
               = botaoModo s0)
    by (apply (ciclo_preserva (fun x => botaoModo x = botaoModo s0));
        try campo_alheio; reflexivity).
  assert (C9 : botaoCalibracao
                 (exec (atualizarEstado tmin tmax ;; controlarBomba) s0)
               = botaoCalibracao s0)
    by (apply (ciclo_preserva
                 (fun x => botaoCalibracao x = botaoCalibracao s0));
        try campo_alheio; reflexivity).
  set (s3 := exec (atualizarEstado tmin tmax ;; controlarBomba) s0) in *.
  clearbody s3 tmin tmax.
  assert (E0 : ultimaLeitura s0 = agoraLeitura e
               /\ leiturasADC s0 = leiturasADC s + 1000
               /\ ganhoMin s0 = ganhoMin s /\ ganhoMax s0 = ganhoMax s
               /\ modoAutomatico s0 = modoAutomatico s
               /\ botaoModo s0 = botaoModo s
               /\ botaoCalibracao s0 = botaoCalibracao s).
  { unfold s0, aposLeituras.
    generalize (tensaoRMS sqrtf adc sensorMin (leiturasADC s)).
    generalize (tensaoRMS sqrtf adc sensorMax (leiturasADC s + 500)).
    intros t1 t2. destruct s; repeat split; reflexivity. }
  clearbody s0.
  destruct E0 as (E1 & E2 & E3 & E4 & E5 & E6 & E7).
  unfold botaoModo, botaoCalibracao in *.
  destruct s3. cbn in *.
  repeat split; congruence.
Qed.

(** The third iteration of [entradasAutomatico] is a sampling cycle. *)
Lemma cicloAutomatico_efeito_witness :
  leiturasADC
    (exec (cicloAutomatico sqrtInteira adcExemplo
             (mkEntrada LOW 500 HIGH 500 500))
       (set_modoAutomatico true estadoInicial)) = 0 + 1000.
Proof.
  refine (proj1 (proj2
            (proj2 (cicloAutomatico_efeito sqrtInteira adcExemplo
                      (mkEntrada LOW 500 HIGH 500 500)
                      (set_modoAutomatico true estadoInicial)) _))).
  reflexivity.
Defined.

(** ** The filtered voltages are never negative *)

Section FiltrosNaoNegativos.

Variable sqrtf : Q -> Q.
Variable adc : Pino -> Z -> Z.
Hypothesis sqrtf_nonneg : forall x : Q, (0 <= x)%Q -> (0 <= sqrtf x)%Q.
Hypothesis adc_range : forall p k, 0 <= adc p k <= 1023.

Lemma filtrar_nonneg (v f : Q) :
  (0 <= v)%Q -> (0 <= f)%Q -> (0 <= filtrar v f)%Q.
Proof. intros Hv Hf. unfold filtrar, alpha. lra. Qed.

Lemma sinaisOk_loop (e : Entrada) :
  mantem (fun s => ganhosPositivos s /\ filtrosNaoNegativos s)
    (loop sqrtf adc e).
Proof.
  unfold loop.
  apply mantem_bind; [apply mantem_alternarModo; campo_alheio|intros _].
  apply mantem_bind; [|intros _].
  - apply mantem_calibracaoManual_de; try campo_alheio.
    intros s [Hg Hf]. split.
    + apply ganhosPositivos_autoCalibrar; assumption.
    + rewrite exec_autoCalibrar. exact Hf.
  - intros s [[Hg1 Hg2] [Hf1 Hf2]].
    destruct (cicloAutomatico_casos sqrtf adc e s) as [->|H].
    + repeat split; assumption.
    + destruct H as (F1 & F2 & G1 & G2).
      unfold ganhosPositivos, filtrosNaoNegativos.
      rewrite F1, F2, G1, G2.
      repeat split; try assumption; apply filtrar_nonneg; try assumption;
        apply Qmult_le_0_compat;
        try (apply tensaoRMS_nonneg; assumption); lra.
Qed.

End FiltrosNaoNegativos.

(** X16. With a non-negative square root and conversions in 0..1023, the
    two filtered voltages are never negative in any state of any run: the
    filters start at 0, every reading is non-negative, every gain is
    positive, and each update is a weighted mean of the old value and the
    gained reading. *)
Theorem filtros_nunca_negativos (sqrtf : Q -> Q) (adc : Pino -> Z -> Z) :
  (forall x : Q, (0 <= x)%Q -> (0 <= sqrtf x)%Q) ->
  (forall p k, 0 <= adc p k <= 1023) ->
  forall leitura es,
    (0 <= filtroVmin (executar sqrtf adc leitura es))%Q
    /\ (0 <= filtroVmax (executar sqrtf adc leitura es))%Q.
Proof.
  intros Hsqrt Hadc leitura es.
  apply (executar_invariante
           (fun s => ganhosPositivos s /\ filtrosNaoNegativos s)).
  - split.
    + apply (ganhosPositivos_executar sqrtf adc Hsqrt Hadc leitura []).
    + destruct (setup_repouso sqrtf adc leitura)
        as (_ & _ & _ & _ & F1 & F2).
      unfold filtrosNaoNegativos. rewrite F1, F2. split; lra.
  - intros e. apply sinaisOk_loop; assumption.
Qed.

Lemma filtros_nunca_negativos_witness :
  (0 <= filtroVmin (executar sqrtInteira adcExemplo HIGH entradasAutomatico))%Q
  /\ (0 <= filtroVmax
             (executar sqrtInteira adcExemplo HIGH entradasAutomatico))%Q.
Proof.
  exact (filtros_nunca_negativos sqrtInteira adcExemplo sqrtInteira_nonneg
           adcExemplo_range HIGH entradasAutomatico).
Defined.

(** ** The mode button *)

Lemma modoAlternado_pressao (s : Estado) (e : Entrada) :
  modoAlternado s e = pressaoConfirmada s e.
Proof.
  unfold modoAlternado, pressaoConfirmada, poll, botaoModo, LOW.
  cbn [stableLevel lastRawLevel lastChangeTimestamp].
  destruct (leituraBotao e), (ultimoEstadoLido s), (estadoBotaoEstavel s);
    cbn [eqb negb andb stableLevel lastRawLevel lastChangeTimestamp];
    rewrite ?sub_ul_diag, ?Z.gtb_ltb;
    try reflexivity;
    destruct (tempoDebounce <? sub_ul (agoraBotao e) (ultimoTempoTroca s));
    reflexivity.
Qed.

Lemma alternarModo_estavel (e : Entrada) (s : Estado) :
  estadoBotaoEstavel (exec (alternarModo e) s)
  = stableLevel (fst (poll (botaoModo s) (leituraBotao e) (agoraBotao e))).
Proof.
  rewrite exec_alternarModo.
  generalize (modoAlternado s e) as alternou.
  generalize (fst (poll (botaoModo s) (leituraBotao e) (agoraBotao e))) as d.
  intros [st lr ts] alternou.
  destruct s as [? ? ? ? ? ? modo lig ? ? ? ? ? ? ? ? ? ? ? ?].
  destruct alternou, modo, lig; reflexivity.
Qed.

(** X17. The automatic mode is flipped by [loop] exactly in an iteration
    that confirms a press of the mode button: the input reads active now
    and at the previous poll, the stable level was inactive, and more
    than 50 ms passed since the raw level changed.  An iteration in which
    the button reads released never changes the mode, and the iteration
    right after a flip never flips it again, whatever it reads: a held
    button does not repeat. *)
Theorem modo_alterna_ao_pressionar (sqrtf : Q -> Q) (adc : Pino -> Z -> Z) :
  (forall s e,
      modoAutomatico (exec (loop sqrtf adc e) s)
      = xorb (modoAutomatico s) (pressaoConfirmada s e))
  /\ (forall s e,
         leituraBotao e = HIGH ->
         modoAutomatico (exec (loop sqrtf adc e) s) = modoAutomatico s)
  /\ (forall s e e',
         pressaoConfirmada s e = true ->
         modoAutomatico (exec (loop sqrtf adc e') (exec (loop sqrtf adc e) s))
         = modoAutomatico (exec (loop sqrtf adc e) s)).
Proof.
  assert (H : forall s e,
             modoAutomatico (exec (loop sqrtf adc e) s)
             = xorb (modoAutomatico s) (pressaoConfirmada s e)).
  { intros s e. rewrite loop_stanzas.
    rewrite modo_cicloAutomatico, modo_calibracaoManual.
    destruct (alternarModo_quadro e s)
      as (_ & _ & _ & _ & _ & _ & _ & A8 & _).
    rewrite A8, modoAlternado_pressao.
    destruct (pressaoConfirmada s e), (modoAutomatico s); reflexivity. }
  split; [exact H|]. split.
  - intros s e Hl. rewrite H. unfold pressaoConfirmada. rewrite Hl.
    cbn [HIGH negb andb]. apply xorb_false_r.
  - intros s e e' Hp. rewrite (H (exec (loop sqrtf adc e) s) e').
    assert (Hst : estadoBotaoEstavel (exec (loop sqrtf adc e) s) = LOW).
    { rewrite loop_stanzas.
      assert (E : estadoBotaoEstavel (exec (alternarModo e) s) = LOW).
      { rewrite alternarModo_estavel.
        rewrite <- modoAlternado_pressao in Hp. unfold modoAlternado in Hp.
        cbv zeta in Hp. apply andb_true_iff in Hp.
        destruct Hp as [_ Hp]. apply eqb_prop in Hp. exact Hp. }
      rewrite <- E.
      set (s1 := exec (alternarModo e) s).
      transitivity
        (estadoBotaoEstavel (exec (calibracaoManual sqrtf adc e) s1)).
      - apply (mantem_cicloAutomatico
                 (fun x => estadoBotaoEstavel x
                           = estadoBotaoEstavel
                               (exec (calibracaoManual sqrtf adc e) s1)));
          try campo_alheio. reflexivity.
      - apply (mantem_calibracaoManual_de
                 (fun x => estadoBotaoEstavel x = estadoBotaoEstavel s1));
          try campo_alheio; [|reflexivity].
        apply mantem_autoCalibrar; campo_alheio. }
    unfold pressaoConfirmada. rewrite Hst.
    cbn [LOW andb]. rewrite andb_false_r. cbn [andb]. apply xorb_false_r.
Qed.

(** A press first seen at 100 ms and polled again at 151 ms turns the
    mode on; the poll at 500 ms, button still down, leaves it on. *)
Lemma modo_alterna_ao_pressionar_witness :
  modoAutomatico
    (exec (loop sqrtInteira adcExemplo (mkEntrada LOW 500 HIGH 500 500))
       (exec (loop sqrtInteira adcExemplo (mkEntrada LOW 151 HIGH 151 151))
          (executar sqrtInteira adcExemplo HIGH
             [mkEntrada LOW 100 HIGH 100 100])))
  = modoAutomatico
      (exec (loop sqrtInteira adcExemplo (mkEntrada LOW 151 HIGH 151 151))
         (executar sqrtInteira adcExemplo HIGH
            [mkEntrada LOW 100 HIGH 100 100])).
Proof.
  apply (proj2 (proj2 (modo_alterna_ao_pressionar sqrtInteira adcExemplo))).
  vm_compute. reflexivity.
Defined.

(** ** The two debounced buttons *)

Lemma poll_relato (d : Debouncer) (raw : bool) (now : Z) :
  snd (poll d raw now)
  = negb (eqb (stableLevel (fst (poll d raw now))) (stableLevel d))
  /\ lastRawLevel (fst (poll d raw now)) = raw
  /\ (snd (poll d raw now) = true -> stableLevel (fst (poll d raw now)) = raw)
  /\ (raw <> lastRawLevel d -> snd (poll d raw now) = false).
Proof.
  unfold poll. destruct d as [st lr ts].
  cbn [stableLevel lastRawLevel lastChangeTimestamp].
  destruct raw, lr, st;
    cbn [eqb negb andb stableLevel lastRawLevel lastChangeTimestamp];
    rewrite ?sub_ul_diag;
    try change (0 >? tempoDebounce) with false;
    try (destruct (sub_ul now ts >? tempoDebounce));
    cbn [andb fst snd stableLevel lastRawLevel eqb negb];
    repeat split; try reflexivity; try congruence; intros; congruence.
Qed.

(** X18. Each button function touches only its own three variables, so
    the two debouncers never interfere.  Each returns true exactly when
    it changed its stable level, and then the new stable level is the
    level just read; the raw level read is always recorded; and a call
    that sees the raw level change never reports, since the window
    restarts at that call. *)
Theorem botoes_independentes :
  (forall l t s,
      exec (verificarBotao l t) s
      = guardarBotaoModo (botaoModo (exec (verificarBotao l t) s)) s
      /\ botaoCalibracao (exec (verificarBotao l t) s) = botaoCalibracao s)
  /\ (forall l t s,
         exec (verificarBotaoCalib l t) s
         = guardarBotaoCalibracao
             (botaoCalibracao (exec (verificarBotaoCalib l t) s)) s
         /\ botaoModo (exec (verificarBotaoCalib l t) s) = botaoModo s)
  /\ (forall l t s,
         eval (verificarBotao l t) s
         = negb (eqb (estadoBotaoEstavel (exec (verificarBotao l t) s))
                   (estadoBotaoEstavel s))
         /\ ultimoEstadoLido (exec (verificarBotao l t) s) = l
         /\ (eval (verificarBotao l t) s = true ->
             estadoBotaoEstavel (exec (verificarBotao l t) s) = l)
         /\ (l <> ultimoEstadoLido s ->
             eval (verificarBotao l t) s = false))
  /\ (forall l t s,
         eval (verificarBotaoCalib l t) s
         = negb (eqb (estadoBotaoCalibEstavel
                        (exec (verificarBotaoCalib l t) s))
                   (estadoBotaoCalibEstavel s))
         /\ ultimoEstadoCalibLido (exec (verificarBotaoCalib l t) s) = l
         /\ (eval (verificarBotaoCalib l t) s = true ->
             estadoBotaoCalibEstavel (exec (verificarBotaoCalib l t) s) = l)
         /\ (l <> ultimoEstadoCalibLido s ->
             eval (verificarBotaoCalib l t) s = false)).
Proof.
  split; [|split; [|split]].
  - intros l t s. unfold exec. rewrite verificarBotao_poll. cbn [snd].
    rewrite botaoModo_guardar. split; [reflexivity|].
    destruct (fst (poll (botaoModo s) l t)); reflexivity.
  - intros l t s. unfold exec. rewrite verificarBotaoCalib_poll. cbn [snd].
    rewrite botaoCalibracao_guardar. split; [reflexivity|].
    destruct (fst (poll (botaoCalibracao s) l t)); reflexivity.
  - intros l t s. unfold eval, exec. rewrite verificarBotao_poll.
    cbn [fst snd].
    destruct (poll_relato (botaoModo s) l t) as (P1 & P2 & P3 & P4).
    destruct (fst (poll (botaoModo s) l t)) as [st lr ts] eqn:E.
    cbn [stableLevel lastRawLevel] in P1, P2, P3.
    repeat split; assumption.
  - intros l t s. unfold eval, exec. rewrite verificarBotaoCalib_poll.
    cbn [fst snd].
    destruct (poll_relato (botaoCalibracao s) l t) as (P1 & P2 & P3 & P4).
    destruct (fst (poll (botaoCalibracao s) l t)) as [st lr ts] eqn:E.
    cbn [stableLevel lastRawLevel] in P1, P2, P3.
    repeat split; assumption.
Qed.

(** The first poll that sees the mode button pressed reports nothing. *)
Lemma botoes_independentes_witness :
  eval (verificarBotao LOW 100) estadoInicial = false.
Proof.
  apply (proj2 (proj2 (proj2 (proj1 (proj2 (proj2 botoes_independentes))
                                LOW 100 estadoInicial)))).
  discriminate.
Defined.

(** ** One plotter line per sampling cycle *)

Lemma semPlotter_refl (s : Estado) : semPlotter s s.
Proof. exists []. rewrite app_nil_r. split; reflexivity. Qed.

Lemma semPlotter_trans (s1 s2 s3 : Estado) :
  semPlotter s1 s2 -> semPlotter s2 s3 -> semPlotter s1 s3.
Proof.
  intros (m1 & E1 & F1) (m2 & E2 & F2). exists (m1 ++ m2).
  rewrite E2, E1, <- app_assoc, filter_app, F1, F2. split; reflexivity.
Qed.

Ltac log_cresce :=
  first
    [ exists []; split; [rewrite app_nil_r; reflexivity | reflexivity]
    | eexists; split;
      [rewrite <- ?app_assoc; cbn [app]; reflexivity | reflexivity] ].

Lemma semPlotter_atualizarEstado (tmin tmax : Q) (s : Estado) :
  semPlotter s (exec (atualizarEstado tmin tmax) s).
Proof.
  unfold semPlotter.
  destruct s as [? ? ? ? ? ? ? lig atual ? ? ? ? ? ? ? ? ? ? log].
  unfold exec, atualizarEstado; cbn.
  destruct atual, (Qle_bool tmin LIMITE_MOLHADO),
    (Qle_bool tmax LIMITE_MOLHADO); cbn; log_cresce.
Qed.

Lemma semPlotter_controlarBomba (s : Estado) :
  semPlotter s (exec controlarBomba s).
Proof.
  unfold semPlotter.
  destruct s as [? ? ? ? ? ? ? lig atual ? ? ? ? ? ? ? ? ? ? log].
  destruct atual, lig; cbn; log_cresce.
Qed.

Lemma semPlotter_alternarModo (e : Entrada) (s : Estado) :
  semPlotter s (exec (alternarModo e) s).
Proof.
  rewrite exec_alternarModo. unfold semPlotter.
  generalize (modoAlternado s e) as alternou.
  generalize (fst (poll (botaoModo s) (leituraBotao e) (agoraBotao e))) as d.
  intros [st lr ts] alternou.
  destruct s as [? ? ? ? ? ? modo lig ? ? ? ? ? ? ? ? ? ? ? log].
  destruct alternou, modo, lig; cbn; log_cresce.
Qed.

Lemma semPlotter_calibracaoManual (sqrtf : Q -> Q) (adc : Pino -> Z -> Z)
      (e : Entrada) (s : Estado) :
  semPlotter s (exec (calibracaoManual sqrtf adc e) s).
Proof.
  rewrite exec_calibracaoManual. cbv zeta. unfold semPlotter.
  generalize (calibracaoPedida s e) as pedida.
  generalize (fst (poll (botaoCalibracao s) (leituraBotaoCalib e)
                     (agoraBotaoCalib e))) as d.
  intros d [|]; [rewrite exec_autoCalibrar; cbv zeta|];
    destruct s, d; cbn [serial set_serial set_ganhoMax set_ganhoMin
                          set_leiturasADC guardarBotaoCalibracao
                          set_estadoBotaoCalibEstavel
                          set_ultimoEstadoCalibLido set_ultimoTempoCalib];
    log_cresce.
Qed.

(** X19. The serial log only grows, and an iteration of [loop] adds
    exactly one plotter line when its sampling stanza runs (automatic
    mode on after the mode stanza, 300 ms elapsed) and none otherwise;
    the line carries the two filter values in force after the
    iteration. *)
Theorem uma_linha_de_plotter_por_ciclo (sqrtf : Q -> Q)
        (adc : Pino -> Z -> Z) (e : Entrada) (s : Estado) :
  exists msgs,
    serial (exec (loop sqrtf adc e) s) = serial s ++ msgs
    /\ filter ehPlotter msgs
       = (if modoAutomatico (exec (loop sqrtf adc e) s)
             && (300 <=? sub_ul (agoraLeitura e) (ultimaLeitura s))
          then [MsgPlotter (filtroVmin (exec (loop sqrtf adc e) s))
                  (filtroVmax (exec (loop sqrtf adc e) s))]
          else []).
Proof.
  rewrite loop_stanzas.
  set (s1 := exec (alternarModo e) s).
  set (s2 := exec (calibracaoManual sqrtf adc e) s1).
  assert (H12 : semPlotter s s2).
  { apply semPlotter_trans with s1.
    - apply semPlotter_alternarModo.
    - apply semPlotter_calibracaoManual. }
  assert (Hu : ultimaLeitura s2 = ultimaLeitura s).
  { destruct (alternarModo_quadro e s) as (_ & _ & _ & _ & A5 & _).
    destruct (calibracaoManual_quadro sqrtf adc e s1)
      as (_ & _ & _ & _ & B5 & _).
    fold s1 in A5. fold s2 in B5. congruence. }
  rewrite modo_cicloAutomatico, <- Hu.
  clearbody s1 s2.
  change (modoAutomatico s2
          && (300 <=? sub_ul (agoraLeitura e) (ultimaLeitura s2)))
    with (cicloRoda s2 e).
  destruct (cicloRoda s2 e) eqn:Hr.
  - rewrite exec_cicloAutomatico_explicito by exact Hr. cbv zeta.
    set (s0 := aposLeituras sqrtf adc e s2).
    set (s3 := exec (atualizarEstado (filtroVmin s0) (filtroVmax s0) ;;
                     controlarBomba) s0).
    assert (H03 : semPlotter s0 s3).
    { unfold s3. rewrite exec_seq.
      apply semPlotter_trans
        with (exec (atualizarEstado (filtroVmin s0) (filtroVmax s0)) s0).
      - apply semPlotter_atualizarEstado.
      - apply semPlotter_controlarBomba. }
    assert (E0 : serial s0 = serial s2)
      by (unfold s0, aposLeituras; destruct s2; reflexivity).
    destruct H12 as (m1 & E1 & F1). destruct H03 as (m2 & E2 & F2).
    exists (m1 ++ m2 ++ [MsgPlotter (filtroVmin s3) (filtroVmax s3)]).
    cbn [serial filtroVmin filtroVmax set_serial].
    rewrite E2, E0, E1, <- !app_assoc. split; [reflexivity|].
    rewrite !filter_app, F1, F2. reflexivity.
  - rewrite exec_cicloAutomatico_parado by exact Hr. exact H12.
Qed.

(** ** The helper [mapFloat] *)

Lemma SFsub_diag (x : spec_float) :
  numero x = true -> SFsub prec32 emax32 x x = S754_zero false.
Proof.
  destruct x as [s|s| |s m e]; try discriminate; intros _; cbn [SFsub].
  - destruct s; reflexivity.
  - cbv zeta. rewrite Z.sub_diag. reflexivity.
Qed.

Lemma SFcompare_refl (x : spec_float) :
  numero x = true -> SFcompare x x = Some Eq.
Proof.
  destruct x as [s|s| |s m e]; try discriminate; intros _; cbn [SFcompare].
  - reflexivity.
  - rewrite Z.compare_refl, Pos.compare_cont_refl. destruct s; reflexivity.
Qed.

(** X20. [mapFloat] in binary32.  When the output span did not overflow
    and the input range is not a single point, [in_min] is sent to
    [out_min] exactly: the result compares equal to [out_min] and, for a
    non-zero [out_min], is the same datum.  When [in_max - in_min] is
    zero the result is an infinity or a NaN for every input, never a
    number. *)
Theorem mapFloat_in_min (in_min in_max out_min out_max : spec_float) :
  (numero in_min = true -> numero out_min = true ->
   numero (SFsub prec32 emax32 out_max out_min) = true ->
   naoNulo (SFsub prec32 emax32 in_max in_min) = true ->
   SFcompare (mapFloat in_min in_min in_max out_min out_max) out_min
   = Some Eq
   /\ (naoNulo out_min = true ->
       mapFloat in_min in_min in_max out_min out_max = out_min))
  /\ (forall x s,
         SFsub prec32 emax32 in_max in_min = S754_zero s ->
         numero (mapFloat x in_min in_max out_min out_max) = false).
Proof.
  split.
  - intros Hi Ho Hs Hr. unfold mapFloat.
    rewrite (SFsub_diag in_min Hi).
    destruct (SFsub prec32 emax32 out_max out_min) as [ss|ss| |ss ms es];
      try discriminate;
      destruct (SFsub prec32 emax32 in_max in_min) as [sr|sr| |sr mr er];
      try discriminate;
      cbn [SFmul SFdiv xorb];
      destruct out_min as [so|so| |so mo eo]; try discriminate;
      cbn [SFadd].
    all: split;
      [ try (apply SFcompare_refl; reflexivity);
        destruct ss, sr, so; reflexivity
      | try reflexivity; try discriminate ].
  - intros x s E. unfold mapFloat. rewrite E.
    destruct (SFmul prec32 emax32 (SFsub prec32 emax32 x in_min)
                (SFsub prec32 emax32 out_max out_min))
      as [sn|sn| |sn mn en]; cbn [SFdiv];
      destruct out_min as [so|so| |so mo eo]; cbn [SFadd numero];
      try reflexivity;
      destruct (xorb sn s), so; reflexivity.
Qed.

(** The ADC range 0..1023 mapped onto 1..5: 0 counts give exactly 1. *)
Lemma mapFloat_in_min_witness :
  mapFloat (f32_of_Z 0) (f32_of_Z 0) (f32_of_Z 1023) (f32_of_Z 1)
    (f32_of_Z 5) = f32_of_Z 1.
Proof.
  refine (proj2 (proj1 (mapFloat_in_min (f32_of_Z 0) (f32_of_Z 1023)
                          (f32_of_Z 1) (f32_of_Z 5)) _ _ _ _) _);
    reflexivity.
Defined.

(** ** Binary32: rounding to nearest *)

Lemma digits2_pos_size (p : positive) : digits2_pos p = Pos.size p.
Proof. induction p; simpl; congruence. Qed.

Lemma Zdigits2_limites (p : positive) :
  2 ^ (Zdigits2 (Zpos p) - 1) <= Zpos p < 2 ^ Zdigits2 (Zpos p).
Proof.
  change (Zdigits2 (Zpos p)) with (Zpos (digits2_pos p)).
  rewrite digits2_pos_size.
  pose proof (Pos.size_gt p) as Hg. pose proof (Pos.size_le p) as Hl.
  apply Pos2Z.pos_lt_pos in Hg. apply Pos2Z.pos_le_pos in Hl.
  rewrite Pos2Z.inj_pow in Hg, Hl.
  rewrite (Pos2Z.inj_xO p) in Hl.
  set (d := Zpos (Pos.size p)) in *.
  assert (Hs : 0 < d) by (unfold d; lia).
  assert (E : 2 ^ d = 2 * 2 ^ (d - 1)).
  { replace d with (Z.succ (d - 1)) at 1 by lia.
    rewrite Z.pow_succ_r; lia. }
  lia.
Qed.

Lemma Zdigits2_nonneg (m : Z) : 0 <= Zdigits2 m.
Proof. destruct m; simpl; lia. Qed.

Lemma Zdigits2_le (m j : Z) : 0 <= m -> 0 <= j -> m < 2 ^ j -> Zdigits2 m <= j.
Proof.
  intros Hm Hj Hlt. destruct m as [|p|p]; [simpl; lia| |lia].
  pose proof (Zdigits2_limites p) as [Hl _].
  assert (H : 2 ^ (Zdigits2 (Zpos p) - 1) < 2 ^ j) by lia.
  apply Z.pow_lt_mono_r_iff in H; lia.
Qed.

Lemma iter_pos_nat {A : Type} (f : A -> A) (p : positive) (x : A) :
  iter_pos f p x = Nat.iter (Pos.to_nat p) f x.
Proof.
  revert x. induction p as [p IH|p IH|]; intros x; cbn [iter_pos].
  - rewrite !IH, Pos2Nat.inj_xI.
    replace (S (2 * Pos.to_nat p))
      with (Pos.to_nat p + (Pos.to_nat p + 1))%nat by lia.
    rewrite !Nat.iter_add. reflexivity.
  - rewrite !IH, Pos2Nat.inj_xO.
    replace (2 * Pos.to_nat p)%nat
      with (Pos.to_nat p + Pos.to_nat p)%nat by lia.
    rewrite Nat.iter_add. reflexivity.
  - reflexivity.
Qed.

Lemma shr_nat (mrs : shr_record) (e n : Z) :
  shr mrs e n = (Nat.iter (Z.to_nat n) shr_1 mrs, e + Z.max 0 n).
Proof.
  destruct n as [|p|p]; simpl.
  - f_equal. lia.
  - rewrite iter_pos_nat. f_equal.
  - f_equal. lia.
Qed.

Lemma shr_1_campos (m : Z) (r s : bool) :
  0 <= m ->
  shr_1 (Build_shr_record m r s)
  = Build_shr_record (m / 2) (Z.odd m) (r || s).
Proof.
  intros Hm. destruct m as [|[p|p|]|p]; try lia; cbn [shr_1 Z.odd].
  - reflexivity.
  - f_equal. rewrite Pos2Z.inj_xI.
    apply Z.div_unique with 1; lia.
  - f_equal. rewrite Pos2Z.inj_xO.
    apply Z.div_unique with 0; lia.
  - reflexivity.
Qed.

(** The record after [k] one-bit shifts of an exact [m]: quotient, round
    bit and sticky bit describe [2 * m] exactly. *)
Lemma shr_iter_inv (m : Z) (k : nat) :
  0 <= m ->
  let rcd := Nat.iter k shr_1 (Build_shr_record m false false) in
  0 <= shr_m rcd
  /\ exists t,
      0 <= t < 2 ^ Z.of_nat k
      /\ 2 * m = shr_m rcd * 2 ^ (Z.of_nat k + 1)
                 + (if shr_r rcd then 2 ^ Z.of_nat k else 0) + t
      /\ (shr_s rcd = false <-> t = 0)
      /\ (k = O -> shr_r rcd = false).
Proof.
  intros Hm. induction k as [|k IH].
  - cbn [Nat.iter nat_rect shr_m shr_r shr_s Z.of_nat]. split; [lia|].
    exists 0. change (2 ^ 0) with 1. change (2 ^ (0 + 1)) with 2.
    repeat split; auto; lia.
  - cbv zeta in IH |- *. rewrite Nat.iter_succ.
    destruct IH as (Hq & t & Ht & Heq & Hs & _).
    destruct (Nat.iter k shr_1 (Build_shr_record m false false))
      as [q r s]. cbn [shr_m shr_r shr_s] in *.
    rewrite shr_1_campos by lia. cbn [shr_m shr_r shr_s].
    split; [apply Z.div_pos; lia|].
    exists ((if r then 2 ^ Z.of_nat k else 0) + t).
    rewrite Nat2Z.inj_succ.
    assert (Hp : 0 < 2 ^ Z.of_nat k) by (apply Z.pow_pos_nonneg; lia).
    assert (E1 : 2 ^ Z.succ (Z.of_nat k) = 2 * 2 ^ Z.of_nat k)
      by (rewrite Z.pow_succ_r; lia).
    assert (E2 : 2 ^ (Z.succ (Z.of_nat k) + 1) = 4 * 2 ^ Z.of_nat k).
    { replace (Z.succ (Z.of_nat k) + 1) with (Z.succ (Z.succ (Z.of_nat k))) by lia.
      rewrite !Z.pow_succ_r; lia. }
    assert (E3 : 2 ^ (Z.of_nat k + 1) = 2 * 2 ^ Z.of_nat k)
      by (rewrite Z.pow_add_r; lia).
    rewrite E1, E2. rewrite E3 in Heq.
    pose proof (Z.div_mod q 2 ltac:(lia)) as Hdm.
    pose proof (Zmod_odd q) as Hodd.
    pose proof (Z.mod_pos_bound q 2 ltac:(lia)) as Hb.
    split; [destruct r; lia|]. split.
    + destruct (Z.odd q); nia.
    + split; [|discriminate].
      destruct r; simpl.
      * split; [discriminate|lia].
      * rewrite Hs. lia.
Qed.

(** Rounding to nearest even after [k] shifts: the rounded mantissa is at
    most half a unit of the new last place away from [m]. *)
Lemma arredonda_spec (m : Z) (k : nat) :
  0 <= m ->
  let rcd := Nat.iter k shr_1 (Build_shr_record m false false) in
  let m2 := round_nearest_even (shr_m rcd) (loc_of_shr_record rcd) in
  0 <= m2
  /\ m2 * 2 ^ Z.of_nat k <= m + 2 ^ Z.of_nat k
  /\ - 2 ^ Z.of_nat k <= 2 * (m2 * 2 ^ Z.of_nat k) - 2 * m <= 2 ^ Z.of_nat k
  /\ (k = O -> m2 = m).
Proof.
  intros Hm. cbv zeta.
  destruct (shr_iter_inv m k Hm) as (Hq & t & Ht & Heq & Hs & Hr).
  destruct (Nat.iter k shr_1 (Build_shr_record m false false))
    as [q r s]. cbn [shr_m shr_r shr_s] in *.
  assert (Hp : 0 < 2 ^ Z.of_nat k) by (apply Z.pow_pos_nonneg; lia).
  assert (E3 : 2 ^ (Z.of_nat k + 1) = 2 * 2 ^ Z.of_nat k)
    by (rewrite Z.pow_add_r; lia).
  rewrite E3 in Heq.
  assert (Hk0 : k = O -> r = false /\ t = 0).
  { intros ->. split; [auto|]. simpl in Ht. lia. }
  destruct r, s; cbn [loc_of_shr_record round_nearest_even].
  - assert (t <> 0) by (intros K; apply Hs in K; discriminate).
    repeat split; try nia; intros K; destruct (Hk0 K); discriminate.
  - assert (t = 0) by (apply Hs; reflexivity). subst t.
    destruct (Z.even q); repeat split; try nia;
      intros K; destruct (Hk0 K); discriminate.
  - assert (t <> 0) by (intros K; apply Hs in K; discriminate).
    repeat split; try nia; intros K; destruct (Hk0 K); lia.
  - assert (t = 0) by (apply Hs; reflexivity). subst t.
    repeat split; try nia; intros K; subst k;
      change (2 ^ Z.of_nat 0) with 1 in *; lia.
Qed.

Lemma shr_iter_m (m : Z) (k : nat) :
  0 <= m ->
  shr_m (Nat.iter k shr_1 (Build_shr_record m false false))
  = m / 2 ^ Z.of_nat k.
Proof.
  intros Hm. destruct (shr_iter_inv m k Hm) as (Hq & t & Ht & Heq & _).
  set (q := shr_m _) in *. set (R := shr_r _) in *.
  assert (Hp : 0 < 2 ^ Z.of_nat k) by (apply Z.pow_pos_nonneg; lia).
  assert (E3 : 2 ^ (Z.of_nat k + 1) = 2 * 2 ^ Z.of_nat k)
    by (rewrite Z.pow_add_r; lia).
  rewrite E3 in Heq. set (P := 2 ^ Z.of_nat k) in *.
  apply Z.div_unique with (m - P * q); destruct R; nia.
Qed.

Lemma fexp_32 (e : Z) : fexp prec32 emax32 e = fexp32 e.
Proof. reflexivity. Qed.

Lemma binary_round_aux_exato (sx : bool) (mx : positive) (ex : Z) :
  let e1 := fexp32 (Zdigits2 (Zpos mx) + ex) in
  let k := Z.to_nat (e1 - ex) in
  exists m3 e3,
    0 <= m3 /\ ex <= e3 <= Z.max ex (e1 + 1)
    /\ binary_round_aux prec32 emax32 sx (Zpos mx) ex loc_Exact
       = montar sx m3 e3
    /\ - 2 ^ Z.of_nat k
       <= 2 * (m3 * 2 ^ (e3 - ex)) - 2 * Zpos mx
       <= 2 ^ Z.of_nat k
    /\ (e1 <= ex -> m3 = Zpos mx /\ e3 = ex).
Proof.
  cbv zeta.
  set (d := Zdigits2 (Zpos mx)).
  set (e1 := fexp32 (d + ex)). set (k := Z.to_nat (e1 - ex)).
  pose proof (arredonda_spec (Zpos mx) k ltac:(lia)) as Hr.
  cbv zeta in Hr.
  unfold binary_round_aux, shr_fexp.
  cbn [shr_record_of_loc]. rewrite !fexp_32. fold d. fold e1.
  rewrite shr_nat. fold k.
  set (rcd := Nat.iter k shr_1 (Build_shr_record (Zpos mx) false false)) in *.
  set (m2 := round_nearest_even (shr_m rcd) (loc_of_shr_record rcd)) in *.
  destruct Hr as (Hm2 & Hup & Herr & Hk0).
  cbv beta iota. rewrite ?fexp_32. rewrite shr_nat. cbv beta iota.
  set (e' := ex + Z.max 0 (e1 - ex)).
  set (k2 := Z.to_nat (fexp32 (Zdigits2 m2 + e') - e')).
  set (e2 := e' + Z.max 0 (fexp32 (Zdigits2 m2 + e') - e')).
  rewrite shr_iter_m by exact Hm2.
  assert (Hp : 0 < 2 ^ Z.of_nat k) by (apply Z.pow_pos_nonneg; lia).
  pose proof (Zdigits2_limites mx) as Hd. fold d in Hd.
  pose proof (Zdigits2_nonneg (Zpos mx)) as Hd0. fold d in Hd0.
  exists (m2 / 2 ^ Z.of_nat k2), e2.
  destruct (Z_le_gt_dec e1 ex) as [Hle|Hgt].
  - (* nothing to shift: the result is exact *)
    assert (Kz : k = O) by (unfold k; lia).
    assert (Em : m2 = Zpos mx) by auto.
    assert (Ee : e' = ex) by (unfold e'; lia).
    assert (E2 : e2 = ex).
    { unfold e2. rewrite Em, Ee. fold d. fold e1. lia. }
    assert (K2 : k2 = O).
    { unfold k2. rewrite Em, Ee. fold d. fold e1. lia. }
    rewrite K2, E2, Em, Kz.
    change (2 ^ Z.of_nat 0) with 1. rewrite Z.div_1_r.
    rewrite Z.sub_diag. change (2 ^ 0) with 1.
    repeat split; try lia.
  - (* [k > 0] bits are shifted out and the mantissa is rounded *)
    assert (Ee : e' = e1) by (unfold e'; lia).
    assert (Kk : Z.of_nat k = e1 - ex) by (unfold k; lia).
    assert (He1 : -149 <= e1 /\ d + ex - 24 <= e1)
      by (unfold e1, fexp32; lia).
    assert (Hd24 : 2 ^ d <= 2 ^ (Z.of_nat k + 24))
      by (apply Z.pow_le_mono_r; lia).
    rewrite Z.pow_add_r in Hd24 by lia.
    change (2 ^ 24) with 16777216 in Hd24.
    assert (Hm24 : m2 <= 16777216) by nia.
    destruct (Z.eq_dec m2 16777216) as [E24|N24].
    + assert (E2 : e2 = e1 + 1).
      { unfold e2. rewrite E24, Ee. unfold fexp32.
        change (Zdigits2 16777216) with 25. lia. }
      assert (K2 : k2 = 1%nat).
      { unfold k2. rewrite E24, Ee. unfold fexp32.
        change (Zdigits2 16777216) with 25. lia. }
      rewrite K2, E2, E24.
      change (16777216 / 2 ^ Z.of_nat 1) with 8388608.
      replace (e1 + 1 - ex) with (Z.of_nat k + 1) by lia.
      rewrite Z.pow_add_r by lia. change (2 ^ 1) with 2.
      rewrite E24 in Herr.
      repeat split; try lia.
    + assert (Hdig : Zdigits2 m2 <= 24)
        by (apply Zdigits2_le; [lia|lia|change (2 ^ 24) with 16777216; lia]).
      assert (E2 : e2 = e1) by (unfold e2, fexp32; rewrite Ee; lia).
      assert (K2 : k2 = O) by (unfold k2, fexp32; rewrite Ee; lia).
      rewrite K2, E2.
      change (2 ^ Z.of_nat 0) with 1. rewrite Z.div_1_r.
      rewrite <- Kk.
      repeat split; try lia.
Qed.

(** *** Values and rounding errors *)

Lemma pow2_pos (e : Z) : (0 < pow2 e)%Q.
Proof. apply Qpower_0_lt. reflexivity. Qed.

Lemma pow2_add (a b : Z) : (pow2 (a + b) == pow2 a * pow2 b)%Q.
Proof. apply Qpower_plus. discriminate. Qed.

Lemma pow2_Z (n : Z) : 0 <= n -> (pow2 n == inject_Z (2 ^ n))%Q.
Proof. intros H. unfold pow2. rewrite Zpower_Qpower by exact H. reflexivity. Qed.

Lemma pow2_le (a b : Z) : a <= b -> (pow2 a <= pow2 b)%Q.
Proof.
  intros H. replace b with (a + (b - a)) by lia.
  rewrite pow2_add, (pow2_Z (b - a)) by lia.
  assert (H1 : (1 <= inject_Z (2 ^ (b - a)))%Q).
  { change 1%Q with (inject_Z 1). rewrite <- Zle_Qle.
    assert (0 < 2 ^ (b - a)) by (apply Z.pow_pos_nonneg; lia). lia. }
  pose proof (pow2_pos a). nra.
Qed.

Lemma montar_valor (sx : bool) (m e : Z) :
  0 <= m -> e <= 104 ->
  finito (montar sx m e) = true
  /\ (B2Q (montar sx m e) == sinalQ sx * (inject_Z m * pow2 e))%Q.
Proof.
  intros Hm He. destruct m as [|p|p]; [| |lia]; cbn [montar].
  - split; [reflexivity|]. cbn [B2Q]. change (inject_Z 0) with 0%Q. ring.
  - destruct (Z.leb_spec e 104) as [_|]; [|lia].
    cbn [finito B2Q]. split; [apply Z.leb_le; exact He|reflexivity].
Qed.

Lemma Qabs_sinal (s : bool) (x y : Q) :
  (Qabs (sinalQ s * x - sinalQ s * y) == Qabs (x - y))%Q.
Proof.
  destruct s; unfold sinalQ.
  - setoid_replace (-1 * x - -1 * y)%Q with (- (x - y))%Q by ring.
    apply Qabs_opp.
  - setoid_replace (1 * x - 1 * y)%Q with (x - y)%Q by ring. reflexivity.
Qed.

(** Rounding an exact value [mx * 2^ex] to binary32: no overflow below
    [2^127], relative error at most [2^-24] or, in the subnormal range,
    absolute error at most [2^-150]. *)
Lemma binary_round_aux_erro (sx : bool) (mx : positive) (ex : Z) :
  ex <= 104 -> Zdigits2 (Zpos mx) + ex <= 127 ->
  let r := binary_round_aux prec32 emax32 sx (Zpos mx) ex loc_Exact in
  let X := (inject_Z (Zpos mx) * pow2 ex)%Q in
  finito r = true
  /\ (Qabs (B2Q r - sinalQ sx * X) <= pow2 (-24) * X + pow2 (-150))%Q.
Proof.
  intros Hex Hd. cbv zeta.
  destruct (binary_round_aux_exato sx mx ex)
    as (m3 & e3 & Hm3 & He3 & Heq & Herr & Hex0).
  set (d := Zdigits2 (Zpos mx)) in *. set (e1 := fexp32 (d + ex)) in *.
  set (k := Z.to_nat (e1 - ex)) in *.
  assert (He1 : e1 <= 103) by (unfold e1, fexp32; lia).
  destruct (montar_valor sx m3 e3 ltac:(lia) ltac:(lia)) as [Hf Hv].
  rewrite Heq. split; [exact Hf|].
  rewrite Hv, Qabs_sinal.
  pose proof (pow2_pos ex) as Pex. pose proof (pow2_pos (-150)) as P150.
  pose proof (pow2_pos (-24)) as P24.
  assert (HX : (0 < inject_Z (Zpos mx))%Q)
    by (change 0%Q with (inject_Z 0); rewrite <- Zlt_Qlt; lia).
  assert (Ev : (inject_Z m3 * pow2 e3 - inject_Z (Zpos mx) * pow2 ex
                == inject_Z (m3 * 2 ^ (e3 - ex) - Zpos mx) * pow2 ex)%Q).
  { replace e3 with ((e3 - ex) + ex) at 1 by lia.
    rewrite pow2_add, (pow2_Z (e3 - ex)) by lia.
    unfold Z.sub. rewrite inject_Z_plus, inject_Z_opp, inject_Z_mult. ring. }
  rewrite Ev. rewrite Qabs_Qmult, (Qabs_pos (pow2 ex)) by (apply Qlt_le_weak; exact Pex).
  set (D := m3 * 2 ^ (e3 - ex) - Zpos mx) in *.
  assert (HXe : (0 < inject_Z (Zpos mx) * pow2 ex)%Q)
    by (apply Qmult_lt_0_compat; assumption).
  assert (HR : (0 < pow2 (-24) * (inject_Z (Zpos mx) * pow2 ex))%Q)
    by (apply Qmult_lt_0_compat; assumption).
  destruct (Z_le_gt_dec e1 ex) as [Hle|Hgt].
  - destruct (Hex0 Hle) as [-> ->].
    assert (D = 0) by (unfold D; rewrite Z.sub_diag; change (2 ^ 0) with 1; lia).
    rewrite H. change (Qabs (inject_Z 0)) with 0%Q. lra.
  - assert (Kk : Z.of_nat k = e1 - ex) by (unfold k; lia).
    rewrite Kk in Herr.
    assert (HD : (Qabs (inject_Z D) * 2 <= pow2 (e1 - ex))%Q).
    { rewrite (pow2_Z (e1 - ex)) by lia.
      change (Qabs (inject_Z D)) with (inject_Z (Z.abs D)).
      change 2%Q with (inject_Z 2).
      rewrite <- inject_Z_mult, <- Zle_Qle. lia. }
    assert (Hhalf : (Qabs (inject_Z D) * pow2 ex <= pow2 (e1 - 1))%Q).
    { assert (E : (pow2 (e1 - ex) * pow2 ex == 2 * pow2 (e1 - 1))%Q).
      { rewrite <- pow2_add. replace (e1 - ex + ex) with (1 + (e1 - 1)) by lia.
        rewrite pow2_add. reflexivity. }
      assert (M : (Qabs (inject_Z D) * 2 * pow2 ex
                   <= pow2 (e1 - ex) * pow2 ex)%Q)
        by (apply Qmult_le_compat_r; [exact HD|apply Qlt_le_weak; exact Pex]).
      rewrite E in M.
      setoid_replace (Qabs (inject_Z D) * 2 * pow2 ex)%Q
        with (2 * (Qabs (inject_Z D) * pow2 ex))%Q in M by ring.
      lra. }
    destruct (Z_le_gt_dec e1 (-149)) as [Hsub|Hnor].
    + assert (pow2 (e1 - 1) <= pow2 (-150))%Q by (apply pow2_le; lia).
      lra.
    + assert (E1 : e1 = d + ex - 24)
        by (unfold e1, fexp32 in Hnor |- *; lia).
      pose proof (Zdigits2_limites mx) as [Hlo _]. fold d in Hlo.
      assert (Hd1 : 1 <= d).
      { destruct (Z_le_gt_dec 1 d); [assumption|].
        pose proof (Zdigits2_nonneg (Zpos mx)). fold d in H.
        assert (d = 0) by lia. unfold d in H0. discriminate. }
      assert (Hmq : (pow2 (d - 1) <= inject_Z (Zpos mx))%Q).
      { rewrite pow2_Z by lia. rewrite <- Zle_Qle. exact Hlo. }
      assert (E : (pow2 (e1 - 1) == pow2 (-24) * (pow2 (d - 1) * pow2 ex))%Q).
      { rewrite <- !pow2_add. f_equiv. lia. }
      rewrite E in Hhalf.
      assert (pow2 (-24) * (pow2 (d - 1) * pow2 ex)
              <= pow2 (-24) * (inject_Z (Zpos mx) * pow2 ex))%Q.
      { apply Qmult_le_l; [exact P24|].
        apply Qmult_le_r; [exact Pex|exact Hmq]. }
      lra.
Qed.

Lemma digitos_por_valor (m : positive) (e : Z) :
  (inject_Z (Zpos m) * pow2 e < pow2 127)%Q ->
  Zdigits2 (Zpos m) + e <= 127.
Proof.
  intros H. destruct (Z_le_gt_dec (Zdigits2 (Zpos m) + e) 127) as [|Hgt];
    [assumption|exfalso].
  pose proof (Zdigits2_limites m) as [Hlo _].
  set (d := Zdigits2 (Zpos m)) in *.
  assert (Hd1 : 1 <= d).
  { pose proof (Zdigits2_nonneg (Zpos m)) as Hn. fold d in Hn.
    destruct (Z_le_gt_dec 1 d); [assumption|].
    assert (K : d = 0) by lia. unfold d in K. discriminate. }
  assert (Hmq : (pow2 (d - 1) <= inject_Z (Zpos m))%Q)
    by (rewrite pow2_Z by lia; rewrite <- Zle_Qle; exact Hlo).
  assert (H1 : (pow2 127 <= pow2 (d - 1 + e))%Q) by (apply pow2_le; lia).
  rewrite pow2_add in H1.
  assert (H2 : (pow2 (d - 1) * pow2 e <= inject_Z (Zpos m) * pow2 e)%Q)
    by (apply Qmult_le_compat_r; [exact Hmq|apply Qlt_le_weak, pow2_pos]).
  lra.
Qed.

Lemma iter_xO_pow (m d : positive) :
  Zpos (Pos.iter xO m d) = Zpos m * 2 ^ Zpos d.
Proof.
  induction d as [|d IH] using Pos.peano_ind.
  - cbn [Pos.iter]. rewrite Pos2Z.inj_xO. change (2 ^ 1) with 2. ring.
  - rewrite Pos.iter_succ, Pos2Z.inj_xO, IH, Pos2Z.inj_succ,
      Z.pow_succ_r by lia. ring.
Qed.

Lemma shl_align_valor (m : positive) (e t : Z) :
  let r := shl_align m e t in
  snd r <= e
  /\ (t <= e -> snd r = t)
  /\ Zpos (fst r) = Zpos m * 2 ^ (e - snd r).
Proof.
  unfold shl_align. destruct (t - e) as [|p|p] eqn:E; cbn [fst snd].
  - rewrite Z.sub_diag. change (2 ^ 0) with 1. lia.
  - rewrite Z.sub_diag. change (2 ^ 0) with 1. lia.
  - rewrite iter_xO_pow. replace (e - t) with (Zpos p) by lia. lia.
Qed.

Lemma binary_round_erro (sx : bool) (m : positive) (e : Z) :
  e <= 104 ->
  (inject_Z (Zpos m) * pow2 e < pow2 127)%Q ->
  let r := binary_round prec32 emax32 sx m e in
  let X := (inject_Z (Zpos m) * pow2 e)%Q in
  finito r = true
  /\ (Qabs (B2Q r - sinalQ sx * X) <= pow2 (-24) * X + pow2 (-150))%Q.
Proof.
  intros He Hmag. cbv zeta. unfold binary_round.
  pose proof (shl_align_valor m e
                (fexp prec32 emax32 (Zpos (digits2_pos m) + e)))
    as (Hs & _ & Hv).
  destruct (shl_align m e (fexp prec32 emax32 (Zpos (digits2_pos m) + e)))
    as [mz ez]. cbn [fst snd] in Hs, Hv.
  assert (EX : (inject_Z (Zpos mz) * pow2 ez == inject_Z (Zpos m) * pow2 e)%Q).
  { rewrite Hv, inject_Z_mult. replace e with ((e - ez) + ez) at 2 by lia.
    rewrite pow2_add, (pow2_Z (e - ez)) by lia. ring. }
  assert (Hd : Zdigits2 (Zpos mz) + ez <= 127)
    by (apply digitos_por_valor; rewrite EX; exact Hmag).
  destruct (binary_round_aux_erro sx mz ez ltac:(lia) Hd) as [Hf Herr].
  split; [exact Hf|]. rewrite <- EX. exact Herr.
Qed.

Lemma binary_normalize_erro (m e : Z) :
  e <= 104 ->
  (Qabs (inject_Z m * pow2 e) < pow2 127)%Q ->
  let r := binary_normalize prec32 emax32 m e false in
  let X := (inject_Z m * pow2 e)%Q in
  finito r = true
  /\ (Qabs (B2Q r - X) <= pow2 (-24) * Qabs X + pow2 (-150))%Q.
Proof.
  intros He Hmag. cbv zeta.
  pose proof (pow2_pos e) as Pe. pose proof (pow2_pos (-150)) as P150.
  destruct m as [|p|p]; cbn [binary_normalize].
  - split; [reflexivity|].
    change (B2Q (S754_zero false)) with 0%Q.
    assert (E0 : (inject_Z 0 * pow2 e == 0)%Q) by ring.
    rewrite E0. change (Qabs (0 - 0)) with 0%Q. change (Qabs 0) with 0%Q.
    lra.
  - assert (HX : (0 < inject_Z (Zpos p) * pow2 e)%Q).
    { apply Qmult_lt_0_compat; [|exact Pe].
      change 0%Q with (inject_Z 0). rewrite <- Zlt_Qlt. lia. }
    pose proof (Qabs_pos _ (Qlt_le_weak _ _ HX)) as EA.
    rewrite EA in Hmag. rewrite EA.
    destruct (binary_round_erro false p e He Hmag) as [Hf Herr].
    split; [exact Hf|].
    unfold sinalQ in Herr.
    setoid_replace (1 * (inject_Z (Zpos p) * pow2 e))%Q
      with (inject_Z (Zpos p) * pow2 e)%Q in Herr by ring.
    exact Herr.
  - assert (HX : (0 < inject_Z (Zpos p) * pow2 e)%Q).
    { apply Qmult_lt_0_compat; [|exact Pe].
      change 0%Q with (inject_Z 0). rewrite <- Zlt_Qlt. lia. }
    assert (EN : (inject_Z (Zneg p) * pow2 e
                  == - (inject_Z (Zpos p) * pow2 e))%Q).
    { change (Zneg p) with (- Zpos p). rewrite inject_Z_opp. ring. }
    pose proof (Qabs_pos _ (Qlt_le_weak _ _ HX)) as EA.
    rewrite EN, Qabs_opp, EA in Hmag. rewrite EN, Qabs_opp, EA.
    destruct (binary_round_erro true p e He Hmag) as [Hf Herr].
    split; [exact Hf|].
    unfold sinalQ in Herr.
    setoid_replace (-1 * (inject_Z (Zpos p) * pow2 e))%Q
      with (- (inject_Z (Zpos p) * pow2 e))%Q in Herr by ring.
    exact Herr.
Qed.

Lemma sinalQ_xorb (a b : bool) :
  (sinalQ (xorb a b) == sinalQ a * sinalQ b)%Q.
Proof. destruct a, b; reflexivity. Qed.

Lemma Qabs_sinalQ (s : bool) (x : Q) : (Qabs (sinalQ s * x) == Qabs x)%Q.
Proof.
  destruct s; unfold sinalQ.
  - setoid_replace (-1 * x)%Q with (- x)%Q by ring. apply Qabs_opp.
  - setoid_replace (1 * x)%Q with x by ring. reflexivity.
Qed.

Lemma SFmul_erro (x y : spec_float) :
  finito x = true -> finito y = true ->
  expoente x + expoente y <= 104 ->
  (Qabs (B2Q x * B2Q y) < pow2 127)%Q ->
  finito (SFmul prec32 emax32 x y) = true
  /\ (Qabs (B2Q (SFmul prec32 emax32 x y) - B2Q x * B2Q y)
      <= pow2 (-24) * Qabs (B2Q x * B2Q y) + pow2 (-150))%Q.
Proof.
  intros Hx Hy He Hmag.
  pose proof (pow2_pos (-150)) as P150. pose proof (pow2_pos (-24)) as P24.
  destruct x as [sx|sx| |sx mx ex]; try discriminate;
    destruct y as [sy|sy| |sy my ey]; try discriminate;
    cbn [SFmul].
  1-3: split; [reflexivity|]; cbn [B2Q];
    match goal with
    | |- (Qabs (0 - ?p) <= _ * Qabs ?p + _)%Q =>
        assert (E0 : (p == 0)%Q) by ring; rewrite E0
    end;
    change (Qabs (0 - 0)) with 0%Q; change (Qabs 0) with 0%Q; lra.
  cbn [expoente] in He. cbn [B2Q] in Hmag |- *.
  assert (EP : (sinalQ sx * (inject_Z (Zpos mx) * pow2 ex)
                * (sinalQ sy * (inject_Z (Zpos my) * pow2 ey))
                == sinalQ (xorb sx sy)
                   * (inject_Z (Zpos (mx * my)) * pow2 (ex + ey)))%Q).
  { rewrite sinalQ_xorb, Pos2Z.inj_mul, inject_Z_mult, pow2_add. ring. }
  rewrite EP in Hmag |- *. rewrite Qabs_sinalQ in Hmag |- *.
  assert (HX : (0 < inject_Z (Zpos (mx * my)) * pow2 (ex + ey))%Q).
  { apply Qmult_lt_0_compat; [|apply pow2_pos].
    change 0%Q with (inject_Z 0). rewrite <- Zlt_Qlt. lia. }
  pose proof (Qabs_pos _ (Qlt_le_weak _ _ HX)) as EA.
  rewrite EA in Hmag. rewrite EA.
  apply binary_round_aux_erro; [exact He|].
  apply digitos_por_valor. exact Hmag.
Qed.

Lemma cond_Zopp_sinal (s : bool) (m : Z) :
  (inject_Z (cond_Zopp s m) == sinalQ s * inject_Z m)%Q.
Proof.
  destruct s; unfold cond_Zopp, sinalQ.
  - rewrite inject_Z_opp. ring.
  - ring.
Qed.

Lemma SFadd_erro (x y : spec_float) :
  finito x = true -> finito y = true ->
  (Qabs (B2Q x + B2Q y) < pow2 127)%Q ->
  finito (SFadd prec32 emax32 x y) = true
  /\ (Qabs (B2Q (SFadd prec32 emax32 x y) - (B2Q x + B2Q y))
      <= pow2 (-24) * Qabs (B2Q x + B2Q y) + pow2 (-150))%Q.
Proof.
  intros Hx Hy Hmag.
  pose proof (pow2_pos (-150)) as P150. pose proof (pow2_pos (-24)) as P24.
  assert (Hexato : forall (z : spec_float) (w : Q),
             (B2Q z == w)%Q ->
             (Qabs (B2Q z - w) <= pow2 (-24) * Qabs w + pow2 (-150))%Q).
  { intros z w E. setoid_replace (B2Q z - w)%Q with 0%Q by (rewrite E; ring).
    change (Qabs 0) with 0%Q. pose proof (Qabs_nonneg w).
    assert (0 <= pow2 (-24) * Qabs w)%Q
      by (apply Qmult_le_0_compat; [apply Qlt_le_weak; exact P24|assumption]).
    lra. }
  destruct x as [sx|sx| |sx mx ex]; try discriminate;
    destruct y as [sy|sy| |sy my ey]; try discriminate;
    cbn [SFadd].
  - split; [destruct sx, sy; reflexivity|].
    apply Hexato. destruct sx, sy; reflexivity.
  - split; [exact Hy|]. apply Hexato. cbn [B2Q]. ring.
  - split; [exact Hx|]. apply Hexato. cbn [B2Q]. ring.
  - cbv zeta. set (ez := Z.min ex ey).
    cbn [finito] in Hx, Hy. apply Z.leb_le in Hx, Hy.
    destruct (shl_align_valor mx ex ez) as (_ & Sx & Vx).
    destruct (shl_align_valor my ey ez) as (_ & Sy & Vy).
    rewrite (Sx ltac:(unfold ez; lia)) in Vx.
    rewrite (Sy ltac:(unfold ez; lia)) in Vy.
    set (ax := fst (shl_align mx ex ez)) in *.
    set (ay := fst (shl_align my ey ez)) in *.
    assert (EV : (inject_Z (cond_Zopp sx (Zpos ax) + cond_Zopp sy (Zpos ay))
                  * pow2 ez
                  == B2Q (S754_finite sx mx ex) + B2Q (S754_finite sy my ey))%Q).
    { rewrite inject_Z_plus, !cond_Zopp_sinal, Vx, Vy, !inject_Z_mult.
      cbn [B2Q].
      replace ex with ((ex - ez) + ez) at 2 by lia.
      replace ey with ((ey - ez) + ez) at 2 by lia.
      rewrite !pow2_add, (pow2_Z (ex - ez)), (pow2_Z (ey - ez))
        by (unfold ez; lia).
      ring. }
    rewrite <- EV in Hmag |- *.
    apply binary_normalize_erro; [unfold ez; lia|exact Hmag].
Qed.

(** ** The exponential filter in binary32 *)

Lemma alpha32_valor : alpha32 = S754_finite false 13421773 (-26).
Proof. vm_compute. reflexivity. Qed.

Lemma um_menos_alpha32_valor :
  SFsub prec32 emax32 (f32_of_Z 1) alpha32 = S754_finite false 13421773 (-24).
Proof. vm_compute. reflexivity. Qed.

Lemma finito_expoente (x : spec_float) : finito x = true -> expoente x <= 104.
Proof.
  destruct x; cbn [finito expoente]; try discriminate; lia.
Qed.

Ltac abs_le H := apply Qabs_Qle_condition in H.

(** One update: the binary32 result is the exact update up to rounding. *)
Lemma filtrar32_passo (v f : spec_float) (M : Q) :
  finito v = true -> finito f = true ->
  (Qabs (B2Q v) <= M)%Q -> (Qabs (B2Q f) <= M)%Q -> (M <= pow2 101)%Q ->
  finito (filtrar32 v f) = true
  /\ (Qabs (B2Q (filtrar32 v f) - filtrar (B2Q v) (B2Q f))
      <= (3 # 5) * pow2 (-22) * M + 4 * pow2 (-150))%Q.
Proof.
  intros Fv Ff Hv Hf HM.
  unfold filtrar32. rewrite um_menos_alpha32_valor, alpha32_valor.
  set (a := S754_finite false 13421773 (-26)).
  set (b := S754_finite false 13421773 (-24)).
  assert (Ea : (B2Q a == 13421773 # 67108864)%Q) by reflexivity.
  assert (Eb : (B2Q b == 13421773 # 16777216)%Q) by reflexivity.
  pose proof (finito_expoente v Fv) as Xv.
  pose proof (finito_expoente f Ff) as Xf.
  pose proof (pow2_pos (-150)) as Peta.
  assert (Heta : (pow2 (-150) <= 1)%Q)
    by (apply Qlt_le_weak; reflexivity).
  assert (E24 : (pow2 (-24) == 1 # 16777216)%Q) by reflexivity.
  assert (E22 : (pow2 (-22) == 1 # 4194304)%Q) by reflexivity.
  assert (E101 : (pow2 101 == 2535301200456458802993406410752 # 1)%Q)
    by reflexivity.
  assert (E127 : (pow2 127 == 170141183460469231731687303715884105728 # 1)%Q)
    by reflexivity.
  rewrite E101 in HM.
  abs_le Hv. abs_le Hf.
  assert (X1 : expoente a + expoente v <= 104)
    by (change (expoente a) with (-26); lia).
  assert (X2 : expoente b + expoente f <= 104)
    by (change (expoente b) with (-24); lia).
  assert (W1 : (Qabs (B2Q a * B2Q v) <= (13421773 # 67108864) * M)%Q).
  { rewrite Ea. apply Qabs_Qle_condition. lra. }
  assert (W2 : (Qabs (B2Q b * B2Q f) <= (13421773 # 16777216) * M)%Q).
  { rewrite Eb. apply Qabs_Qle_condition. lra. }
  assert (G1 : (Qabs (B2Q a * B2Q v) < pow2 127)%Q) by (rewrite E127; lra).
  assert (G2 : (Qabs (B2Q b * B2Q f) < pow2 127)%Q) by (rewrite E127; lra).
  destruct (SFmul_erro a v eq_refl Fv X1 G1) as [F1 H1].
  destruct (SFmul_erro b f eq_refl Ff X2 G2) as [F2 H2].
  clear G1 G2.
  pose proof (Qabs_nonneg (B2Q a * B2Q v)) as N1.
  pose proof (Qabs_nonneg (B2Q b * B2Q f)) as N2.
  set (p1 := SFmul prec32 emax32 a v) in *.
  set (p2 := SFmul prec32 emax32 b f) in *.
  set (w1 := Qabs (B2Q a * B2Q v)) in *. clearbody w1.
  set (w2 := Qabs (B2Q b * B2Q f)) in *. clearbody w2.
  rewrite E24, Ea in H1. rewrite E24, Eb in H2.
  abs_le H1. abs_le H2.
  set (eta := pow2 (-150)) in *.
  assert (W3 : (Qabs (B2Q p1 + B2Q p2) <= (101 # 100) * M + 2 * eta)%Q).
  { apply Qabs_Qle_condition. lra. }
  assert (G3 : (Qabs (B2Q p1 + B2Q p2) < pow2 127)%Q)
    by (rewrite E127; lra).
  destruct (SFadd_erro p1 p2 F1 F2 G3) as [F3 H3]. clear G3.
  split; [exact F3|].
  pose proof (Qabs_nonneg (B2Q p1 + B2Q p2)) as N3.
  set (w3 := Qabs (B2Q p1 + B2Q p2)) in *. clearbody w3.
  rewrite E24 in H3. abs_le H3.
  change (pow2 (-150)) with eta in H3. clearbody eta.
  rewrite E22. unfold filtrar, alpha.
  apply Qabs_Qle_condition.
  set (N := B2Q (SFadd prec32 emax32 p1 p2)) in *. clearbody N.
  set (P1 := B2Q p1) in *. set (P2 := B2Q p2) in *. clearbody P1 P2.
  set (V := B2Q v) in *. set (F := B2Q f) in *. clearbody V F.
  clear - Hv Hf Peta Heta W1 W2 W3 H1 H2 H3 N1 N2 N3.
  lra.
Qed.

Lemma filtrarN_limite (v s M : Q) (n : nat) :
  (Qabs v <= M)%Q -> (Qabs s <= M)%Q -> (Qabs (filtrarN n v s) <= M)%Q.
Proof.
  intros Hv Hs. induction n as [|n IH]; cbn [filtrarN]; [exact Hs|].
  abs_le Hv. abs_le IH. apply Qabs_Qle_condition.
  unfold filtrar, alpha. lra.
Qed.

Lemma filtrarN32_acompanha (v s : spec_float) (M : Q) (n : nat) :
  finito v = true -> finito s = true ->
  (Qabs (B2Q v) <= M)%Q -> (Qabs (B2Q s) <= M)%Q -> (M <= pow2 100)%Q ->
  finito (filtrarN32 n v s) = true
  /\ (Qabs (B2Q (filtrarN32 n v s) - filtrarN n (B2Q v) (B2Q s))
      <= margem M)%Q.
Proof.
  intros Fv Fs Hv Hs HM.
  pose proof (pow2_pos (-150)) as Peta.
  assert (Heta : (pow2 (-150) <= 1)%Q) by (apply Qlt_le_weak; reflexivity).
  assert (E145 : (pow2 (-145) == 32 * pow2 (-150))%Q) by reflexivity.
  assert (E20 : (pow2 (-20) == 1 # 1048576)%Q) by reflexivity.
  assert (E22 : (pow2 (-22) == 1 # 4194304)%Q) by reflexivity.
  assert (E100 : (pow2 100 == 1267650600228229401496703205376 # 1)%Q)
    by reflexivity.
  assert (E101 : (pow2 101 == 2535301200456458802993406410752 # 1)%Q)
    by reflexivity.
  assert (HM0 : (0 <= M)%Q)
    by (apply Qle_trans with (Qabs (B2Q v)); [apply Qabs_nonneg|exact Hv]).
  unfold margem. rewrite E145, E20. rewrite E100 in HM.
  induction n as [|n [IHf IHe]]; cbn [filtrarN32 filtrarN].
  - split; [exact Fs|].
    setoid_replace (B2Q s - B2Q s)%Q with 0%Q by ring.
    change (Qabs 0) with 0%Q. lra.
  - pose proof (filtrarN_limite (B2Q v) (B2Q s) M n Hv Hs) as Hy.
    set (x := filtrarN32 n v s) in *.
    set (y := filtrarN n (B2Q v) (B2Q s)) in *.
    set (G := ((1 # 1048576) * M + 32 * pow2 (-150))%Q) in *.
    assert (Hx : (Qabs (B2Q x) <= M + G)%Q).
    { abs_le IHe. abs_le Hy. apply Qabs_Qle_condition. lra. }
    assert (Hv' : (Qabs (B2Q v) <= M + G)%Q).
    { abs_le Hv. apply Qabs_Qle_condition. unfold G. lra. }
    assert (HM' : (M + G <= pow2 101)%Q) by (rewrite E101; unfold G; lra).
    destruct (filtrar32_passo v x (M + G) Fv IHf Hv' Hx HM') as [Ff He].
    split; [exact Ff|].
    rewrite E22 in He. abs_le He. abs_le IHe.
    apply Qabs_Qle_condition.
    unfold filtrar, alpha in *.
    set (X' := B2Q (filtrar32 v x)) in *. clearbody X'.
    set (X := B2Q x) in *. clearbody X.
    set (V := B2Q v) in *. clearbody V.
    set (eta := pow2 (-150)) in *. clearbody eta. clearbody y.
    unfold G in *. clear - He IHe HM0 Peta. lra.
Qed.

Lemma finito_de_valido (x : spec_float) :
  valid_binary prec32 emax32 x = true ->
  match x with S754_infinity _ | S754_nan => False | _ => True end ->
  finito x = true.
Proof.
  destruct x as [s|s| |s m e]; cbn [valid_binary finito]; try tauto.
  unfold bounded. intros H _. apply andb_prop in H. exact (proj2 H).
Qed.

(** C8 (as the code has it).  The update
    [filtro = alpha * v + (1 - alpha) * filtro] repeated with a constant
    input [v].  Over exact numbers (the update [0.2 * v + 0.8 * smoothed]
    of the claim, [filtrar]) the iterates move monotonically toward [v]
    and never pass it.  The sketch evaluates the update in binary32
    ([filtrar32]): for finite [v] and [s] of magnitude at most
    [M <= 2^100] every computed iterate is finite and within
    [margem M = 2^-20 * M + 2^-145] of the exact iterate; so, from below,
    a computed iterate exceeds [v] by at most that margin and falls below
    the previous one by at most twice the margin (symmetrically from
    above), and the computed iterates come within the margin plus any
    [eps > 0] of [v]. *)
Theorem filtro_converge_ate_arredondamento (v s : spec_float) (M : Q) :
  finito v = true -> finito s = true ->
  (Qabs (B2Q v) <= M)%Q -> (Qabs (B2Q s) <= M)%Q -> (M <= pow2 100)%Q ->
  (forall n,
      finito (filtrarN32 n v s) = true
      /\ (Qabs (B2Q (filtrarN32 n v s) - filtrarN n (B2Q v) (B2Q s))
          <= margem M)%Q)
  /\ (forall n,
         (B2Q s <= B2Q v)%Q ->
         (filtrarN n (B2Q v) (B2Q s) <= filtrarN (S n) (B2Q v) (B2Q s))%Q
         /\ (filtrarN (S n) (B2Q v) (B2Q s) <= B2Q v)%Q)
  /\ (forall n,
         (B2Q v <= B2Q s)%Q ->
         (B2Q v <= filtrarN (S n) (B2Q v) (B2Q s))%Q
         /\ (filtrarN (S n) (B2Q v) (B2Q s) <= filtrarN n (B2Q v) (B2Q s))%Q)
  /\ (forall n,
         (B2Q s <= B2Q v)%Q ->
         (B2Q (filtrarN32 n v s) - 2 * margem M
          <= B2Q (filtrarN32 (S n) v s))%Q
         /\ (B2Q (filtrarN32 (S n) v s) <= B2Q v + margem M)%Q)
  /\ (forall n,
         (B2Q v <= B2Q s)%Q ->
         (B2Q (filtrarN32 (S n) v s)
          <= B2Q (filtrarN32 n v s) + 2 * margem M)%Q
         /\ (B2Q v - margem M <= B2Q (filtrarN32 (S n) v s))%Q)
  /\ (forall eps,
         (0 < eps)%Q ->
         exists N : nat,
           forall n,
             (N <= n)%nat ->
             (Qabs (B2Q (filtrarN32 n v s) - B2Q v) < margem M + eps)%Q).
Proof.
  intros Fv Fs Hv Hs HM.
  pose proof (fun n => filtrarN32_acompanha v s M n Fv Fs Hv Hs HM) as Hac.
  assert (Hbaixo : forall n, (B2Q s <= B2Q v)%Q ->
            (filtrarN n (B2Q v) (B2Q s) <= filtrarN (S n) (B2Q v) (B2Q s))%Q
            /\ (filtrarN (S n) (B2Q v) (B2Q s) <= B2Q v)%Q).
  { intros n H. cbn [filtrarN]. apply filtrar_abaixo, filtrarN_abaixo, H. }
  assert (Hcima : forall n, (B2Q v <= B2Q s)%Q ->
            (B2Q v <= filtrarN (S n) (B2Q v) (B2Q s))%Q
            /\ (filtrarN (S n) (B2Q v) (B2Q s) <= filtrarN n (B2Q v) (B2Q s))%Q).
  { intros n H. cbn [filtrarN]. apply filtrar_acima, filtrarN_acima, H. }
  split; [exact Hac|]. split; [exact Hbaixo|]. split; [exact Hcima|].
  split; [|split].
  - intros n H. destruct (Hbaixo n H) as [B1 B2].
    destruct (Hac n) as [_ A0]. destruct (Hac (S n)) as [_ A1].
    abs_le A0. abs_le A1. split; lra.
  - intros n H. destruct (Hcima n H) as [B1 B2].
    destruct (Hac n) as [_ A0]. destruct (Hac (S n)) as [_ A1].
    abs_le A0. abs_le A1. split; lra.
  - intros eps Heps.
    destruct (filtrarN_converge (B2Q v) (B2Q s) eps Heps) as [N HN].
    exists N. intros n Hn. specialize (HN n Hn).
    destruct (Hac n) as [_ A0]. abs_le A0.
    apply Qabs_Qlt_condition in HN. apply Qabs_Qlt_condition. lra.
Qed.

(** From 0 V toward the constant reading 485.654236 V, seventy updates. *)
Lemma filtro_converge_ate_arredondamento_witness :
  finito (filtrarN32 70 leituraExemplo32 (S754_zero false)) = true
  /\ (Qabs (B2Q (filtrarN32 70 leituraExemplo32 (S754_zero false))
            - filtrarN 70 (B2Q leituraExemplo32) (B2Q (S754_zero false)))
      <= margem 486)%Q.
Proof.
  refine (proj1 (filtro_converge_ate_arredondamento
                   leituraExemplo32 (S754_zero false) 486 _ _ _ _ _) 70%nat).
  - reflexivity.
  - reflexivity.
  - vm_compute. discriminate.
  - vm_compute. discriminate.
  - vm_compute. discriminate.
Defined.

(** C8, counterexample to the claim as worded.  From 0 V, below the
    constant reading 485.654236 V, the 69th computed value is the reading
    itself and the 70th is the next binary32 number, 485.654266 V, above
    the reading; the filter then stays there. *)
Lemma filtro_converge_monotono_counterexample :
  (B2Q (S754_zero false) <= B2Q leituraExemplo32)%Q
  /\ filtrarN32 69 leituraExemplo32 (S754_zero false) = leituraExemplo32
  /\ filtrarN32 70 leituraExemplo32 (S754_zero false)
     = S754_finite false 15913919 (-15)
  /\ (B2Q leituraExemplo32
      < B2Q (filtrarN32 70 leituraExemplo32 (S754_zero false)))%Q
  /\ SFltb leituraExemplo32
       (filtrarN32 70 leituraExemplo32 (S754_zero false)) = true
  /\ filtrar32 leituraExemplo32 (S754_finite false 15913919 (-15))
     = S754_finite false 15913919 (-15).
Proof.
  split; [vm_compute; discriminate|].
  split; [vm_compute; reflexivity|].
  split; [vm_compute; reflexivity|].
  split; [vm_compute; reflexivity|].
  split; vm_compute; reflexivity.
Qed.
